(** * Openai-node: routing, retrieval and session core

    A shallow embedding of the server-side services of the repository
    (embeddingService, knowledgeBaseService, moderationService, chatService,
    integrationService) together with the properties the specification states
    about them.

    Conventions of the embedding.
    - JavaScript strings that are scanned character by character (document
      text, chat messages under classification) are [list ascii], ASCII
      text; strings that are only stored, compared or used as map keys are
      [string].
    - JavaScript numbers are [nat] for counters, sizes and indices, [Z] for
      times in milliseconds, [Q] for the moderation scores (which are only
      compared) and binary64 [float] for embedding vectors.
    - [Map] objects keyed by session id are [gmap string _]; the two maps of
      the knowledge base, whose iteration order a query observes, are
      insertion-ordered association lists ([JSMap.t]). The object stored
      under a key is the map entry itself, so an in-place mutation of an
      object fetched from a map is an update of that entry.
    - [async] methods that can reject are functions into [Outcome], or into
      [Eff] when they read or write the state of a service; the hosted
      capabilities are the fields of a [Capabilities] record.
    - [Date.now()] is an explicit argument [now]; generated identifiers
      (random suffixes) are explicit arguments or left out of the records. *)

From Stdlib Require Import ZArith QArith Lia List Ascii String Bool PrimFloat
  Sorted DecimalString.
From stdpp Require Import gmap strings list fin_maps.

(* ===================================================================== *)
(** * JavaScript string primitives *)
(* ===================================================================== *)

Module JS.

Local Open Scope char_scope.

(** Characters removed by [String.prototype.trim]. *)
Definition isWhiteSpace (c : ascii) : bool :=
  match c with
  | " " | "009" | "010" | "011" | "012" | "013" => true
  | _ => false
  end.

Fixpoint trimStart (s : list ascii) : list ascii :=
  match s with
  | [] => []
  | c :: rest => if isWhiteSpace c then trimStart rest else s
  end.

Definition trimEnd (s : list ascii) : list ascii := rev (trimStart (rev s)).

Definition trim (s : list ascii) : list ascii := trimEnd (trimStart s).

(** [s.split(/[.!?]+/)]: the fragments between maximal runs of
    sentence terminators; [inRun] records that the previous character
    was a terminator, [acc] is the fragment being read, reversed. *)
Definition isTerminator (c : ascii) : bool :=
  match c with
  | "." | "!" | "?" => true
  | _ => false
  end.

Fixpoint splitRuns (inRun : bool) (acc : list ascii) (s : list ascii)
  : list (list ascii) :=
  match s with
  | [] => [rev acc]
  | c :: rest =>
      if isTerminator c
      then if inRun then splitRuns true acc rest
           else rev acc :: splitRuns true [] rest
      else splitRuns false (c :: acc) rest
  end.

Definition splitSentences (s : list ascii) : list (list ascii) :=
  splitRuns false [] s.

(** [s.split(" ")]. *)
Fixpoint splitOn (sep : ascii) (acc : list ascii) (s : list ascii)
  : list (list ascii) :=
  match s with
  | [] => [rev acc]
  | c :: rest =>
      if Ascii.eqb c sep then rev acc :: splitOn sep [] rest
      else splitOn sep (c :: acc) rest
  end.

Definition splitSpaces (s : list ascii) : list (list ascii) := splitOn " " [] s.

(** [words.join(" ")]. *)
Fixpoint joinSpaces (words : list (list ascii)) : list ascii :=
  match words with
  | [] => []
  | [w] => w
  | w :: rest => w ++ " " :: joinSpaces rest
  end.

(** [arr.slice(-n)]: the last [n] elements; [slice(-0)] is [slice(0)],
    the whole array. *)
Definition sliceLast {A} (n : nat) (l : list A) : list A :=
  if Nat.eqb n 0 then l else skipn (length l - n) l.

(** [s.toLowerCase()] on the ASCII letters. *)
Definition toLowerChar (c : ascii) : ascii :=
  let n := nat_of_ascii c in
  if Nat.leb 65 n && Nat.leb n 90 then ascii_of_nat (n + 32) else c.

Definition toLowerCase (s : list ascii) : list ascii := map toLowerChar s.

Fixpoint startsWith (p s : list ascii) : bool :=
  match p, s with
  | [], _ => true
  | _ :: _, [] => false
  | a :: p', b :: s' => Ascii.eqb a b && startsWith p' s'
  end.

(** [hay.includes(needle)]. *)
Fixpoint includes (needle hay : list ascii) : bool :=
  startsWith needle hay ||
  match hay with
  | [] => false
  | _ :: rest => includes needle rest
  end.

(** [x || fallback] on a possibly missing string: [null], [undefined]
    and the empty string are falsy. *)
Definition orElse (x : option string) (fallback : string) : string :=
  match x with
  | Some s => if String.eqb s "" then fallback else s
  | None => fallback
  end.

End JS.

(** Results of operations that may throw: the value, or the message of the
    [Error] that was thrown. *)
Inductive Outcome (A : Type) : Type :=
| Ok (value : A)
| Throw (message : string).
Arguments Ok {A} value.
Arguments Throw {A} message.

Definition chars (s : string) : list ascii := list_ascii_of_string s.

(* ===================================================================== *)
(** * week2/embeddingService.ts *)
(* ===================================================================== *)

Module EmbeddingService.

Import JS.
Local Open Scope char_scope.

(** The body of the [for (const sentence of sentences)] loop of
    [splitTextIntoChunks], threading [chunks] and [currentChunk]. *)
Fixpoint chunkLoop (maxChunkSize overlapSize : nat)
    (sentences : list (list ascii))
    (chunks : list (list ascii)) (currentChunk : list ascii)
  : list (list ascii) * list ascii :=
  match sentences with
  | [] => (chunks, currentChunk)
  | sentence :: rest =>
      let trimmedSentence := trim sentence in
      if Nat.ltb maxChunkSize (length currentChunk + length trimmedSentence)
         && Nat.ltb 0 (length currentChunk)
      then
        let chunks' := chunks ++ [trim currentChunk] in
        let words := splitSpaces currentChunk in
        let overlapWords := sliceLast (overlapSize / 5) words in
        chunkLoop maxChunkSize overlapSize rest chunks'
          (joinSpaces overlapWords ++ " " :: trimmedSentence)
      else
        chunkLoop maxChunkSize overlapSize rest chunks
          (currentChunk
             ++ (match currentChunk with [] => [] | _ :: _ => [" "] end)
             ++ trimmedSentence)
  end.

Definition nonBlank (s : list ascii) : bool := Nat.ltb 0 (length (trim s)).

Definition splitTextIntoChunks (text : list ascii)
    (maxChunkSize overlapSize : nat) : list (list ascii) :=
  let sentences := List.filter nonBlank (splitSentences text) in
  let '(chunks, currentChunk) :=
    chunkLoop maxChunkSize overlapSize sentences [] [] in
  if Nat.ltb 0 (length (trim currentChunk))
  then chunks ++ [trim currentChunk]
  else chunks.

End EmbeddingService.

(* ===================================================================== *)
(** * Numbers and cosine similarity *)
(* ===================================================================== *)

(** ** Numbers

    [calculateCosineSimilarity] is written over the arithmetic it uses;
    [doubleNumber] is the arithmetic of the JavaScript engine, IEEE
    doubles, on which every caller runs it. *)
Record Number (T : Type) : Type := {
  zero : T;
  add : T -> T -> T;
  mul : T -> T -> T;
  div : T -> T -> T;
  sqrt : T -> T;
  isZero : T -> bool            (* [x === 0] *)
}.
Arguments zero {T} _.
Arguments add {T} _ _ _.
Arguments mul {T} _ _ _.
Arguments div {T} _ _ _.
Arguments sqrt {T} _ _.
Arguments isZero {T} _ _.

Definition doubleNumber : Number float := {|
  zero := 0%float;
  add := PrimFloat.add;
  mul := PrimFloat.mul;
  div := PrimFloat.div;
  sqrt := PrimFloat.sqrt;
  isZero := fun x => PrimFloat.eqb x 0%float
|}.

Module Similarity.

Section Generic.
Context {T : Type} (N : Number T).

(** One iteration of the accumulation loop. *)
Definition step (acc : T * T * T) (ab : T * T) : T * T * T :=
  let '(dotProduct, normA, normB) := acc in
  let '(a, b) := ab in
  (add N dotProduct (mul N a b),
   add N normA (mul N a a),
   add N normB (mul N b b)).

Definition calculateCosineSimilarity (vectorA vectorB : list T) : Outcome T :=
  if negb (Nat.eqb (length vectorA) (length vectorB))
  then Throw "Vectors must have the same length for cosine similarity calculation"
  else
    let '(dotProduct, normA, normB) :=
      fold_left step (combine vectorA vectorB) (zero N, zero N, zero N) in
    let normA := sqrt N normA in
    let normB := sqrt N normB in
    if isZero N normA || isZero N normB then Ok (zero N)
    else Ok (div N dotProduct (mul N normA normB)).
End Generic.

End Similarity.

(* ===================================================================== *)
(** * shared/schema.ts: the records exchanged between the services *)
(* ===================================================================== *)

(** Identifiers of the form [prefix_${Date.now()}_${random}] and the
    [timestamp] fields of messages and responses are left out: they are
    fresh on every call and nothing below reads them. *)

Inductive Role := system | user | assistant.

Record TokenUsage := {
  promptTokens : nat;
  completionTokens : nat;
  totalTokens : nat
}.

Record ChatMessage := {
  msg_role : Role;
  msg_content : string;
  msg_sessionId : string;
  msg_tokenUsage : option TokenUsage
}.

Record ChatCompletionRequest := {
  ccr_message : string;
  ccr_sessionId : string
}.

Record EmbeddingMetadata := {
  md_filename : string;
  md_source : string;
  md_chunkIndex : nat;
  md_tokenCount : nat
}.

Record DocumentEmbedding := {
  de_text : string;
  de_embedding : list float;
  de_metadata : EmbeddingMetadata
}.

Record EmbeddingRequest := {
  er_text : string;
  er_filename : option string;
  er_source : option string;
  er_chunkIndex : option nat
}.

Record KnowledgeBaseQuery := {
  kq_question : string;
  kq_sessionId : string;
  kq_maxResults : option nat;
  kq_minSimilarity : option float
}.

Record Source := {
  src_filename : string;
  src_similarity : float;
  src_snippet : string
}.

Record KnowledgeBaseResponse := {
  kb_answer : string;
  kb_sources : list Source;
  kb_confidence : float;
  kb_hasContext : bool;
  kb_tokenUsage : option TokenUsage
}.

Record ImageGenerationResponse := {
  img_url : string;
  img_prompt : string;
  img_revisedPrompt : string
}.

Record TextToSpeechResponse := {
  tts_text : string;
  tts_voice : string;
  tts_filename : string
}.

Record Categories := {
  hate : bool;
  hateThreatening : bool;
  harassment : bool;
  harassmentThreatening : bool;
  selfHarm : bool;
  selfHarmIntent : bool;
  selfHarmInstructions : bool;
  sexual : bool;
  sexualMinors : bool;
  violence : bool;
  violenceGraphic : bool
}.

(** Category scores are the JSON numbers of the moderation endpoint, kept
    as exact rationals; the literals [0.3] and [0.7] of
    [calculateRiskLevel] are the rationals [3/10] and [7/10]. *)
Record CategoryScores := {
  s_hate : Q;
  s_hateThreatening : Q;
  s_harassment : Q;
  s_harassmentThreatening : Q;
  s_selfHarm : Q;
  s_selfHarmIntent : Q;
  s_selfHarmInstructions : Q;
  s_sexual : Q;
  s_sexualMinors : Q;
  s_violence : Q;
  s_violenceGraphic : Q
}.

Inductive Action := allow | warn | block.
Inductive RiskLevel := low | medium | high.

Record ModerationRequest := {
  mr_content : string;
  mr_sessionId : string
}.

Record ModerationResponse := {
  mod_content : string;
  mod_flagged : bool;
  mod_categories : Categories;
  mod_categoryScores : CategoryScores;
  mod_sessionId : string;
  mod_action : Action;
  mod_riskLevel : RiskLevel
}.

Record ChatFeatures := {
  f_chat : bool;
  f_knowledgeBase : bool;
  f_imageGeneration : bool;
  f_audioInput : bool;
  f_textToSpeech : bool;
  f_moderation : bool
}.

Record IntegratedChatRequest := {
  req_message : string;
  req_sessionId : string;
  req_enableTTS : option bool;
  req_ttsVoice : option string
}.

Record IntegratedChatResponse := {
  res_sessionId : string;
  res_features : ChatFeatures;
  res_requestType : option string;
  res_chat : option ChatMessage;
  res_knowledgeBase : option KnowledgeBaseResponse;
  res_image : option ImageGenerationResponse;
  res_audio : option TextToSpeechResponse;
  res_moderation : option ModerationResponse;
  res_error : option string
}.

Record SessionStatistics := {
  st_sessionId : string;
  messagesCount : nat;
  imagesGenerated : nat;
  audioTranscriptions : nat;
  knowledgeBaseQueries : nat;
  moderationChecks : nat;
  moderationBlocked : nat;
  tokensUsed : nat;
  sessionDuration : Z;
  startTime : Z;
  lastActivity : Z
}.

Record DocumentInfo := {
  di_filename : string;
  di_uploadDate : Z;
  di_chunkCount : nat
}.

(* ===================================================================== *)
(** * The hosted capabilities and the state of the services *)
(* ===================================================================== *)

(** What the OpenAI client returns, reduced to the fields the services
    read. [results], [data] and [choices] are arrays that may be empty.
    [Moderation] is one element of [results]: its [categories] and
    [category_scores] are objects keyed by the endpoint's category names
    (["hate/threatening"], ...), whatever categories the endpoint reports. *)
Record Moderation := {
  r_flagged : bool;
  r_categories : gmap string bool;
  r_category_scores : gmap string Q
}.

Record ChatCompletion := {
  choices : list (option string);      (* [choices[i].message.content] *)
  usage : option TokenUsage
}.

Record EmbeddingResponse := {
  data : list (list float);            (* [data[i].embedding] *)
  usage_total_tokens : option nat
}.

(** The endpoints, each a function of what it is asked: how an endpoint
    answers is arbitrary, but a run in which one input is answered in two
    ways is not represented. *)
Record Capabilities := {
  moderations_create : string -> Outcome (list Moderation);
  chat_completions_create : list (Role * string) -> Outcome ChatCompletion;
  embeddings_create : string -> Outcome EmbeddingResponse;
  (** [IntegrationService.handleImageGeneration]: the regular-expression
      clean-up of the prompt followed by [imageService.generateImage]. *)
  handleImageGeneration : IntegratedChatRequest -> Outcome ImageGenerationResponse;
  (** [audioService.textToSpeech] on a text, a voice and a session. *)
  textToSpeech : string -> string -> string -> Outcome TextToSpeechResponse;
  (** The end of [KnowledgeBaseService.query], once relevant chunks have
      been found: the context built from them, the grounded completion,
      the sources and the confidence. *)
  answerFromContext :
    list (DocumentEmbedding * float) -> KnowledgeBaseQuery ->
    Outcome KnowledgeBaseResponse
}.

(** A JavaScript [Map] whose iteration order is observed: entries in
    insertion order, one per key. *)
Module JSMap.
Definition t (V : Type) : Type := list (string * V).

Fixpoint get {V} (k : string) (m : t V) : option V :=
  match m with
  | [] => None
  | (k', v) :: rest => if String.eqb k' k then Some v else get k rest
  end.

Fixpoint set {V} (k : string) (v : V) (m : t V) : t V :=
  match m with
  | [] => [(k, v)]
  | (k', v') :: rest =>
      if String.eqb k' k then (k, v) :: rest else (k', v') :: set k v rest
  end.

Fixpoint delete {V} (k : string) (m : t V) : t V :=
  match m with
  | [] => []
  | (k', v) :: rest =>
      if String.eqb k' k then rest else (k', v) :: delete k rest
  end.

Definition has {V} (k : string) (m : t V) : bool :=
  match get k m with Some _ => true | None => false end.

Definition values {V} (m : t V) : list V := map snd m.
Definition size {V} (m : t V) : nat := length m.
End JSMap.

(** The private maps of the service singletons. *)
Record World := {
  documents : JSMap.t (list DocumentEmbedding);
  documentMetadata : JSMap.t DocumentInfo;
  moderationHistory : gmap string (list ModerationResponse);
  chatHistory : gmap string (list ChatMessage);
  sessionFeatures : gmap string ChatFeatures;
  sessionStatistics : gmap string SessionStatistics
}.

Definition emptyWorld : World := {|
  documents := [];
  documentMetadata := [];
  moderationHistory := ∅;
  chatHistory := ∅;
  sessionFeatures := ∅;
  sessionStatistics := ∅
|}.

Definition withDocuments (f : JSMap.t (list DocumentEmbedding) -> JSMap.t (list DocumentEmbedding))
    (w : World) : World :=
  {| documents := f (documents w);
     documentMetadata := documentMetadata w;
     moderationHistory := moderationHistory w;
     chatHistory := chatHistory w;
     sessionFeatures := sessionFeatures w;
     sessionStatistics := sessionStatistics w |}.

Definition withDocumentMetadata (f : JSMap.t DocumentInfo -> JSMap.t DocumentInfo)
    (w : World) : World :=
  {| documents := documents w;
     documentMetadata := f (documentMetadata w);
     moderationHistory := moderationHistory w;
     chatHistory := chatHistory w;
     sessionFeatures := sessionFeatures w;
     sessionStatistics := sessionStatistics w |}.

Definition withModerationHistory
    (f : gmap string (list ModerationResponse) -> gmap string (list ModerationResponse))
    (w : World) : World :=
  {| documents := documents w;
     documentMetadata := documentMetadata w;
     moderationHistory := f (moderationHistory w);
     chatHistory := chatHistory w;
     sessionFeatures := sessionFeatures w;
     sessionStatistics := sessionStatistics w |}.

Definition withChatHistory
    (f : gmap string (list ChatMessage) -> gmap string (list ChatMessage))
    (w : World) : World :=
  {| documents := documents w;
     documentMetadata := documentMetadata w;
     moderationHistory := moderationHistory w;
     chatHistory := f (chatHistory w);
     sessionFeatures := sessionFeatures w;
     sessionStatistics := sessionStatistics w |}.

Definition withSessionFeatures
    (f : gmap string ChatFeatures -> gmap string ChatFeatures) (w : World) : World :=
  {| documents := documents w;
     documentMetadata := documentMetadata w;
     moderationHistory := moderationHistory w;
     chatHistory := chatHistory w;
     sessionFeatures := f (sessionFeatures w);
     sessionStatistics := sessionStatistics w |}.

Definition withSessionStatistics
    (f : gmap string SessionStatistics -> gmap string SessionStatistics)
    (w : World) : World :=
  {| documents := documents w;
     documentMetadata := documentMetadata w;
     moderationHistory := moderationHistory w;
     chatHistory := chatHistory w;
     sessionFeatures := sessionFeatures w;
     sessionStatistics := f (sessionStatistics w) |}.

(** Service methods: a state transformer that returns or throws. A
    [throw] keeps the writes made before it; [tryCatch] is [try/catch]. *)
Definition Eff (A : Type) : Type := World -> Outcome A * World.

Definition ret {A} (a : A) : Eff A := fun w => (Ok a, w).
Definition throw {A} (message : string) : Eff A := fun w => (Throw message, w).
Definition bind {A B} (c : Eff A) (k : A -> Eff B) : Eff B :=
  fun w => match c w with
           | (Ok a, w') => k a w'
           | (Throw m, w') => (Throw m, w')
           end.
Definition tryCatch {A} (c : Eff A) (handler : string -> Eff A) : Eff A :=
  fun w => match c w with
           | (Ok a, w') => (Ok a, w')
           | (Throw m, w') => handler m w'
           end.
Definition gets {A} (f : World -> A) : Eff A := fun w => (Ok (f w), w).
Definition modify (f : World -> World) : Eff unit := fun w => (Ok tt, f w).
Definition await {A} (o : Outcome A) : Eff A := fun w => (o, w).

Declare Scope eff_scope.
Delimit Scope eff_scope with eff.
Notation "'let*' x ':=' c 'in' k" := (bind c (fun x => k))
  (at level 10, x pattern, c at level 200, k at level 200) : eff_scope.

(* ===================================================================== *)
(** * week2/embeddingService.ts: the embedding gateway *)
(* ===================================================================== *)

Module EmbeddingGateway.

Local Open Scope string_scope.

Definition TypeError_embedding : string :=
  "Cannot read properties of undefined (reading 'embedding')".

Definition generateEmbedding (api : Capabilities) (request : EmbeddingRequest)
  : Outcome DocumentEmbedding :=
  match embeddings_create api (er_text request) with
  | Throw m => Throw ("Embedding generation failed: " ++ m)
  | Ok response =>
      match data response with
      | [] => Throw ("Embedding generation failed: " ++ TypeError_embedding)
      | embedding :: _ =>
          Ok {| de_text := er_text request;
                de_embedding := embedding;
                de_metadata :=
                  {| md_filename := JS.orElse (er_filename request) "unknown";
                     md_source := JS.orElse (er_source request) "text_input";
                     md_chunkIndex := default 0 (er_chunkIndex request);
                     md_tokenCount := default 0 (usage_total_tokens response) |} |}
      end
  end.

(** [Promise.all] over the promises of one batch, in index order: all
    the values, or the first rejection. The same function sequences the
    calls of an [Array.prototype.map] whose callback may throw. *)
Fixpoint promiseAll {A} (ps : list (Outcome A)) : Outcome (list A) :=
  match ps with
  | [] => Ok []
  | Throw m :: _ => Throw m
  | Ok a :: rest =>
      match promiseAll rest with
      | Ok l => Ok (a :: l)
      | Throw m => Throw m
      end
  end.

Definition batchSize : nat := 10.

(** The [for (let i = 0; i < texts.length; i += batchSize)] loop;
    [fuel] bounds the number of iterations. *)
Fixpoint batchLoop (api : Capabilities) (filename source : option string)
    (texts : list string) (fuel i : nat) (embeddings : list DocumentEmbedding)
  : Outcome (list DocumentEmbedding) :=
  if Nat.ltb i (length texts) then
    match fuel with
    | O => Throw "batchLoop: out of fuel"
    | S fuel' =>
        let batch := firstn batchSize (skipn i texts) in
        let batchPromises :=
          imap (fun index text =>
                  generateEmbedding api
                    {| er_text := text;
                       er_filename := filename;
                       er_source := source;
                       er_chunkIndex := Some (i + index) |}) batch in
        match promiseAll batchPromises with
        | Throw m => Throw m
        | Ok batchResults =>
            batchLoop api filename source texts fuel' (i + batchSize)
              (embeddings ++ batchResults)
        end
    end
  else Ok embeddings.

Definition generateMultipleEmbeddings (api : Capabilities)
    (texts : list string) (filename source : option string)
  : Outcome (list DocumentEmbedding) :=
  match batchLoop api filename source texts (length texts) 0 [] with
  | Ok embeddings => Ok embeddings
  | Throw m => Throw ("Batch embedding generation failed: " ++ m)
  end.

Definition generateQueryEmbedding (api : Capabilities) (query : string)
  : Outcome (list float) :=
  match embeddings_create api query with
  | Throw m => Throw ("Query embedding generation failed: " ++ m)
  | Ok response =>
      match data response with
      | [] => Throw ("Query embedding generation failed: " ++ TypeError_embedding)
      | embedding :: _ => Ok embedding
      end
  end.

(** [documents.sort((a, b) => b.similarity - a.similarity)]: the stable
    sort by decreasing similarity, as an insertion sort. [insertBySimilarity]
    puts [x] before the first [y] for which the comparison function is
    negative at [(x, y)]. (With a [NaN] among the similarities the
    comparison is not an order and the engine's result is its own.) *)
Fixpoint insertBySimilarity (x : DocumentEmbedding * float)
    (sorted : list (DocumentEmbedding * float))
  : list (DocumentEmbedding * float) :=
  match sorted with
  | [] => [x]
  | y :: rest =>
      if PrimFloat.ltb (PrimFloat.sub (snd y) (snd x)) 0%float
      then x :: y :: rest
      else y :: insertBySimilarity x rest
  end.

Definition sortBySimilarity (l : list (DocumentEmbedding * float))
  : list (DocumentEmbedding * float) :=
  fold_left (fun sorted x => insertBySimilarity x sorted) l [].

Definition findSimilarDocuments (queryEmbedding : list float)
    (documentEmbeddings : list DocumentEmbedding) (topK : nat)
  : Outcome (list (DocumentEmbedding * float)) :=
  match promiseAll
          (map (fun doc =>
                  match Similarity.calculateCosineSimilarity doubleNumber
                          queryEmbedding (de_embedding doc) with
                  | Ok similarity => Ok (doc, similarity)
                  | Throw m => Throw m
                  end) documentEmbeddings) with
  | Ok documentsWithScores => Ok (firstn topK (sortBySimilarity documentsWithScores))
  | Throw m => Throw m
  end.

End EmbeddingGateway.

(* ===================================================================== *)
(** * week2/knowledgeBaseService.ts *)
(* ===================================================================== *)

Module KnowledgeBaseService.

Local Open Scope string_scope.
Local Open Scope eff_scope.

Record AddResult := {
  documentId : string;
  chunkCount : nat;
  tokenCount : nat
}.

Definition noDocumentsAnswer : string :=
  "I don't have any documents in my knowledge base yet. Please upload some documents first, and then I'll be able to answer questions based on their content.".

Definition noRelevantAnswer : string :=
  "I couldn't find any relevant information in my knowledge base for your question. The documents I have don't seem to contain information related to your query.".

(** [query.maxResults || 3] and [query.minSimilarity || 0.7]: a missing
    value, [0] and [NaN] are falsy. *)
Definition maxResultsOr (x : option nat) (fallback : nat) : nat :=
  match x with
  | Some (S n) => S n
  | _ => fallback
  end.

Definition minSimilarityOr (x : option float) (fallback : float) : float :=
  match x with
  | Some v => if PrimFloat.eqb v 0%float || negb (PrimFloat.eqb v v) then fallback else v
  | None => fallback
  end.

(** [addDocument]; [newId] is the identifier [generateDocumentId]
    returns for this call and [now] the upload date. *)
Definition addDocument (api : Capabilities) (newId : string) (now : Z)
    (filename content : string) : Eff AddResult :=
  tryCatch
    (let documentId := newId in
     let chunks :=
       map string_of_list_ascii
         (EmbeddingService.splitTextIntoChunks (chars content) 800 80) in
     let* embeddings :=
       await (EmbeddingGateway.generateMultipleEmbeddings api chunks
                (Some filename) (Some "document_upload")) in
     let* _ := modify (withDocuments (JSMap.set documentId embeddings)) in
     let* _ := modify (withDocumentMetadata
                 (JSMap.set documentId
                    {| di_filename := filename;
                       di_uploadDate := now;
                       di_chunkCount := length chunks |})) in
     let totalTokens :=
       fold_left (fun sum emb => sum + md_tokenCount (de_metadata emb))
         embeddings 0 in
     ret {| documentId := documentId;
            chunkCount := length chunks;
            tokenCount := totalTokens |})
    (fun m => throw ("Document processing failed: " ++ m)).

Definition query (api : Capabilities) (query : KnowledgeBaseQuery)
  : Eff KnowledgeBaseResponse :=
  tryCatch
    (let* queryEmbedding :=
       await (EmbeddingGateway.generateQueryEmbedding api (kq_question query)) in
     let* allEmbeddings :=
       gets (fun w => concat (JSMap.values (documents w))) in
     if Nat.eqb (length allEmbeddings) 0 then
       ret {| kb_answer := noDocumentsAnswer;
              kb_sources := [];
              kb_confidence := 0%float;
              kb_hasContext := false;
              kb_tokenUsage := None |}
     else
       let* similarDocuments :=
         await (EmbeddingGateway.findSimilarDocuments queryEmbedding allEmbeddings
                  (maxResultsOr (kq_maxResults query) 3)) in
       let minSimilarity :=
         minSimilarityOr (kq_minSimilarity query) 0x1.6666666666666p-1%float in
       let relevantDocuments :=
         List.filter (fun doc => PrimFloat.leb minSimilarity (snd doc))
           similarDocuments in
       if Nat.eqb (length relevantDocuments) 0 then
         ret {| kb_answer := noRelevantAnswer;
                kb_sources := [];
                kb_confidence := 0%float;
                kb_hasContext := false;
                kb_tokenUsage := None |}
       else
         await (answerFromContext api relevantDocuments query))
    (fun m => throw ("Knowledge base query failed: " ++ m)).

Definition removeDocument (documentId : string) : Eff bool :=
  let* documentExists := gets (fun w => JSMap.has documentId (documents w)) in
  if documentExists : bool then
    let* _ := modify (withDocuments (JSMap.delete documentId)) in
    let* _ := modify (withDocumentMetadata (JSMap.delete documentId)) in
    ret true
  else ret false.

End KnowledgeBaseService.

(* ===================================================================== *)
(** * week3/moderationService.ts *)
(* ===================================================================== *)

Module ModerationService.

Local Open Scope string_scope.
Local Open Scope eff_scope.

Definition highSeverityCategories : list string :=
  [ "hate/threatening";
    "harassment/threatening";
    "self-harm/intent";
    "self-harm/instructions";
    "sexual/minors";
    "violence/graphic" ].

Definition determineAction (flagged : bool) (categories : gmap string bool)
  : Action :=
  if negb flagged then allow
  else
    let hasHighSeverity :=
      existsb (fun '(category, flagged) =>
                 flagged && bool_decide (category ∈ highSeverityCategories))
        (map_to_list categories) in
    if hasHighSeverity then block else warn.

(** [Math.max(...values)]: [None] is [-Infinity], the maximum of no
    argument. *)
Definition mathMax (values : list Q) : option Q :=
  fold_left (fun acc x =>
               match acc with
               | None => Some x
               | Some m => Some (if Qle_bool m x then x else m)
               end) values None.

(** [maxScore < threshold]. *)
Definition below (maxScore : option Q) (threshold : Q) : bool :=
  match maxScore with
  | None => true
  | Some m => negb (Qle_bool threshold m)
  end.

Definition calculateRiskLevel (categoryScores : gmap string Q) : RiskLevel :=
  let maxScore := mathMax (map snd (map_to_list categoryScores)) in
  if below maxScore (3 # 10) then low
  else if below maxScore (7 # 10) then medium
  else high.

(** [obj[key] || false] and [obj[key] || 0]. *)
Definition flag (categories : gmap string bool) (key : string) : bool :=
  default false (categories !! key).
Definition score (scores : gmap string Q) (key : string) : Q :=
  default 0%Q (scores !! key).

Definition moderateContent (api : Capabilities) (request : ModerationRequest)
  : Eff ModerationResponse :=
  tryCatch
    (let* results := await (moderations_create api (mr_content request)) in
     match results with
     | [] => throw "No moderation results returned"
     | result :: _ =>
         let moderationResponse :=
           {| mod_content := mr_content request;
              mod_flagged := r_flagged result;
              mod_categories :=
                {| hate := flag (r_categories result) "hate";
                   hateThreatening := flag (r_categories result) "hate/threatening";
                   harassment := flag (r_categories result) "harassment";
                   harassmentThreatening := flag (r_categories result) "harassment/threatening";
                   selfHarm := flag (r_categories result) "self-harm";
                   selfHarmIntent := flag (r_categories result) "self-harm/intent";
                   selfHarmInstructions := flag (r_categories result) "self-harm/instructions";
                   sexual := flag (r_categories result) "sexual";
                   sexualMinors := flag (r_categories result) "sexual/minors";
                   violence := flag (r_categories result) "violence";
                   violenceGraphic := flag (r_categories result) "violence/graphic" |};
              mod_categoryScores :=
                {| s_hate := score (r_category_scores result) "hate";
                   s_hateThreatening := score (r_category_scores result) "hate/threatening";
                   s_harassment := score (r_category_scores result) "harassment";
                   s_harassmentThreatening := score (r_category_scores result) "harassment/threatening";
                   s_selfHarm := score (r_category_scores result) "self-harm";
                   s_selfHarmIntent := score (r_category_scores result) "self-harm/intent";
                   s_selfHarmInstructions := score (r_category_scores result) "self-harm/instructions";
                   s_sexual := score (r_category_scores result) "sexual";
                   s_sexualMinors := score (r_category_scores result) "sexual/minors";
                   s_violence := score (r_category_scores result) "violence";
                   s_violenceGraphic := score (r_category_scores result) "violence/graphic" |};
              mod_sessionId := mr_sessionId request;
              mod_action := determineAction (r_flagged result) (r_categories result);
              mod_riskLevel := calculateRiskLevel (r_category_scores result) |} in
         (* history = get(sessionId) || []; history.push(..); set(sessionId, history) *)
         let* _ := modify (withModerationHistory (fun h =>
                     <[mr_sessionId request :=
                         (default [] (h !! mr_sessionId request) ++ [moderationResponse])%list]> h)) in
         ret moderationResponse
     end)
    (fun m => throw ("Content moderation failed: " ++ m)).

Definition generateSafeResponse (moderationResult : ModerationResponse) : string :=
  let c := mod_categories moderationResult in
  let flaggedCategories :=
    List.filter (fun b : bool => b)
      [ hate c; hateThreatening c; harassment c; harassmentThreatening c;
        selfHarm c; selfHarmIntent c; selfHarmInstructions c; sexual c;
        sexualMinors c; violence c; violenceGraphic c ] in
  if Nat.eqb (length flaggedCategories) 0 then
    "I apologize, but I couldn't process your request. Please try rephrasing your message."
  else if hate c || hateThreatening c then
    "I can't respond to content that contains hate speech or discriminatory language. Please keep our conversation respectful and inclusive."
  else if harassment c || harassmentThreatening c then
    "I'm designed to have helpful and respectful conversations. Please avoid content that could be considered harassing or threatening."
  else if violence c || violenceGraphic c then
    "I cannot engage with content that involves violence or graphic descriptions. Let's focus on constructive and positive topics instead."
  else if sexual c || sexualMinors c then
    "I'm not able to discuss sexual content. Please keep our conversation appropriate and professional."
  else if selfHarm c || selfHarmIntent c || selfHarmInstructions c then
    "I'm concerned about the content of your message. If you're struggling with difficult thoughts, please consider reaching out to a mental health professional or crisis helpline. I'm here to help with other topics in a positive way."
  else
    "I'm not able to respond to that type of content. Please rephrase your message and I'll be happy to help with your question or request.".

Definition clearModerationHistory (sessionId : string) : Eff unit :=
  modify (withModerationHistory (delete sessionId)).

Definition isContentSafe (api : Capabilities) (content sessionId : string)
  : Eff bool :=
  tryCatch
    (let* moderationResult :=
       moderateContent api {| mr_content := content; mr_sessionId := sessionId |} in
     ret (negb (mod_flagged moderationResult)))
    (fun _ => ret false).

Definition getModerationHistory (sessionId : string) (w : World)
  : list ModerationResponse :=
  default [] (moderationHistory w !! sessionId).

End ModerationService.

(* ===================================================================== *)
(** * week1/chatService.ts *)
(* ===================================================================== *)

Module ChatService.

Local Open Scope string_scope.
Local Open Scope eff_scope.

Definition SYSTEM_PROMPTS_GENERAL : string :=
  "You are a helpful AI assistant that can answer questions, generate images, process audio, and search through uploaded documents. Always be concise but thorough in your responses.".

Definition TypeError_message : string :=
  "Cannot read properties of undefined (reading 'message')".

Definition getChatHistory (sessionId : string) (w : World) : list ChatMessage :=
  default [] (chatHistory w !! sessionId).

Definition formatMessagesForAPI (history : list ChatMessage) : list (Role * string) :=
  (system, SYSTEM_PROMPTS_GENERAL)
    :: map (fun msg => (msg_role msg, msg_content msg)) history.

(** [sendMessage]. [history] is the array stored for the session when
    there is one, so [history.push(userMessage)] already changes the
    stored history, before the completion is requested; a history
    created by [|| []] reaches the map only through the final [set]. *)
Definition sendMessage (api : Capabilities) (request : ChatCompletionRequest)
  : Eff ChatMessage :=
  tryCatch
    (let* history := gets (getChatHistory (ccr_sessionId request)) in
     let userMessage :=
       {| msg_role := user;
          msg_content := ccr_message request;
          msg_sessionId := ccr_sessionId request;
          msg_tokenUsage := None |} in
     let* _ := modify (withChatHistory
                 (alter (fun h => (h ++ [userMessage])%list) (ccr_sessionId request))) in
     let history := (history ++ [userMessage])%list in
     let messages := formatMessagesForAPI history in
     let* completion := await (chat_completions_create api messages) in
     match choices completion with
     | [] => throw TypeError_message
     | content :: _ =>
         let assistantMessage :=
           {| msg_role := assistant;
              msg_content :=
                JS.orElse content
                  "I apologize, but I couldn't generate a response. Please try again.";
              msg_sessionId := ccr_sessionId request;
              msg_tokenUsage :=
                Some (default {| promptTokens := 0; completionTokens := 0; totalTokens := 0 |}
                        (usage completion)) |} in
         let history := (history ++ [assistantMessage])%list in
         let* _ := modify (withChatHistory (<[ccr_sessionId request := history]>)) in
         ret assistantMessage
     end)
    (fun m => throw ("Chat completion failed: " ++ m)).

Definition clearChatHistory (sessionId : string) : Eff unit :=
  modify (withChatHistory (delete sessionId)).

Definition welcomeContent : string :=
  "Welcome to your AI Personal Assistant POC! I can help you with general conversations, knowledge base queries, image generation, audio processing, and content moderation. How can I assist you today?".

Definition initializeChat (sessionId : string) : Eff ChatMessage :=
  let welcomeMessage :=
    {| msg_role := assistant;
       msg_content := welcomeContent;
       msg_sessionId := sessionId;
       msg_tokenUsage := None |} in
  let* _ := modify (withChatHistory (<[sessionId := [welcomeMessage]]>)) in
  ret welcomeMessage.

End ChatService.

(* ===================================================================== *)
(** * week4/integrationService.ts *)
(* ===================================================================== *)

Module IntegrationService.

Local Open Scope string_scope.
Local Open Scope eff_scope.

Definition configureSessionFeatures (sessionId : string) (features : ChatFeatures)
  : Eff unit :=
  modify (withSessionFeatures (<[sessionId := features]>)).

Definition defaultFeatures : ChatFeatures :=
  {| f_chat := true;
     f_knowledgeBase := true;
     f_imageGeneration := false;
     f_audioInput := false;
     f_textToSpeech := false;
     f_moderation := true |}.

Definition getSessionFeatures (sessionId : string) : Eff ChatFeatures :=
  gets (fun w => default defaultFeatures (sessionFeatures w !! sessionId)).

Definition freshStatistics (sessionId : string) (now : Z) : SessionStatistics :=
  {| st_sessionId := sessionId;
     messagesCount := 0;
     imagesGenerated := 0;
     audioTranscriptions := 0;
     knowledgeBaseQueries := 0;
     moderationChecks := 0;
     moderationBlocked := 0;
     tokensUsed := 0;
     sessionDuration := 0;
     startTime := now;
     lastActivity := now |}.

Definition setSessionDuration (d : Z) (s : SessionStatistics) : SessionStatistics :=
  {| st_sessionId := st_sessionId s;
     messagesCount := messagesCount s;
     imagesGenerated := imagesGenerated s;
     audioTranscriptions := audioTranscriptions s;
     knowledgeBaseQueries := knowledgeBaseQueries s;
     moderationChecks := moderationChecks s;
     moderationBlocked := moderationBlocked s;
     tokensUsed := tokensUsed s;
     sessionDuration := d;
     startTime := startTime s;
     lastActivity := lastActivity s |}.

(** [getSessionStatistics]. [stats] is the object stored for the
    session when there is one: the assignment to [stats.sessionDuration]
    then writes into the stored object. The defaults object of an
    unknown session is never put into the map. *)
Definition getSessionStatistics (sessionId : string) (now : Z)
  : Eff SessionStatistics :=
  let* stored := gets (fun w => sessionStatistics w !! sessionId) in
  match stored with
  | Some stats =>
      let stats := setSessionDuration (now - startTime stats) stats in
      let* _ := modify (withSessionStatistics (<[sessionId := stats]>)) in
      ret stats
  | None =>
      let stats := freshStatistics sessionId now in
      ret (setSessionDuration (now - startTime stats) stats)
  end.

Record FeatureCounts := {
  n_chat : nat;
  n_knowledgeBase : nat;
  n_imageGeneration : nat;
  n_audioInput : nat;
  n_textToSpeech : nat;
  n_moderation : nat
}.

Record SystemStatistics := {
  totalSessions : nat;
  activeFeatures : FeatureCounts;
  totalRequests : nat;
  averageRequestsPerSession : nat
}.

Definition countFeatures (counts : FeatureCounts) (features : ChatFeatures)
  : FeatureCounts :=
  let bump (enabled : bool) (n : nat) := if enabled then S n else n in
  {| n_chat := bump (f_chat features) (n_chat counts);
     n_knowledgeBase := bump (f_knowledgeBase features) (n_knowledgeBase counts);
     n_imageGeneration := bump (f_imageGeneration features) (n_imageGeneration counts);
     n_audioInput := bump (f_audioInput features) (n_audioInput counts);
     n_textToSpeech := bump (f_textToSpeech features) (n_textToSpeech counts);
     n_moderation := bump (f_moderation features) (n_moderation counts) |}.

(** [Math.round(a / b)] for naturals with [b > 0]. *)
Definition roundDiv (a b : nat) : nat := (2 * a + b) / (2 * b).

Definition getSystemStatistics (w : World) : SystemStatistics :=
  let allStats := map snd (map_to_list (sessionStatistics w)) in
  let totalSessions := length allStats in
  let totalRequests :=
    fold_left (fun sum stat => sum + messagesCount stat) allStats 0 in
  let activeFeatures :=
    fold_left countFeatures (map snd (map_to_list (sessionFeatures w)))
      {| n_chat := 0; n_knowledgeBase := 0; n_imageGeneration := 0;
         n_audioInput := 0; n_textToSpeech := 0; n_moderation := 0 |} in
  {| totalSessions := totalSessions;
     activeFeatures := activeFeatures;
     totalRequests := totalRequests;
     averageRequestsPerSession :=
       if Nat.ltb 0 totalSessions then roundDiv totalRequests totalSessions else 0 |}.

(** [clearSession]; the image and audio histories are not part of
    [World]. *)
Definition clearSession (sessionId : string) : Eff unit :=
  let* _ := ChatService.clearChatHistory sessionId in
  let* _ := ModerationService.clearModerationHistory sessionId in
  let* _ := modify (withSessionFeatures (delete sessionId)) in
  modify (withSessionStatistics (delete sessionId)).

Definition imageKeywords : list string :=
  ["generate image"; "create image"; "draw"; "picture of"; "image of";
   "generate a"; "create a"].

Definition kbKeywords : list string :=
  ["what is"; "explain"; "how does"; "tell me about"; "definition of"; "describe"].

Definition analyzeRequestType (message : string) : string :=
  let lowerMessage := JS.toLowerCase (chars message) in
  if existsb (fun keyword => JS.includes (chars keyword) lowerMessage) imageKeywords
  then "image_generation"
  else if existsb (fun keyword => JS.includes (chars keyword) lowerMessage) kbKeywords
  then "knowledge_base_query"
  else "general_chat".

Definition applyAction (action : string) (s : SessionStatistics) : SessionStatistics :=
  let upd (messages images audio kb blocked : nat) :=
    {| st_sessionId := st_sessionId s;
       messagesCount := messagesCount s + messages;
       imagesGenerated := imagesGenerated s + images;
       audioTranscriptions := audioTranscriptions s + audio;
       knowledgeBaseQueries := knowledgeBaseQueries s + kb;
       moderationChecks := moderationChecks s;
       moderationBlocked := moderationBlocked s + blocked;
       tokensUsed := tokensUsed s;
       sessionDuration := sessionDuration s;
       startTime := startTime s;
       lastActivity := lastActivity s |} in
  if String.eqb action "general_chat" then upd 1 0 0 0 0
  else if String.eqb action "image_generation" then upd 1 1 0 0 0
  else if String.eqb action "knowledge_base_query" then upd 1 0 0 1 0
  else if String.eqb action "audio_transcription" then upd 0 0 1 0 0
  else if String.eqb action "moderation_blocked" then upd 0 0 0 0 1
  else upd 0 0 0 0 0.

Definition setLastActivity (t : Z) (s : SessionStatistics) : SessionStatistics :=
  {| st_sessionId := st_sessionId s;
     messagesCount := messagesCount s;
     imagesGenerated := imagesGenerated s;
     audioTranscriptions := audioTranscriptions s;
     knowledgeBaseQueries := knowledgeBaseQueries s;
     moderationChecks := moderationChecks s;
     moderationBlocked := moderationBlocked s;
     tokensUsed := tokensUsed s;
     sessionDuration := sessionDuration s;
     startTime := startTime s;
     lastActivity := t |}.

Definition updateStatistics (sessionId action : string) (now : Z) : Eff unit :=
  let* stored := gets (fun w => sessionStatistics w !! sessionId) in
  let stats := default (freshStatistics sessionId now) stored in
  let stats := applyAction action stats in
  let stats := setLastActivity now stats in
  modify (withSessionStatistics (<[sessionId := stats]>)).

(** The response object under construction. *)
Definition newResponse (sessionId : string) (features : ChatFeatures)
  : IntegratedChatResponse :=
  {| res_sessionId := sessionId;
     res_features := features;
     res_requestType := None;
     res_chat := None;
     res_knowledgeBase := None;
     res_image := None;
     res_audio := None;
     res_moderation := None;
     res_error := None |}.

Definition setModeration (m : ModerationResponse) (r : IntegratedChatResponse) :=
  {| res_sessionId := res_sessionId r; res_features := res_features r;
     res_requestType := res_requestType r; res_chat := res_chat r;
     res_knowledgeBase := res_knowledgeBase r; res_image := res_image r;
     res_audio := res_audio r; res_moderation := Some m;
     res_error := res_error r |}.

Definition setChat (c : ChatMessage) (r : IntegratedChatResponse) :=
  {| res_sessionId := res_sessionId r; res_features := res_features r;
     res_requestType := res_requestType r; res_chat := Some c;
     res_knowledgeBase := res_knowledgeBase r; res_image := res_image r;
     res_audio := res_audio r; res_moderation := res_moderation r;
     res_error := res_error r |}.

Definition setRequestType (t : string) (r : IntegratedChatResponse) :=
  {| res_sessionId := res_sessionId r; res_features := res_features r;
     res_requestType := Some t; res_chat := res_chat r;
     res_knowledgeBase := res_knowledgeBase r; res_image := res_image r;
     res_audio := res_audio r; res_moderation := res_moderation r;
     res_error := res_error r |}.

Definition setKnowledgeBase (k : KnowledgeBaseResponse) (r : IntegratedChatResponse) :=
  {| res_sessionId := res_sessionId r; res_features := res_features r;
     res_requestType := res_requestType r; res_chat := res_chat r;
     res_knowledgeBase := Some k; res_image := res_image r;
     res_audio := res_audio r; res_moderation := res_moderation r;
     res_error := res_error r |}.

Definition setImage (i : ImageGenerationResponse) (r : IntegratedChatResponse) :=
  {| res_sessionId := res_sessionId r; res_features := res_features r;
     res_requestType := res_requestType r; res_chat := res_chat r;
     res_knowledgeBase := res_knowledgeBase r; res_image := Some i;
     res_audio := res_audio r; res_moderation := res_moderation r;
     res_error := res_error r |}.

Definition setAudio (a : TextToSpeechResponse) (r : IntegratedChatResponse) :=
  {| res_sessionId := res_sessionId r; res_features := res_features r;
     res_requestType := res_requestType r; res_chat := res_chat r;
     res_knowledgeBase := res_knowledgeBase r; res_image := res_image r;
     res_audio := Some a; res_moderation := res_moderation r;
     res_error := res_error r |}.

Definition assistantSays (sessionId content : string) : ChatMessage :=
  {| msg_role := assistant;
     msg_content := content;
     msg_sessionId := sessionId;
     msg_tokenUsage := None |}.

Definition imageDisabledMessage : string :=
  "Image generation is currently disabled. Please enable it in the features panel to generate images.".

Definition knowledgeBaseDisabledMessage : string :=
  "Knowledge base queries are currently disabled. Please enable the knowledge base feature or upload some documents first.".

Definition doubleQuote : string := String (ascii_of_nat 34) EmptyString.

Definition imageGeneratedMessage (message : string) : string :=
  "I've generated an image based on your prompt: " ++ doubleQuote ++ message
    ++ doubleQuote ++ ". The image should appear above this message.".

(** Step 3 of [processRequest]: the [switch (requestType)]. *)
Definition dispatch (api : Capabilities) (request : IntegratedChatRequest)
    (features : ChatFeatures) (requestType : string)
    (response : IntegratedChatResponse) : Eff IntegratedChatResponse :=
  if String.eqb requestType "image_generation" then
    if f_imageGeneration features then
      let* image := await (handleImageGeneration api request) in
      let response := setImage image response in
      ret (setChat (assistantSays (req_sessionId request)
                      (imageGeneratedMessage (req_message request))) response)
    else
      let* chat := ChatService.sendMessage api
                     {| ccr_message := imageDisabledMessage;
                        ccr_sessionId := req_sessionId request |} in
      ret (setChat chat response)
  else if String.eqb requestType "knowledge_base_query" then
    if f_knowledgeBase features then
      let* kbResponse := KnowledgeBaseService.query api
                           {| kq_question := req_message request;
                              kq_sessionId := req_sessionId request;
                              kq_maxResults := Some 3;
                              kq_minSimilarity := Some 0x1.6666666666666p-1%float |} in
      let response := setKnowledgeBase kbResponse response in
      ret (setChat (assistantSays (req_sessionId request) (kb_answer kbResponse))
             response)
    else
      let* chat := ChatService.sendMessage api
                     {| ccr_message := knowledgeBaseDisabledMessage;
                        ccr_sessionId := req_sessionId request |} in
      ret (setChat chat response)
  else
    let* chat := ChatService.sendMessage api
                   {| ccr_message := req_message request;
                      ccr_sessionId := req_sessionId request |} in
    ret (setChat chat response).

(** Step 4 of [processRequest]: optional speech synthesis, whose failure is
    logged and dropped. *)
Definition speech (api : Capabilities) (request : IntegratedChatRequest)
    (features : ChatFeatures) (response : IntegratedChatResponse)
  : Eff IntegratedChatResponse :=
  match res_chat response with
  | Some chat =>
      if f_textToSpeech features && default false (req_enableTTS request) then
        tryCatch
          (let* audio :=
             await (textToSpeech api (msg_content chat)
                      (JS.orElse (req_ttsVoice request) "alloy")
                      (req_sessionId request)) in
           ret (setAudio audio response))
          (fun _ => ret response)
      else ret response
  | None => ret response
  end.

Definition errorResponse (sessionId : string) (features : ChatFeatures)
    (message : string) : IntegratedChatResponse :=
  {| res_sessionId := sessionId;
     res_features := features;
     res_requestType := None;
     res_chat :=
       Some (assistantSays sessionId
               ("I apologize, but I encountered an error while processing your request: "
                  ++ message ++ ". Please try again."));
     res_knowledgeBase := None;
     res_image := None;
     res_audio := None;
     res_moderation := None;
     res_error := Some message |}.

(** Steps 2 to 5 of [processRequest]: classification, dispatch, speech
    and accounting. *)
Definition route (api : Capabilities) (request : IntegratedChatRequest)
    (features : ChatFeatures) (now : Z) (response : IntegratedChatResponse)
  : Eff IntegratedChatResponse :=
  let requestType := analyzeRequestType (req_message request) in
  let response := setRequestType requestType response in
  let* response := dispatch api request features requestType response in
  let* response := speech api request features response in
  let* _ := updateStatistics (req_sessionId request) requestType now in
  ret response.

(** [processRequest]. The first component of the screening result is the
    response returned from inside the moderation step. *)
Definition processRequest (api : Capabilities) (request : IntegratedChatRequest)
    (now : Z) : Eff IntegratedChatResponse :=
  tryCatch
    (let* features := getSessionFeatures (req_sessionId request) in
     let response := newResponse (req_sessionId request) features in
     let* screened :=
       (if f_moderation features then
          let* moderationResult :=
            ModerationService.moderateContent api
              {| mr_content := req_message request;
                 mr_sessionId := req_sessionId request |} in
          let response := setModeration moderationResult response in
          if mod_flagged moderationResult then
            let response :=
              setChat (assistantSays (req_sessionId request)
                         (ModerationService.generateSafeResponse moderationResult))
                response in
            let* _ := updateStatistics (req_sessionId request) "moderation_blocked" now in
            ret (inl response)
          else ret (inr response)
        else ret (inr response)) in
     match screened with
     | inl response => ret response
     | inr response => route api request features now response
     end)
    (fun m =>
       let* features := getSessionFeatures (req_sessionId request) in
       ret (errorResponse (req_sessionId request) features m)).

End IntegrationService.

(* ===================================================================== *)
(** * week2/knowledgeBaseService.ts: listing and statistics *)
(* ===================================================================== *)

Module KnowledgeBaseListing.

(** An element of the array [getDocumentList] returns:
    [{ id: documentId, ...metadata }]. *)
Record ListedDocument := {
  ld_id : string;
  ld_filename : string;
  ld_uploadDate : Z;
  ld_chunkCount : nat
}.

(** [documentList.sort((a, b) => b.uploadDate.getTime() - a.uploadDate.getTime())]:
    the stable sort by decreasing upload date, as an insertion sort that
    puts [x] before the first [y] at which the comparison function is
    negative. *)
Fixpoint insertByUploadDate (x : ListedDocument) (sorted : list ListedDocument)
  : list ListedDocument :=
  match sorted with
  | [] => [x]
  | y :: rest =>
      if Z.ltb (ld_uploadDate y - ld_uploadDate x) 0
      then x :: y :: rest
      else y :: insertByUploadDate x rest
  end.

Definition getDocumentList (w : World) : list ListedDocument :=
  let documentList :=
    map (fun '(documentId, metadata) =>
           {| ld_id := documentId;
              ld_filename := di_filename metadata;
              ld_uploadDate := di_uploadDate metadata;
              ld_chunkCount := di_chunkCount metadata |})
      (documentMetadata w) in
  fold_left (fun sorted x => insertByUploadDate x sorted) documentList [].

Record Statistics := {
  documentCount : nat;
  totalChunks : nat;
  averageChunksPerDocument : nat
}.

Definition getStatistics (w : World) : Statistics :=
  let documentCount := JSMap.size (documents w) in
  let totalChunks :=
    fold_left (fun sum embeddings => sum + length embeddings)
      (JSMap.values (documents w)) 0 in
  {| documentCount := documentCount;
     totalChunks := totalChunks;
     averageChunksPerDocument :=
       if Nat.ltb 0 documentCount
       then IntegrationService.roundDiv totalChunks documentCount
       else 0 |}.

End KnowledgeBaseListing.

(* ===================================================================== *)
(** * week3/imageService.ts: prompt validation *)
(* ===================================================================== *)

Module ImageService.

Local Open Scope string_scope.

Record PromptValidation := {
  isValid : bool;
  issues : list string;
  suggestions : list string
}.

Definition problematicWords : list string :=
  ["nsfw"; "explicit"; "violence"; "gore"; "hate"].

Definition considerDetailed : string :=
  "Consider adding 'detailed' or 'high quality' for better results".

(** [validatePrompt]; the two arrays are threaded through the four
    checks in the order of the source. *)
Definition validatePrompt (prompt : string) : PromptValidation :=
  let issues : list string := [] in
  let suggestions : list string := [] in
  let '(issues, suggestions) :=
    if Nat.ltb (String.length prompt) 10
    then ((issues ++ ["Prompt is too short"])%list,
          (suggestions ++ ["Add more descriptive details to your prompt"])%list)
    else (issues, suggestions) in
  let '(issues, suggestions) :=
    if Nat.ltb 1000 (String.length prompt)
    then ((issues ++ ["Prompt is too long"])%list,
          (suggestions ++ ["Shorten your prompt to under 1000 characters"])%list)
    else (issues, suggestions) in
  let foundProblematic :=
    List.filter (fun word => JS.includes (chars word) (JS.toLowerCase (chars prompt)))
      problematicWords in
  let '(issues, suggestions) :=
    if Nat.ltb 0 (length foundProblematic)
    then ((issues ++ ["Prompt may contain inappropriate content"])%list,
          (suggestions ++ ["Remove potentially inappropriate terms and try again"])%list)
    else (issues, suggestions) in
  let suggestions :=
    if negb (JS.includes (chars "detailed") (chars prompt))
       && negb (JS.includes (chars "high quality") (chars prompt))
    then (suggestions ++ [considerDetailed])%list
    else suggestions in
  {| isValid := Nat.eqb (length issues) 0;
     issues := issues;
     suggestions := suggestions |}.

Inductive Style := realistic | artistic | cartoon | photographic.

Definition styleModifiers (style : Style) : string :=
  match style with
  | realistic => "photorealistic, high detail, professional photography"
  | artistic => "artistic, creative, stylized, beautiful composition"
  | cartoon => "cartoon style, animated, colorful, fun"
  | photographic => "professional photography, studio lighting, high resolution"
  end.

Definition qualityModifiers : string := "high quality, detailed, well-composed".

(** [enhancePrompt]; a missing [style] is ["realistic"]. *)
Definition enhancePrompt (userPrompt : string) (style : option Style) : string :=
  userPrompt ++ ", " ++ styleModifiers (default realistic style) ++ ", "
    ++ qualityModifiers.

End ImageService.

(* ===================================================================== *)
(** * week3/audioService.ts: validation of an uploaded file *)
(* ===================================================================== *)

Module AudioService.

Local Open Scope string_scope.

Record FileValidation := {
  isValid : bool;
  issues : list string
}.

(** [25 * 1024 * 1024]. *)
Definition maxSize : N := 25 * 1024 * 1024.

Definition supportedFormats : list string :=
  [".flac"; ".m4a"; ".mp3"; ".mp4"; ".mpeg"; ".mpga"; ".oga"; ".ogg"; ".wav"; ".webm"].

(** [Math.round(fileSize / 1024 / 1024)]: dividing a size by a power of
    two is exact, and [Math.round] rounds halves upwards. *)
Definition megabytes (fileSize : N) : N := (2 * fileSize + 1048576) / 2097152.

(** A number inside a template literal. *)
Definition show (n : N) : string := NilZero.string_of_uint (N.to_uint n).

(** [formats.join(", ")]. *)
Fixpoint join (separator : string) (items : list string) : string :=
  match items with
  | [] => ""
  | [item] => item
  | item :: rest => item ++ separator ++ join separator rest
  end.

(** [validateAudioFile]. [extname] is [path.extname] of the Node
    runtime; file sizes are byte counts. *)
Definition validateAudioFile (extname : string -> string) (filename : string)
    (fileSize : N) : FileValidation :=
  let issues : list string := [] in
  let issues :=
    if N.ltb maxSize fileSize
    then (issues ++ [("File size " ++ show (megabytes fileSize)
                        ++ "MB exceeds maximum of 25MB")%string])%list
    else issues in
  let issues :=
    if N.eqb fileSize 0 then (issues ++ ["File is empty"])%list else issues in
  let extension :=
    string_of_list_ascii (JS.toLowerCase (chars (extname filename))) in
  let issues :=
    if String.eqb extension "" then (issues ++ ["File has no extension"])%list
    else if negb (existsb (String.eqb extension) supportedFormats)
    then (issues ++ [("File format " ++ extension
                        ++ " is not supported. Supported formats: "
                        ++ join ", " supportedFormats)%string])%list
    else issues in
  {| isValid := Nat.eqb (length issues) 0;
     issues := issues |}.

End AudioService.

(* ===================================================================== *)
(** * Vocabulary of the properties *)
(* ===================================================================== *)

(** [needle] occurs in [hay] as a contiguous substring. *)
Definition occursIn (needle hay : list ascii) : Prop :=
  exists before after, hay = before ++ needle ++ after.

(** The dot product and the norm in which the documentation of
    [calculateCosineSimilarity] is written, accumulated in doubles from
    the first component on. *)
Definition dotProduct (a b : list float) : float :=
  fold_left (fun sum xy => PrimFloat.add sum (PrimFloat.mul (fst xy) (snd xy)))
    (combine a b) 0%float.



(** The sentences of a text as the chunker reads them: the non-blank
    fragments between runs of terminators, trimmed, in text order. *)
Definition sentencesOf (text : list ascii) : list (list ascii) :=
  map JS.trim (List.filter EmbeddingService.nonBlank (JS.splitSentences text)).

(** The chunk emitted for a buffer that starts with the overlap [seed] and
    holds the sentences of [group]. *)
Definition chunkOf (seed : list ascii) (group : list (list ascii)) : list ascii :=
  JS.trim (seed ++ JS.joinSpaces group).

(** A string that does not start with white space. *)
Definition startsTight (s : list ascii) : Prop :=
  match s with
  | [] => True
  | c :: _ => JS.isWhiteSpace c = false
  end.

(** A sentence as the loop sees it: not empty, no white space at either
    end. *)
Definition tightWord (s : list ascii) : Prop :=
  s <> [] /\ startsTight s /\ startsTight (rev s).

(** The chunk in which the sentence at index [i] of [concat groups] lands. *)
Fixpoint groupIndex {A} (groups : list (list A)) (i : nat) : nat :=
  match groups with
  | [] => 0
  | g :: rest =>
      if Nat.ltb i (length g) then 0 else S (groupIndex rest (i - length g))
  end.

(** The eleven categories a [ModerationResponse] keeps, under the names
    the moderation endpoint gives them, and the scores kept for them. *)
Definition knownCategories : list string :=
  [ "hate"; "hate/threatening"; "harassment"; "harassment/threatening";
    "self-harm"; "self-harm/intent"; "self-harm/instructions";
    "sexual"; "sexual/minors"; "violence"; "violence/graphic" ]%string.

Definition keptScores (s : CategoryScores) : list Q :=
  [ s_hate s; s_hateThreatening s; s_harassment s; s_harassmentThreatening s;
    s_selfHarm s; s_selfHarmIntent s; s_selfHarmInstructions s;
    s_sexual s; s_sexualMinors s; s_violence s; s_violenceGraphic s ].

(** The embedding request [generateMultipleEmbeddings] issues for the
    chunk at index [i]. *)
Definition embedChunk (api : Capabilities) (filename source : option string)
    (i : nat) (text : string) : Outcome DocumentEmbedding :=
  EmbeddingGateway.generateEmbedding api
    {| er_text := text;
       er_filename := filename;
       er_source := source;
       er_chunkIndex := Some i |}.

Definition noDocumentsResponse : KnowledgeBaseResponse :=
  {| kb_answer := KnowledgeBaseService.noDocumentsAnswer;
     kb_sources := [];
     kb_confidence := 0%float;
     kb_hasContext := false;
     kb_tokenUsage := None |}.

(** A counter of a session as the statistics map holds it; a session with
    no entry has every counter at zero. *)
Definition counter (field : SessionStatistics -> nat) (w : World)
    (sessionId : string) : nat :=
  match sessionStatistics w !! sessionId with
  | Some stats => field stats
  | None => 0
  end.

(** The request the disabled-feature branch sends to the chat service. *)
Definition knowledgeBaseDisabledRequest (sessionId : string) : ChatCompletionRequest :=
  {| ccr_message := IntegrationService.knowledgeBaseDisabledMessage;
     ccr_sessionId := sessionId |}.

(** The state in which dispatch starts: the initial state when moderation
    is off for the session, the state left by a moderation check that
    did not flag the message otherwise. *)
Definition passesScreening (api : Capabilities) (request : IntegratedChatRequest)
    (features : ChatFeatures) (w w1 : World) : Prop :=
  if f_moderation features then
    exists r,
      ModerationService.moderateContent api
        {| mr_content := req_message request;
           mr_sessionId := req_sessionId request |} w = (Ok r, w1)
      /\ mod_flagged r = false
  else w1 = w.

(** The two maps of the knowledge base describe the same documents: the
    same identifiers in the same order, each once, and each recorded chunk
    count is the number of embeddings stored for the document. *)
Definition consistentKnowledgeBase (w : World) : Prop :=
  NoDup (map fst (documents w))
  /\ Forall2 (fun d m => fst d = fst m /\ di_chunkCount (snd m) = length (snd d))
       (documents w) (documentMetadata w).

(** The entry [getDocumentList] builds for one document. *)
Definition listed (entry : string * DocumentInfo) : KnowledgeBaseListing.ListedDocument :=
  {| KnowledgeBaseListing.ld_id := fst entry;
     KnowledgeBaseListing.ld_filename := di_filename (snd entry);
     KnowledgeBaseListing.ld_uploadDate := di_uploadDate (snd entry);
     KnowledgeBaseListing.ld_chunkCount := di_chunkCount (snd entry) |}.

(** Later or equal upload dates come first. *)
Definition newerFirst (a b : KnowledgeBaseListing.ListedDocument) : Prop :=
  (KnowledgeBaseListing.ld_uploadDate b <= KnowledgeBaseListing.ld_uploadDate a)%Z.

(** The replies of [generateSafeResponse], by family of categories. *)
Definition safeReplyNothingFlagged : string :=
  "I apologize, but I couldn't process your request. Please try rephrasing your message.".
Definition safeReplyHate : string :=
  "I can't respond to content that contains hate speech or discriminatory language. Please keep our conversation respectful and inclusive.".
Definition safeReplyHarassment : string :=
  "I'm designed to have helpful and respectful conversations. Please avoid content that could be considered harassing or threatening.".
Definition safeReplyViolence : string :=
  "I cannot engage with content that involves violence or graphic descriptions. Let's focus on constructive and positive topics instead.".
Definition safeReplySexual : string :=
  "I'm not able to discuss sexual content. Please keep our conversation appropriate and professional.".
Definition safeReplySelfHarm : string :=
  "I'm concerned about the content of your message. If you're struggling with difficult thoughts, please consider reaching out to a mental health professional or crisis helpline. I'm here to help with other topics in a positive way.".
Definition safeReplyOther : string :=
  "I'm not able to respond to that type of content. Please rephrase your message and I'll be happy to help with your question or request.".

(** The message [sendMessage] records for what the user wrote. *)
Definition userSays (request : ChatCompletionRequest) : ChatMessage :=
  {| msg_role := user;
     msg_content := ccr_message request;
     msg_sessionId := ccr_sessionId request;
     msg_tokenUsage := None |}.

(** The statistics [updateStatistics] stores for a session. *)
Definition accounted (w : World) (sessionId action : string) (now : Z)
  : SessionStatistics :=
  IntegrationService.setLastActivity now
    (IntegrationService.applyAction action
       (default (IntegrationService.freshStatistics sessionId now)
          (sessionStatistics w !! sessionId))).

(** The three ways in which [processRequest] ends. *)
Inductive Ending :=
| Failed (message : string)        (* an exception reached the outer handler *)
| Blocked (verdict : ModerationResponse)
| Served (requestType : string).

(** [1] when the condition holds, [0] otherwise. *)
Definition bump (condition : bool) : nat := if condition then 1 else 0.

(* ===================================================================== *)
(** * Scripted capabilities and sample states used in the examples *)
(* ===================================================================== *)

Definition unavailable : string := "service unavailable".

(** A client whose endpoints answer the same way whatever they are asked. *)
Definition scriptedApi (moderation : Outcome (list Moderation))
    (chat : Outcome ChatCompletion) (embedding : Outcome EmbeddingResponse)
  : Capabilities :=
  {| moderations_create := fun _ => moderation;
     chat_completions_create := fun _ => chat;
     embeddings_create := fun _ => embedding;
     handleImageGeneration := fun _ => Throw unavailable;
     textToSpeech := fun _ _ _ => Throw unavailable;
     answerFromContext := fun _ _ => Throw unavailable |}.

Definition offlineApi : Capabilities :=
  scriptedApi (Throw unavailable) (Throw unavailable) (Throw unavailable).

(** A moderation result flagged for graphic violence with a low score. *)
Definition graphicViolence : Moderation :=
  {| r_flagged := true;
     r_categories := list_to_map [("violence"%string, true); ("violence/graphic"%string, true);
                                  ("hate"%string, false)];
     r_category_scores := list_to_map [("violence"%string, (2 # 10)%Q);
                                       ("violence/graphic"%string, (1 # 10)%Q);
                                       ("hate"%string, 0%Q)] |}.

(** A moderation result as the current moderation models give it: beside
    the categories a [ModerationResponse] keeps it reports others, here
    ["illicit"] with a high score, while every kept category scores low. *)
Definition illicitAdvice : Moderation :=
  {| r_flagged := true;
     r_categories := list_to_map [("illicit"%string, true); ("hate"%string, false)];
     r_category_scores := list_to_map [("illicit"%string, (9 # 10)%Q);
                                       ("hate"%string, (1 # 100)%Q)] |}.

Definition knowledgeBaseOff : ChatFeatures :=
  {| f_chat := true; f_knowledgeBase := false; f_imageGeneration := false;
     f_audioInput := false; f_textToSpeech := false; f_moderation := true |}.

Definition cleanResult : Moderation :=
  {| r_flagged := false; r_categories := ∅; r_category_scores := ∅ |}.

Definition chattyApi : Capabilities :=
  scriptedApi (Ok [cleanResult])
    (Ok {| choices := [Some "Please enable the knowledge base."%string]; usage := None |})
    (Throw unavailable).

Definition embeddingQuestion : IntegratedChatRequest :=
  {| req_message := "What is an embedding?";
     req_sessionId := "s";
     req_enableTTS := None;
     req_ttsVoice := None |}.

Definition worldWithKnowledgeBaseOff : World :=
  withSessionFeatures (<["s"%string := knowledgeBaseOff]>) emptyWorld.

(** A stored chunk with a given index and embedding. *)
Definition storedChunk (index : nat) (embedding : list float) : DocumentEmbedding :=
  {| de_text := "chunk";
     de_embedding := embedding;
     de_metadata := {| md_filename := "notes.txt"; md_source := "document_upload";
                       md_chunkIndex := index; md_tokenCount := 1 |} |}.

(** A session for which one chat message has been recorded at time 0. *)
(** A session with the knowledge base switched off that has asked for an
    image and sent one general message. *)
Definition worldAfterTwoRequests : World :=
  snd (IntegrationService.updateStatistics "s" "general_chat" 5
         (snd (IntegrationService.updateStatistics "s" "image_generation" 3
                 worldWithKnowledgeBaseOff))).

Definition worldWithOneMessage : World :=
  snd (IntegrationService.updateStatistics "s" "general_chat" 0 emptyWorld).

(* ===================================================================== *)
(** * Properties *)
(* ===================================================================== *)

Ltac unfold_eff :=
  unfold tryCatch, bind, ret, throw, gets, modify, await in *.

Lemma bind_run {A B} (c : Eff A) (k : A -> Eff B) (w : World) :
  bind c k w
  = match c w with
    | (Ok a, w') => k a w'
    | (Throw m, w') => (Throw m, w')
    end.
Proof. reflexivity. Qed.

Lemma tryCatch_run {A} (c : Eff A) (handler : string -> Eff A) (w : World) :
  tryCatch c handler w
  = match c w with
    | (Ok a, w') => (Ok a, w')
    | (Throw m, w') => handler m w'
    end.
Proof. reflexivity. Qed.

(** ** Safety screening fails closed *)

Section SafetyScreen.
Import ModerationService.
Context (api : Capabilities).

Lemma moderateContent_cases (request : ModerationRequest) (w : World) :
  match moderations_create api (mr_content request) with
  | Throw m =>
      moderateContent api request w
      = (Throw ("Content moderation failed: " ++ m)%string, w)
  | Ok [] =>
      moderateContent api request w
      = (Throw "Content moderation failed: No moderation results returned"%string, w)
  | Ok (result :: _) =>
      exists r w',
        moderateContent api request w = (Ok r, w')
        /\ mod_flagged r = r_flagged result
        /\ mod_action r = determineAction (r_flagged result) (r_categories result)
        /\ mod_riskLevel r = calculateRiskLevel (r_category_scores result)
        /\ documents w' = documents w
        /\ documentMetadata w' = documentMetadata w
        /\ chatHistory w' = chatHistory w
        /\ sessionFeatures w' = sessionFeatures w
        /\ sessionStatistics w' = sessionStatistics w
  end.
Proof.
  unfold moderateContent. unfold_eff.
  destruct (moderations_create api (mr_content request)) as [[|result rest]|m];
    simpl; try reflexivity.
  eexists _, _. split; [reflexivity|]. simpl. repeat split; reflexivity.
Qed.

(** C5. [isContentSafe] never throws; when the moderation endpoint errors
    (or returns no result) it answers [false]; it answers [true] exactly
    when [moderateContent] succeeded with a result that is not flagged. *)
Theorem isContentSafe_fails_closed (content sessionId : string) (w : World) :
  let request := {| mr_content := content; mr_sessionId := sessionId |} in
  (exists b, fst (isContentSafe api content sessionId w) = Ok b)
  /\ (forall m, moderations_create api content = Throw m ->
        fst (isContentSafe api content sessionId w) = Ok false)
  /\ (forall m, fst (moderateContent api request w) = Throw m ->
        fst (isContentSafe api content sessionId w) = Ok false)
  /\ (fst (isContentSafe api content sessionId w) = Ok true <->
        exists r, fst (moderateContent api request w) = Ok r
                  /\ mod_flagged r = false).
Proof.
  intros request.
  assert (Hsafe : fst (isContentSafe api content sessionId w)
                  = match fst (moderateContent api request w) with
                    | Ok r => Ok (negb (mod_flagged r))
                    | Throw _ => Ok false
                    end).
  { unfold isContentSafe. unfold_eff. fold request.
    destruct (moderateContent api request w) as [[r|m] w']; reflexivity. }
  repeat split.
  - rewrite Hsafe. destruct (fst (moderateContent api request w)); eauto.
  - intros m Hm. rewrite Hsafe.
    pose proof (moderateContent_cases request w) as Hc. simpl in Hc.
    rewrite Hm in Hc. rewrite Hc. reflexivity.
  - intros m Hm. rewrite Hsafe, Hm. reflexivity.
  - rewrite Hsafe. destruct (fst (moderateContent api request w)) as [r|m].
    + intros [= Hneg]. exists r. split; [reflexivity|].
      destruct (mod_flagged r); [discriminate|reflexivity].
    + discriminate.
  - rewrite Hsafe. intros (r & -> & ->). reflexivity.
Qed.

End SafetyScreen.

(** ** Risk level and action of a moderation result *)

Section RiskAndAction.
Import ModerationService.
Local Open Scope Q_scope.

Lemma mathMax_from (l : list Q) (m : Q) :
  exists m',
    fold_left (fun acc x =>
                 match acc with
                 | None => Some x
                 | Some m => Some (if Qle_bool m x then x else m)
                 end) l (Some m) = Some m'
    /\ (m' = m \/ In m' l) /\ m <= m' /\ (forall x, In x l -> x <= m').
Proof.
  revert m. induction l as [|x l IH]; intros m; simpl.
  - exists m. repeat split; [now left | apply Qle_refl | intros x []].
  - destruct (Qle_bool m x) eqn:Hle.
    + apply Qle_bool_iff in Hle.
      destruct (IH x) as (m' & Hf & Hin & Hxm & Hall).
      exists m'. split; [exact Hf|]. split; [|split].
      * right. destruct Hin as [->|Hin]; [now left | now right].
      * eapply Qle_trans; eassumption.
      * intros y [<-|Hy]; [exact Hxm | now apply Hall].
    + assert (Hlt : x < m).
      { apply Qnot_le_lt. intros H. apply Qle_bool_iff in H. congruence. }
      destruct (IH m) as (m' & Hf & Hin & Hmm & Hall).
      exists m'. split; [exact Hf|]. split; [|split].
      * destruct Hin as [->|Hin]; [now left | right; now right].
      * exact Hmm.
      * intros y [<-|Hy]; [|now apply Hall].
        apply Qlt_le_weak. eapply Qlt_le_trans; eassumption.
Qed.

(** [mathMax] returns [-Infinity] on no argument and otherwise an element
    that bounds all the others. *)
Lemma mathMax_spec (l : list Q) :
  match mathMax l with
  | None => l = []
  | Some m => In m l /\ forall x, In x l -> x <= m
  end.
Proof.
  unfold mathMax. destruct l as [|x l]; simpl; [reflexivity|].
  destruct (mathMax_from l x) as (m' & -> & Hin & Hxm & Hall).
  split.
  - destruct Hin as [->|Hin]; [now left | now right].
  - intros y [<-|Hy]; [exact Hxm | now apply Hall].
Qed.

Lemma below_all (l : list Q) (t : Q) :
  below (mathMax l) t = true <-> forall x, In x l -> x < t.
Proof.
  pose proof (mathMax_spec l) as H. destruct (mathMax l) as [m|]; simpl.
  - destruct H as [Hin Hall]. rewrite negb_true_iff. split.
    + intros Hb x Hx. eapply Qle_lt_trans; [now apply Hall|].
      apply Qnot_le_lt. intros Hle. apply Qle_bool_iff in Hle. congruence.
    + intros Hlt. destruct (Qle_bool t m) eqn:Hb; [|reflexivity].
      apply Qle_bool_iff in Hb. specialize (Hlt m Hin).
      exfalso. eapply Qlt_not_le; eassumption.
  - subst l. split; [intros _ x [] | reflexivity].
Qed.

Lemma below_some (l : list Q) (t : Q) :
  below (mathMax l) t = false <-> exists x, In x l /\ t <= x.
Proof.
  pose proof (mathMax_spec l) as H. destruct (mathMax l) as [m|]; simpl.
  - destruct H as [Hin Hall]. rewrite negb_false_iff, Qle_bool_iff. split.
    + intros Hle. exists m. split; assumption.
    + intros (x & Hx & Htx). eapply Qle_trans; [exact Htx | now apply Hall].
  - subst l. split; [discriminate | intros (x & [] & _)].
Qed.

Lemma existsb_map_to_list (m : gmap string bool) (f : string * bool -> bool) :
  existsb f (map_to_list m) = true
  <-> exists k v, m !! k = Some v /\ f (k, v) = true.
Proof.
  rewrite existsb_exists. split.
  - intros ([k v] & Hin & Hf). exists k, v. split; [|exact Hf].
    apply elem_of_map_to_list. now apply list_elem_of_In.
  - intros (k & v & Hkv & Hf). exists (k, v). split; [|exact Hf].
    apply list_elem_of_In. now apply elem_of_map_to_list.
Qed.

(** The scan of [Object.entries(categories)] against the high-severity
    list amounts to six look-ups. *)
Lemma determineAction_flags (flagged : bool) (categories : gmap string bool) :
  determineAction flagged categories
  = if negb flagged then allow
    else if flag categories "hate/threatening"
            || flag categories "harassment/threatening"
            || flag categories "self-harm/intent"
            || flag categories "self-harm/instructions"
            || flag categories "sexual/minors"
            || flag categories "violence/graphic"
         then block else warn.
Proof.
  unfold determineAction. destruct flagged; simpl; [|reflexivity].
  match goal with |- (if ?a then _ else _) = (if ?b then _ else _) =>
    assert (Hab : a = true <-> b = true); [|destruct a, b; intuition congruence]
  end.
  rewrite existsb_map_to_list. unfold flag. split.
  - intros (k & v & Hkv & Hf). apply andb_true_iff in Hf as [-> Hk].
    apply bool_decide_eq_true in Hk. unfold highSeverityCategories in Hk.
    repeat (apply elem_of_cons in Hk as [->|Hk];
            [rewrite Hkv; simpl; rewrite ?orb_true_r; reflexivity|]).
    now apply elem_of_nil in Hk.
  - intros H.
    repeat (apply orb_true_iff in H as [H|H]);
      match type of H with
      | default false (categories !! ?k) = true =>
          exists k, true; destruct (categories !! k) as [[]|] eqn:E;
          try discriminate; split; [reflexivity|];
          apply andb_true_iff; split; [reflexivity|];
          apply bool_decide_eq_true; unfold highSeverityCategories;
          set_solver
      end.
Qed.

Lemma In_scores (raw : gmap string Q) (k : string) (v : Q) :
  raw !! k = Some v -> In v (map snd (map_to_list raw)).
Proof.
  intros H. apply in_map_iff. exists (k, v). split; [reflexivity|].
  apply list_elem_of_In. now apply elem_of_map_to_list.
Qed.

(** When the endpoint reports no category beyond the eleven known ones,
    comparing its scores with a positive threshold and comparing the
    scores kept in the response come to the same. *)
Lemma kept_scores_below (raw : gmap string Q) (t : Q) :
  0 < t ->
  (forall k v, raw !! k = Some v -> In k knownCategories) ->
  (forall s, In s (map snd (map_to_list raw)) -> s < t)
  <-> (forall s, In s (map (score raw) knownCategories) -> s < t).
Proof.
  intros Ht Hknown. split.
  - intros Hall s Hs. apply in_map_iff in Hs as (k & <- & _).
    unfold score. destruct (raw !! k) as [v|] eqn:E; simpl; [|exact Ht].
    apply Hall. eapply In_scores. exact E.
  - intros Hall s Hs. apply in_map_iff in Hs as ([k v] & <- & Hin).
    apply list_elem_of_In, elem_of_map_to_list in Hin. simpl.
    replace v with (score raw k) by (unfold score; now rewrite Hin).
    apply Hall. apply in_map. eapply Hknown. exact Hin.
Qed.

Lemma kept_scores_reach (raw : gmap string Q) (t : Q) :
  0 < t ->
  (forall k v, raw !! k = Some v -> In k knownCategories) ->
  (exists s, In s (map snd (map_to_list raw)) /\ t <= s)
  <-> (exists s, In s (map (score raw) knownCategories) /\ t <= s).
Proof.
  intros Ht Hknown. split.
  - intros (s & Hs & Hle). apply in_map_iff in Hs as ([k v] & <- & Hin).
    apply list_elem_of_In, elem_of_map_to_list in Hin. simpl in Hle.
    exists (score raw k). split.
    + apply in_map. eapply Hknown. exact Hin.
    + unfold score. now rewrite Hin.
  - intros (s & Hs & Hle). apply in_map_iff in Hs as (k & <- & _).
    unfold score in *. destruct (raw !! k) as [v|] eqn:E; simpl in *.
    + exists v. split; [|exact Hle]. eapply In_scores. exact E.
    + exfalso. eapply Qlt_not_le; eassumption.
Qed.

End RiskAndAction.

Section RiskAndActionClaim.
Import ModerationService.
Local Open Scope Q_scope.

(** When the endpoint reports no category beyond the eleven a result
    keeps, the thresholds can be read on the scores kept in the result. *)
Lemma risk_from_kept_scores (raw : gmap string Q) :
  (forall k v, raw !! k = Some v -> In k knownCategories) ->
  let kept := map (score raw) knownCategories in
  (calculateRiskLevel raw = low <-> forall s, In s kept -> s < 3 # 10)
  /\ (calculateRiskLevel raw = high <-> exists s, In s kept /\ 7 # 10 <= s).
Proof.
  intros Hknown kept. unfold kept.
  rewrite <- (kept_scores_below raw (3 # 10) eq_refl Hknown).
  rewrite <- (kept_scores_reach raw (7 # 10) eq_refl Hknown).
  set (scores := map snd (map_to_list raw)).
  unfold calculateRiskLevel. fold scores.
  rewrite <- below_all, <- below_some.
  destruct (below (mathMax scores) (3 # 10)) eqn:H3.
  - split; [tauto|]. split; [discriminate|]. intros H7. exfalso.
    pose proof (proj1 (below_all scores _) H3) as Hall3.
    apply (proj1 (below_some scores _)) in H7 as (s & Hs & Hle).
    specialize (Hall3 s Hs).
    apply (Qlt_not_le _ _ Hall3). eapply Qle_trans; [|exact Hle]. discriminate.
  - destruct (below (mathMax scores) (7 # 10));
      (split; [split; discriminate|]); split; try discriminate; tauto.
Qed.

(** A kept score is a score the endpoint returned, or zero. *)
Lemma kept_score_returned (raw : gmap string Q) (key : string) (t : Q) :
  0 < t -> t <= score raw key ->
  exists s, In s (map snd (map_to_list raw)) /\ t <= s.
Proof.
  intros Hpos Hle. unfold score in Hle.
  destruct (raw !! key) as [v|] eqn:E; simpl in Hle.
  - exists v. split; [exact (In_scores raw key v E) | exact Hle].
  - exfalso. apply (Qlt_not_le _ _ Hpos Hle).
Qed.

(** C6. For every result [r] of [moderateContent]: [riskLevel] is taken
    on the maximum of all the category scores the endpoint returned, not
    only of the eleven kept in [r]: it is [low] exactly when every returned
    score is below 0.3, [high] exactly when some returned score reaches 0.7
    and [medium] otherwise, so that for the maximum returned score [m] it
    is [low] when [m < 0.3], [medium] when [0.3 <= m < 0.7] and [high] when
    [0.7 <= m]. The scores kept in [r] bound it from below only: a kept
    score of at least 0.7 makes it [high], one of at least 0.3 makes it
    [medium] or [high]. [action] is [allow] when [r] is not flagged,
    [block] when it is flagged and one of the six high-severity categories
    is flagged, and [warn] for every other flagged result, whatever the
    risk level. *)
Theorem moderation_risk_and_action (api : Capabilities)
    (request : ModerationRequest) (w w' : World) (r : ModerationResponse) :
  moderateContent api request w = (Ok r, w') ->
  exists result rest,
    moderations_create api (mr_content request) = Ok (result :: rest)
    /\ let scores := map snd (map_to_list (r_category_scores result)) in
       let kept := keptScores (mod_categoryScores r) in
       let c := mod_categories r in
       (mod_riskLevel r = low <-> forall s, In s scores -> s < 3 # 10)
       /\ (mod_riskLevel r = medium <->
             (exists s, In s scores /\ 3 # 10 <= s)
             /\ forall s, In s scores -> s < 7 # 10)
       /\ (mod_riskLevel r = high <-> exists s, In s scores /\ 7 # 10 <= s)
       /\ (forall m, In m scores -> (forall s, In s scores -> s <= m) ->
             (m < 3 # 10 -> mod_riskLevel r = low)
             /\ (3 # 10 <= m -> m < 7 # 10 -> mod_riskLevel r = medium)
             /\ (7 # 10 <= m -> mod_riskLevel r = high))
       /\ ((exists s, In s kept /\ 7 # 10 <= s) -> mod_riskLevel r = high)
       /\ ((exists s, In s kept /\ 3 # 10 <= s) -> mod_riskLevel r <> low)
       /\ mod_action r
          = (if negb (mod_flagged r) then allow
             else if hateThreatening c || harassmentThreatening c
                     || selfHarmIntent c || selfHarmInstructions c
                     || sexualMinors c || violenceGraphic c
                  then block else warn).
Proof.
  intros Hrun.
  pose proof (moderateContent_cases api request w) as Hc.
  destruct (moderations_create api (mr_content request)) as [[|result rest]|msg]
    eqn:Hcreate; try (rewrite Hc in Hrun; discriminate).
  exists result, rest. split; [reflexivity|].
  assert (Hr : mod_riskLevel r = calculateRiskLevel (r_category_scores result)
               /\ mod_action r = determineAction (r_flagged result) (r_categories result)
               /\ mod_flagged r = r_flagged result
               /\ keptScores (mod_categoryScores r)
                  = map (score (r_category_scores result)) knownCategories
               /\ mod_categories r
                  = {| hate := flag (r_categories result) "hate";
                       hateThreatening := flag (r_categories result) "hate/threatening";
                       harassment := flag (r_categories result) "harassment";
                       harassmentThreatening := flag (r_categories result) "harassment/threatening";
                       selfHarm := flag (r_categories result) "self-harm";
                       selfHarmIntent := flag (r_categories result) "self-harm/intent";
                       selfHarmInstructions := flag (r_categories result) "self-harm/instructions";
                       sexual := flag (r_categories result) "sexual";
                       sexualMinors := flag (r_categories result) "sexual/minors";
                       violence := flag (r_categories result) "violence";
                       violenceGraphic := flag (r_categories result) "violence/graphic" |}).
  { clear Hc. unfold moderateContent in Hrun. unfold_eff.
    rewrite Hcreate in Hrun. simpl in Hrun.
    injection Hrun as <- _. simpl. repeat split; reflexivity. }
  destruct Hr as (Hrisk & Hact & Hflag & Hkept & Hcat).
  set (scores := map snd (map_to_list (r_category_scores result))).
  assert (Hlow : mod_riskLevel r = low <-> forall s, In s scores -> s < 3 # 10).
  { rewrite Hrisk. unfold calculateRiskLevel. fold scores.
    rewrite <- below_all.
    destruct (below (mathMax scores) (3 # 10)); [tauto|].
    destruct (below (mathMax scores) (7 # 10)); split; discriminate. }
  assert (Hhigh : mod_riskLevel r = high <-> exists s, In s scores /\ 7 # 10 <= s).
  { rewrite Hrisk. unfold calculateRiskLevel. fold scores.
    rewrite <- below_some.
    destruct (below (mathMax scores) (3 # 10)) eqn:H3.
    - split; [discriminate|]. intros H7. exfalso.
      pose proof (proj1 (below_all scores _) H3) as Hall3.
      apply (proj1 (below_some scores _)) in H7 as (s & Hs & Hle).
      specialize (Hall3 s Hs).
      apply (Qlt_not_le _ _ Hall3). eapply Qle_trans; [|exact Hle]. discriminate.
    - destruct (below (mathMax scores) (7 # 10)); split; try discriminate; tauto. }
  assert (Hmed : mod_riskLevel r = medium <->
                 (exists s, In s scores /\ 3 # 10 <= s)
                 /\ forall s, In s scores -> s < 7 # 10).
  { rewrite Hrisk. unfold calculateRiskLevel. fold scores.
    rewrite <- below_all, <- below_some.
    destruct (below (mathMax scores) (3 # 10));
      destruct (below (mathMax scores) (7 # 10)); split;
      try discriminate; try tauto; intros [? ?]; discriminate. }
  assert (Hreturned : forall t, 0 < t ->
            (exists s, In s (keptScores (mod_categoryScores r)) /\ t <= s) ->
            exists s, In s scores /\ t <= s).
  { intros t Hpos (s & Hs & Hle). rewrite Hkept in Hs.
    apply in_map_iff in Hs as (key & <- & _).
    exact (kept_score_returned _ key t Hpos Hle). }
  cbv zeta. fold scores.
  split; [exact Hlow|]. split; [exact Hmed|]. split; [exact Hhigh|]. split.
  - intros m Hm Hmax. split; [|split].
    + intros Hlt. apply Hlow. intros s Hs.
      eapply Qle_lt_trans; [now apply Hmax | exact Hlt].
    + intros H3 H7. apply Hmed. split; [exists m; now split|].
      intros s Hs. eapply Qle_lt_trans; [now apply Hmax | exact H7].
    + intros H7. apply Hhigh. exists m. now split.
  - split; [|split].
    + intros Hk. apply Hhigh. now apply Hreturned.
    + intros Hk Hl. apply (Hreturned (3 # 10) eq_refl) in Hk as (s & Hs & Hle).
      apply (Qlt_not_le _ _ (proj1 Hlow Hl s Hs) Hle).
    + rewrite Hact, Hflag, Hcat. simpl. apply determineAction_flags.
Qed.

Lemma moderation_risk_and_action_witness :
  exists r w',
    moderateContent
      (scriptedApi (Ok [graphicViolence]) (Throw unavailable) (Throw unavailable))
      {| mr_content := "x"; mr_sessionId := "s" |} emptyWorld = (Ok r, w')
    /\ mod_action r = block /\ mod_riskLevel r = low.
Proof.
  eexists _, _. split; [reflexivity|].
  destruct (moderation_risk_and_action
              (scriptedApi (Ok [graphicViolence]) (Throw unavailable) (Throw unavailable))
              {| mr_content := "x"; mr_sessionId := "s" |} emptyWorld _ _ eq_refl)
    as (result & rest & Hres & Hlow & _ & _ & _ & _ & _ & Hact).
  injection Hres as <- <-.
  split.
  - rewrite Hact. vm_compute. reflexivity.
  - apply Hlow. vm_compute. intros s H.
    repeat (destruct H as [<-|H]; [reflexivity|]). destruct H.
Defined.

(** C6 as stated, on the scores of the result, fails: the endpoint may
    report a category the result does not keep. With ["illicit"] at 0.9 and
    every kept score at most 0.01 the risk level is [high]. *)
Lemma moderation_risk_counts_dropped_categories :
  ~ (forall api request w w' r,
       moderateContent api request w = (Ok r, w') ->
       (forall s, In s (keptScores (mod_categoryScores r)) -> s < 3 # 10) ->
       mod_riskLevel r = low).
Proof.
  intros H.
  specialize (H (scriptedApi (Ok [illicitAdvice]) (Throw unavailable) (Throw unavailable))
                {| mr_content := "x"; mr_sessionId := "s" |} emptyWorld _ _ eq_refl).
  lapply H; [intros Hlow; vm_compute in Hlow; discriminate|].
  vm_compute. intros s Hs.
  repeat (destruct Hs as [<-|Hs]; [reflexivity|]). destruct Hs.
Qed.

End RiskAndActionClaim.

(** ** Document ingest and the empty knowledge base *)

Section JSMapFacts.
Context {V : Type}.

Lemma JSMap_get_set_eq (k : string) (v : V) (m : JSMap.t V) :
  JSMap.get k (JSMap.set k v m) = Some v.
Proof.
  induction m as [|[k' v'] m IH]; simpl.
  - now rewrite String.eqb_refl.
  - destruct (String.eqb k' k) eqn:E; simpl.
    + now rewrite String.eqb_refl.
    + now rewrite E.
Qed.

Lemma JSMap_get_set_ne (k k' : string) (v : V) (m : JSMap.t V) :
  k <> k' -> JSMap.get k' (JSMap.set k v m) = JSMap.get k' m.
Proof.
  intros Hne. induction m as [|[k0 v0] m IH]; simpl.
  - destruct (String.eqb k k') eqn:E; [|reflexivity].
    apply String.eqb_eq in E. contradiction.
  - destruct (String.eqb k0 k) eqn:E; simpl.
    + apply String.eqb_eq in E. subst k0.
      destruct (String.eqb k k') eqn:E'; [|reflexivity].
      apply String.eqb_eq in E'. contradiction.
    + destruct (String.eqb k0 k'); [reflexivity | exact IH].
Qed.

End JSMapFacts.

Section Ingest.
Import EmbeddingGateway KnowledgeBaseService.
Context (api : Capabilities).

Lemma promiseAll_app {A} (ps qs : list (Outcome A)) :
  promiseAll (ps ++ qs)
  = match promiseAll ps with
    | Throw m => Throw m
    | Ok a => match promiseAll qs with
              | Ok b => Ok (a ++ b)
              | Throw m => Throw m
              end
    end.
Proof.
  induction ps as [|[a|m] ps IH]; simpl.
  - destruct (promiseAll qs); reflexivity.
  - rewrite IH. destruct (promiseAll ps); [|reflexivity].
    destruct (promiseAll qs); reflexivity.
  - reflexivity.
Qed.

Lemma promiseAll_Ok {A} (ps : list (Outcome A)) (l : list A) :
  promiseAll ps = Ok l <-> ps = map Ok l.
Proof.
  revert l. induction ps as [|[a|m] ps IH]; intros l; simpl.
  - split.
    + intros [= <-]. reflexivity.
    + destruct l; [reflexivity | discriminate].
  - destruct (promiseAll ps) as [l'|m] eqn:E.
    + split.
      * intros [= <-]. simpl. f_equal. now apply IH.
      * destruct l as [|b l]; [discriminate|]. simpl. intros [= -> H].
        apply IH in H. congruence.
    + split; [discriminate|].
      destruct l as [|b l]; [discriminate|]. simpl. intros [= -> H].
      apply IH in H. discriminate.
  - split; [discriminate|]. destruct l; discriminate.
Qed.

Lemma promiseAll_Throw {A} (ps : list (Outcome A)) :
  (exists m, promiseAll ps = Throw m) <-> exists i m, ps !! i = Some (Throw m).
Proof.
  induction ps as [|[a|m] ps IH]; simpl.
  - split; [intros [m H]; discriminate | intros (i & m & H); discriminate].
  - split.
    + intros [m H]. destruct (promiseAll ps) as [l|m'] eqn:E; [discriminate|].
      destruct (proj1 IH (ex_intro _ m' eq_refl)) as (i & m0 & Hi).
      exists (S i), m0. exact Hi.
    + intros ([|i] & m & Hi); [discriminate|]. simpl in Hi.
      destruct (proj2 IH (ex_intro _ i (ex_intro _ m Hi))) as [m' ->]. eauto.
  - split; [|eauto]. intros _. exists 0, m. reflexivity.
Qed.

Lemma batchLoop_spec (filename source : option string) (texts : list string)
    (fuel i : nat) (embeddings : list DocumentEmbedding) :
  length texts - i <= fuel ->
  batchLoop api filename source texts fuel i embeddings
  = match promiseAll (imap (fun j text => embedChunk api filename source (i + j) text)
                        (skipn i texts)) with
    | Ok l => Ok (embeddings ++ l)
    | Throw m => Throw m
    end.
Proof.
  revert i embeddings. induction fuel as [|fuel IH]; intros i embeddings Hfuel.
  - simpl. destruct (Nat.ltb i (length texts)) eqn:Hlt.
    + apply Nat.ltb_lt in Hlt. lia.
    + apply Nat.ltb_ge in Hlt. rewrite drop_ge by lia. simpl.
      now rewrite app_nil_r.
  - simpl. destruct (Nat.ltb i (length texts)) eqn:Hlt.
    + apply Nat.ltb_lt in Hlt.
      change (fun index text =>
                generateEmbedding api
                  {| er_text := text; er_filename := filename;
                     er_source := source; er_chunkIndex := Some (i + index) |})
        with (fun j text => embedChunk api filename source (i + j) text).
      set (batch := take batchSize (drop i texts)).
      assert (Hsplit : drop i texts = batch ++ drop (i + batchSize) texts).
      { unfold batch. rewrite <- drop_drop. symmetry. apply take_drop. }
      rewrite Hsplit, imap_app, promiseAll_app.
      destruct (promiseAll (imap _ batch)) as [batchResults|m]; [|reflexivity].
      rewrite IH by (unfold batchSize; lia).
      assert (Hsame :
        imap (fun j text => embedChunk api filename source (i + batchSize + j) text)
          (drop (i + batchSize) texts)
        = imap ((fun j text => embedChunk api filename source (i + j) text)
                  ∘ (fun j => length batch + j))
            (drop (i + batchSize) texts)).
      { destruct (Nat.le_gt_cases (length texts) (i + batchSize)) as [Hle|Hgt].
        - rewrite drop_ge by lia. reflexivity.
        - apply imap_ext. intros j x _. simpl.
          replace (length batch) with batchSize; [f_equal; lia|].
          unfold batch. rewrite length_take, length_drop. unfold batchSize in *. lia. }
      rewrite Hsame.
      destruct (promiseAll _) as [l|m]; [|reflexivity].
      now rewrite app_assoc.
    + apply Nat.ltb_ge in Hlt. rewrite drop_ge by lia. simpl.
      now rewrite app_nil_r.
Qed.

(** The batched loop embeds every text once, in order, and fails with the
    first failing text. *)
Lemma generateMultipleEmbeddings_spec (texts : list string)
    (filename source : option string) :
  generateMultipleEmbeddings api texts filename source
  = match promiseAll (imap (embedChunk api filename source) texts) with
    | Ok l => Ok l
    | Throw m => Throw ("Batch embedding generation failed: " ++ m)%string
    end.
Proof.
  unfold generateMultipleEmbeddings.
  rewrite batchLoop_spec by lia. simpl.
  destruct (promiseAll _); reflexivity.
Qed.

End Ingest.

Section KnowledgeBaseClaims.
Import EmbeddingGateway KnowledgeBaseService.
Local Open Scope string_scope.

(** What [addDocument] does, read off the embedding of all the chunks. *)
Lemma addDocument_run (api : Capabilities) (newId : string) (now : Z)
    (filename content : string) (w : World) :
  let chunks :=
    map string_of_list_ascii
      (EmbeddingService.splitTextIntoChunks (chars content) 800 80) in
  addDocument api newId now filename content w
  = match promiseAll (imap (embedChunk api (Some filename) (Some "document_upload"))
                        chunks) with
    | Ok embeddings =>
        (Ok {| documentId := newId;
               chunkCount := length chunks;
               tokenCount :=
                 fold_left (fun sum emb => sum + md_tokenCount (de_metadata emb))
                   embeddings 0 |},
         withDocumentMetadata
           (JSMap.set newId {| di_filename := filename;
                               di_uploadDate := now;
                               di_chunkCount := length chunks |})
           (withDocuments (JSMap.set newId embeddings) w))
    | Throw m =>
        (Throw ("Document processing failed: "
                  ++ ("Batch embedding generation failed: " ++ m)), w)
    end.
Proof.
  intros chunks. unfold addDocument. unfold_eff. fold chunks.
  rewrite generateMultipleEmbeddings_spec.
  destruct (promiseAll _) as [embeddings|m]; reflexivity.
Qed.

(** C3. [addDocument] writes nothing unless every chunk was embedded:
    if embedding some chunk fails it throws and leaves the state as it
    was; whenever it throws the state is unchanged; and when it succeeds
    the document is stored under its identifier with one embedding per
    chunk, in chunk order, together with its metadata. *)
Theorem addDocument_atomic (api : Capabilities) (newId : string) (now : Z)
    (filename content : string) (w : World) :
  let chunks :=
    map string_of_list_ascii
      (EmbeddingService.splitTextIntoChunks (chars content) 800 80) in
  let embed := embedChunk api (Some filename) (Some "document_upload") in
  ((exists i text m, chunks !! i = Some text /\ embed i text = Throw m) ->
     exists m, addDocument api newId now filename content w = (Throw m, w))
  /\ (forall m w', addDocument api newId now filename content w = (Throw m, w') ->
        w' = w
        /\ exists i text m', chunks !! i = Some text /\ embed i text = Throw m')
  /\ (forall result w',
        addDocument api newId now filename content w = (Ok result, w') ->
        exists embeddings,
          length embeddings = length chunks
          /\ (forall i text, chunks !! i = Some text ->
                exists e, embeddings !! i = Some e /\ embed i text = Ok e)
          /\ JSMap.get newId (documents w') = Some embeddings
          /\ JSMap.get newId (documentMetadata w')
             = Some {| di_filename := filename;
                       di_uploadDate := now;
                       di_chunkCount := length chunks |}
          /\ (forall other, other <> newId ->
                JSMap.get other (documents w') = JSMap.get other (documents w)
                /\ JSMap.get other (documentMetadata w')
                   = JSMap.get other (documentMetadata w))
          /\ chunkCount result = length chunks
          /\ documentId result = newId).
Proof.
  intros chunks embed.
  pose proof (addDocument_run api newId now filename content w) as Hrun.
  cbv zeta in Hrun. fold chunks embed in Hrun.
  assert (Hthrow : (exists m, promiseAll (imap embed chunks) = Throw m)
                   <-> exists i text m, chunks !! i = Some text /\ embed i text = Throw m).
  { rewrite promiseAll_Throw. split.
    - intros (i & m & Hi). rewrite list_lookup_imap in Hi.
      destruct (chunks !! i) as [text|] eqn:E; [|discriminate].
      simpl in Hi. injection Hi as Hi. eauto 6.
    - intros (i & text & m & Hi & Hm). exists i, m.
      rewrite list_lookup_imap, Hi. simpl. now rewrite Hm. }
  split; [|split].
  - intros Hfail. apply Hthrow in Hfail as [m Hm].
    rewrite Hrun, Hm. eauto.
  - intros m w' H. rewrite Hrun in H.
    destruct (promiseAll (imap embed chunks)) as [embeddings|m0] eqn:E;
      [discriminate|].
    injection H as _ <-. split; [reflexivity|]. apply Hthrow. eauto.
  - intros result w' H. rewrite Hrun in H.
    destruct (promiseAll (imap embed chunks)) as [embeddings|m0] eqn:E;
      [|discriminate].
    injection H as <- <-. exists embeddings.
    apply promiseAll_Ok in E.
    assert (Hlen : length embeddings = length chunks).
    { apply (f_equal length) in E.
      rewrite length_imap, length_map in E. congruence. }
    split; [exact Hlen|]. split; [|split; [|split; [|split]]].
    + intros i text Hi.
      assert (Hlook : imap embed chunks !! i = Some (embed i text)).
      { rewrite list_lookup_imap, Hi. reflexivity. }
      rewrite E, list_lookup_fmap in Hlook.
      destruct (embeddings !! i) as [e|]; [|discriminate].
      simpl in Hlook. injection Hlook as Hlook. eauto.
    + simpl. apply JSMap_get_set_eq.
    + simpl. apply JSMap_get_set_eq.
    + intros other Hne. simpl. split; apply JSMap_get_set_ne; congruence.
    + simpl. split; reflexivity.
Qed.

(** C2, as the code has it. When chunking yields no chunk, [addDocument]
    asks for no embedding and succeeds: it stores the document with an
    empty chunk list and reports [chunkCount = 0] and [tokenCount = 0]. *)
Theorem addDocument_zero_chunks (api : Capabilities) (newId : string) (now : Z)
    (filename content : string) (w : World) :
  EmbeddingService.splitTextIntoChunks (chars content) 800 80 = [] ->
  addDocument api newId now filename content w
  = (Ok {| documentId := newId; chunkCount := 0; tokenCount := 0 |},
     withDocumentMetadata
       (JSMap.set newId {| di_filename := filename;
                           di_uploadDate := now;
                           di_chunkCount := 0 |})
       (withDocuments (JSMap.set newId []) w)).
Proof.
  intros Hnone. rewrite addDocument_run. cbv zeta. rewrite Hnone. reflexivity.
Qed.

Lemma addDocument_zero_chunks_witness :
  fst (addDocument offlineApi "doc_1" 0 "empty.txt" "   " emptyWorld)
  = Ok {| documentId := "doc_1"; chunkCount := 0; tokenCount := 0 |}.
Proof.
  rewrite (addDocument_zero_chunks offlineApi "doc_1" 0 "empty.txt" "   " emptyWorld);
    reflexivity.
Defined.

(** C2 as stated fails: on empty content [addDocument] does not throw. *)
Lemma addDocument_zero_chunks_does_not_fail :
  ~ (forall api newId now filename content w,
       EmbeddingService.splitTextIntoChunks (chars content) 800 80 = [] ->
       exists m w', addDocument api newId now filename content w = (Throw m, w')).
Proof.
  intros H.
  destruct (H offlineApi "doc_1" 0%Z "empty.txt" "" emptyWorld eq_refl)
    as (m & w' & Hrun).
  rewrite addDocument_run in Hrun. discriminate Hrun.
Qed.

(** C4, as the code has it. On a knowledge base with no document, [query]
    first embeds the question: when that call succeeds it returns the fixed
    answer with [hasContext = false] and [confidence = 0] and leaves the
    state alone; when it fails, [query] throws. *)
Theorem query_empty_knowledge_base (api : Capabilities) (q : KnowledgeBaseQuery)
    (w : World) :
  JSMap.size (documents w) = 0 ->
  match generateQueryEmbedding api (kq_question q) with
  | Ok _ => query api q w = (Ok noDocumentsResponse, w)
  | Throw m => query api q w = (Throw ("Knowledge base query failed: " ++ m), w)
  end.
Proof.
  intros Hempty. unfold query. unfold_eff.
  destruct (documents w) as [|d ds] eqn:Hdocs; [|discriminate].
  destruct (generateQueryEmbedding api (kq_question q)); simpl;
    rewrite ?Hdocs; reflexivity.
Qed.

Lemma query_empty_knowledge_base_witness :
  query (scriptedApi (Throw unavailable) (Throw unavailable)
           (Ok {| data := [[1%float; 0%float]]; usage_total_tokens := Some 3 |}))
    {| kq_question := "What is an embedding?"; kq_sessionId := "s";
       kq_maxResults := None; kq_minSimilarity := None |} emptyWorld
  = (Ok noDocumentsResponse, emptyWorld).
Proof.
  exact (query_empty_knowledge_base
           (scriptedApi (Throw unavailable) (Throw unavailable)
              (Ok {| data := [[1%float; 0%float]]; usage_total_tokens := Some 3 |}))
           {| kq_question := "What is an embedding?"; kq_sessionId := "s";
              kq_maxResults := None; kq_minSimilarity := None |}
           emptyWorld eq_refl).
Defined.

(** C4 as stated fails: with the embedding endpoint down, [query] on an
    empty knowledge base throws instead of returning the fixed answer. *)
Lemma query_empty_knowledge_base_can_throw :
  ~ (forall api q w,
       JSMap.size (documents w) = 0 ->
       fst (query api q w) = Ok noDocumentsResponse).
Proof.
  intros H.
  specialize (H offlineApi
                {| kq_question := "What is an embedding?"; kq_sessionId := "s";
                   kq_maxResults := None; kq_minSimilarity := None |}
                emptyWorld eq_refl).
  discriminate H.
Qed.

End KnowledgeBaseClaims.

(** ** Dispatch of a knowledge-base query when the feature is off *)

Section Orchestrator.
Import IntegrationService.
Local Open Scope string_scope.

Lemma sendMessage_frame (api : Capabilities) (request : ChatCompletionRequest)
    (w : World) :
  let w' := snd (ChatService.sendMessage api request w) in
  documents w' = documents w
  /\ documentMetadata w' = documentMetadata w
  /\ moderationHistory w' = moderationHistory w
  /\ sessionFeatures w' = sessionFeatures w
  /\ sessionStatistics w' = sessionStatistics w.
Proof.
  unfold ChatService.sendMessage. unfold_eff. simpl.
  destruct (chat_completions_create api _) as [[[|content rest] u]|m]; simpl;
    repeat split; reflexivity.
Qed.

Lemma moderateContent_frame (api : Capabilities) (request : ModerationRequest)
    (w : World) :
  let w' := snd (ModerationService.moderateContent api request w) in
  documents w' = documents w
  /\ sessionFeatures w' = sessionFeatures w
  /\ sessionStatistics w' = sessionStatistics w.
Proof.
  pose proof (moderateContent_cases api request w) as H.
  destruct (moderations_create api (mr_content request)) as [[|result rest]|m].
  - rewrite H. simpl. repeat split; reflexivity.
  - destruct H as (r & w' & -> & _ & _ & _ & Hd & _ & _ & Hf & Hs). simpl.
    repeat split; assumption.
  - rewrite H. simpl. repeat split; reflexivity.
Qed.

Lemma speech_run (api : Capabilities) (request : IntegratedChatRequest)
    (features : ChatFeatures) (response : IntegratedChatResponse) (w : World) :
  exists response',
    speech api request features response w = (Ok response', w)
    /\ res_chat response' = res_chat response
    /\ res_knowledgeBase response' = res_knowledgeBase response
    /\ res_requestType response' = res_requestType response
    /\ res_error response' = res_error response.
Proof.
  unfold speech. unfold_eff.
  destruct (res_chat response) as [chat|] eqn:Hchat;
    [|exists response; rewrite Hchat; repeat split; reflexivity].
  destruct (f_textToSpeech features && default false (req_enableTTS request));
    [|exists response; rewrite Hchat; repeat split; reflexivity].
  destruct (textToSpeech api _ _ _) as [audio|m]; simpl.
  - exists (setAudio audio response). simpl. rewrite Hchat.
    repeat split; reflexivity.
  - exists response. rewrite Hchat. repeat split; reflexivity.
Qed.

Lemma updateStatistics_run (sessionId action : string) (now : Z) (w : World) :
  updateStatistics sessionId action now w
  = (Ok tt,
     withSessionStatistics
       (<[sessionId :=
            setLastActivity now
              (applyAction action
                 (default (freshStatistics sessionId now)
                    (sessionStatistics w !! sessionId)))]>) w).
Proof. reflexivity. Qed.

Lemma counter_updateStatistics (field : SessionStatistics -> nat)
    (sessionId action : string) (now : Z) (w : World) :
  counter field (snd (updateStatistics sessionId action now w)) sessionId
  = field (setLastActivity now
             (applyAction action
                (default (freshStatistics sessionId now)
                   (sessionStatistics w !! sessionId)))).
Proof.
  rewrite updateStatistics_run. unfold counter. simpl.
  now rewrite lookup_insert_eq.
Qed.

End Orchestrator.

Section DisabledKnowledgeBase.
Import IntegrationService.
Local Open Scope string_scope.
Context (api : Capabilities) (request : IntegratedChatRequest) (now : Z).
Context (features : ChatFeatures).
Hypothesis kbOff : f_knowledgeBase features = false.
Hypothesis isKbQuery :
  analyzeRequestType (req_message request) = "knowledge_base_query".

Lemma route_knowledgeBase_off (response : IntegratedChatResponse) (w1 : World) :
  match ChatService.sendMessage api
          (knowledgeBaseDisabledRequest (req_sessionId request)) w1 with
  | (Throw m, w2) => route api request features now response w1 = (Throw m, w2)
  | (Ok reply, w2) =>
      exists response',
        route api request features now response w1
        = (Ok response',
           snd (updateStatistics (req_sessionId request) "knowledge_base_query" now w2))
        /\ res_chat response' = Some reply
        /\ res_knowledgeBase response' = res_knowledgeBase response
        /\ res_requestType response' = Some "knowledge_base_query"
        /\ res_error response' = res_error response
  end.
Proof using kbOff isKbQuery.
  unfold route. rewrite isKbQuery. unfold dispatch. simpl String.eqb. cbv iota.
  rewrite kbOff. unfold knowledgeBaseDisabledRequest.
  rewrite !bind_run.
  destruct (ChatService.sendMessage api _ w1) as [[reply|m] w2]; [|reflexivity].
  unfold ret at 1.
  destruct (speech_run api request features
              (setChat reply (setRequestType "knowledge_base_query" response)) w2)
    as (response' & Hspeech & Hchat & Hkb & Htype & Herr).
  exists response'. rewrite bind_run, Hspeech, bind_run, updateStatistics_run.
  simpl. repeat split; assumption.
Qed.

End DisabledKnowledgeBase.

Section DisabledKnowledgeBaseClaim.
Import IntegrationService.
Local Open Scope string_scope.

Lemma counter_applyAction_kb (sessionId : string) (now : Z) (w w2 : World) :
  sessionStatistics w2 = sessionStatistics w ->
  let w' := snd (updateStatistics sessionId "knowledge_base_query" now w2) in
  counter knowledgeBaseQueries w' sessionId
  = counter knowledgeBaseQueries w sessionId + 1
  /\ counter messagesCount w' sessionId = counter messagesCount w sessionId + 1.
Proof.
  intros Hs. cbv zeta. rewrite !counter_updateStatistics, Hs. unfold counter.
  destruct (sessionStatistics w !! sessionId); simpl; split; reflexivity.
Qed.

Lemma counter_applyAction_blocked (sessionId : string) (now : Z) (w w2 : World) :
  sessionStatistics w2 = sessionStatistics w ->
  let w' := snd (updateStatistics sessionId "moderation_blocked" now w2) in
  counter knowledgeBaseQueries w' sessionId = counter knowledgeBaseQueries w sessionId.
Proof.
  intros Hs. cbv zeta. rewrite !counter_updateStatistics, Hs. unfold counter.
  destruct (sessionStatistics w !! sessionId); simpl; lia.
Qed.

(** C1, as the code has it. For a session whose [knowledgeBase] feature is
    off and a message classified as [knowledge_base_query]:
    [processRequest] always returns a response without a knowledge-base
    result and never touches the document store; when the message passes
    screening and the chat service answers the fixed "feature disabled"
    message, that answer is the chat of the response and accounting, keyed
    on the classified request type, adds one to [knowledgeBaseQueries] and
    to [messagesCount]; when the response carries no request type (blocked
    by moderation, or failed) [knowledgeBaseQueries] is unchanged. *)
Theorem knowledgeBase_off_fallback (api : Capabilities)
    (request : IntegratedChatRequest) (now : Z) (w : World) :
  let sid := req_sessionId request in
  let features := default defaultFeatures (sessionFeatures w !! sid) in
  f_knowledgeBase features = false ->
  analyzeRequestType (req_message request) = "knowledge_base_query" ->
  exists response w',
    processRequest api request now w = (Ok response, w')
    /\ res_knowledgeBase response = None
    /\ documents w' = documents w
    /\ (res_requestType response = None ->
          counter knowledgeBaseQueries w' sid = counter knowledgeBaseQueries w sid)
    /\ (forall w1 reply w2,
          passesScreening api request features w w1 ->
          ChatService.sendMessage api (knowledgeBaseDisabledRequest sid) w1
          = (Ok reply, w2) ->
          res_requestType response = Some "knowledge_base_query"
          /\ res_chat response = Some reply
          /\ res_error response = None
          /\ counter knowledgeBaseQueries w' sid
             = counter knowledgeBaseQueries w sid + 1
          /\ counter messagesCount w' sid = counter messagesCount w sid + 1).
Proof.
  intros sid features Hoff Hkb.
  (* the tail of the request, from a state [w1] that passed screening *)
  assert (Htail : forall response0 w1,
    res_knowledgeBase response0 = None -> res_error response0 = None ->
    documents w1 = documents w -> sessionStatistics w1 = sessionStatistics w ->
    sessionFeatures w1 = sessionFeatures w ->
    exists response w',
      match route api request features now response0 w1 with
      | (Ok a, w') => (Ok a, w')
      | (Throw m, w') =>
          (let* features := getSessionFeatures sid in
           ret (errorResponse sid features m))%eff w'
      end = (Ok response, w')
      /\ res_knowledgeBase response = None
      /\ documents w' = documents w
      /\ (res_requestType response = None ->
            counter knowledgeBaseQueries w' sid = counter knowledgeBaseQueries w sid)
      /\ (forall reply w2,
            ChatService.sendMessage api (knowledgeBaseDisabledRequest sid) w1
            = (Ok reply, w2) ->
            res_requestType response = Some "knowledge_base_query"
            /\ res_chat response = Some reply
            /\ res_error response = None
            /\ counter knowledgeBaseQueries w' sid
               = counter knowledgeBaseQueries w sid + 1
            /\ counter messagesCount w' sid = counter messagesCount w sid + 1)).
  { intros response0 w1 Hnokb Hnoerr Hd Hs Hf.
    pose proof (route_knowledgeBase_off api request now features Hoff Hkb response0 w1)
      as Hroute.
    pose proof (sendMessage_frame api (knowledgeBaseDisabledRequest sid) w1) as Hframe.
    fold sid in Hroute.
    destruct (ChatService.sendMessage api (knowledgeBaseDisabledRequest sid) w1)
      as [[reply|m] w2]; simpl in Hframe;
      destruct Hframe as (Hd2 & _ & _ & Hf2 & Hs2).
    - destruct Hroute as (response' & -> & Hchat & Hkb' & Htype & Herr).
      exists response', (snd (updateStatistics sid "knowledge_base_query" now w2)).
      split; [reflexivity|]. split; [congruence|]. split.
      { rewrite updateStatistics_run. simpl. congruence. }
      split; [intros Hnone; congruence|].
      intros reply' w2' [= <- <-].
      split; [exact Htype|]. split; [exact Hchat|]. split; [congruence|].
      apply counter_applyAction_kb. congruence.
    - rewrite Hroute. unfold getSessionFeatures. unfold_eff. simpl.
      eexists _, _. split; [reflexivity|]. simpl.
      split; [reflexivity|]. split; [congruence|]. split.
      + intros _. unfold counter. now rewrite Hs2, Hs.
      + intros reply w2' [=]. }
  unfold processRequest. rewrite tryCatch_run, bind_run.
  unfold getSessionFeatures at 1. unfold gets at 1. fold sid features.
  rewrite bind_run.
  destruct (f_moderation features) eqn:Hmod.
  - rewrite bind_run.
    pose proof (moderateContent_frame api
                  {| mr_content := req_message request; mr_sessionId := sid |} w)
      as Hframe.
    destruct (ModerationService.moderateContent api _ w) as [[r|m] w1] eqn:Hrun;
      simpl in Hframe; destruct Hframe as (Hd & Hf & Hs).
    + destruct (mod_flagged r) eqn:Hflag.
      * rewrite bind_run, updateStatistics_run. unfold ret.
        eexists _, _. split; [reflexivity|]. simpl.
        split; [reflexivity|]. split; [exact Hd|]. split.
        -- intros _.
           apply (counter_applyAction_blocked sid now w w1 Hs).
        -- intros w1' reply w2 Hpass _. exfalso.
           unfold passesScreening in Hpass. rewrite Hmod in Hpass.
           destruct Hpass as (r' & Hr' & Hclean).
           fold sid in Hr'. rewrite Hrun in Hr'. congruence.
      * unfold ret at 1.
        destruct (Htail (setModeration r (newResponse sid features)) w1
                    eq_refl eq_refl Hd Hs Hf)
          as (response & w' & Hres & Hnokb & Hdocs & Hnone & Hsome).
        exists response, w'. split; [exact Hres|].
        split; [exact Hnokb|]. split; [exact Hdocs|]. split; [exact Hnone|].
        intros w1' reply w2 Hpass Hsend.
        unfold passesScreening in Hpass. rewrite Hmod in Hpass.
        destruct Hpass as (r' & Hr' & _).
        fold sid in Hr'. rewrite Hrun in Hr'. injection Hr' as _ <-.
        eapply Hsome; eassumption.
    + unfold getSessionFeatures. unfold_eff. simpl.
      eexists _, _. split; [reflexivity|]. simpl.
      split; [reflexivity|]. split; [exact Hd|]. split.
      * intros _. unfold counter. now rewrite Hs.
      * intros w1' reply w2 Hpass _. exfalso.
        unfold passesScreening in Hpass. rewrite Hmod in Hpass.
        destruct Hpass as (r' & Hr' & _).
        fold sid in Hr'. rewrite Hrun in Hr'. discriminate.
  - unfold ret at 1.
    destruct (Htail (newResponse sid features) w eq_refl eq_refl eq_refl eq_refl eq_refl)
      as (response & w' & Hres & Hnokb & Hdocs & Hnone & Hsome).
    exists response, w'. split; [exact Hres|].
    split; [exact Hnokb|]. split; [exact Hdocs|]. split; [exact Hnone|].
    intros w1' reply w2 Hpass Hsend.
    unfold passesScreening in Hpass. rewrite Hmod in Hpass. subst w1'.
    eapply Hsome; eassumption.
Qed.

End DisabledKnowledgeBaseClaim.

Section DisabledKnowledgeBaseExamples.
Import IntegrationService.
Local Open Scope string_scope.

Lemma knowledgeBase_off_fallback_witness :
  counter knowledgeBaseQueries
    (snd (processRequest chattyApi embeddingQuestion 0 worldWithKnowledgeBaseOff)) "s"
  = 1.
Proof.
  destruct (knowledgeBase_off_fallback chattyApi embeddingQuestion 0
              worldWithKnowledgeBaseOff)
    as (response & w' & Hrun & _ & _ & _ & Hcounted).
  - vm_compute. reflexivity.
  - vm_compute. reflexivity.
  - rewrite Hrun. simpl snd.
    edestruct Hcounted as (_ & _ & _ & Hkb & _).
    + unfold passesScreening.
      replace (f_moderation _) with true by (vm_compute; reflexivity).
      eexists. split; [reflexivity|]. reflexivity.
    + reflexivity.
    + simpl req_sessionId in Hkb. rewrite Hkb. vm_compute. reflexivity.
Defined.

(** C1 as stated fails: the disabled-feature fallback is counted as a
    knowledge-base query. *)
Lemma knowledgeBase_off_query_is_counted :
  ~ (forall api request now w,
       f_knowledgeBase
         (default defaultFeatures (sessionFeatures w !! req_sessionId request)) = false ->
       analyzeRequestType (req_message request) = "knowledge_base_query" ->
       counter knowledgeBaseQueries (snd (processRequest api request now w))
         (req_sessionId request)
       = counter knowledgeBaseQueries w (req_sessionId request)).
Proof.
  intros H.
  specialize (H chattyApi embeddingQuestion 0%Z worldWithKnowledgeBaseOff).
  assert (Hoff : f_knowledgeBase
                   (default defaultFeatures
                      (sessionFeatures worldWithKnowledgeBaseOff
                         !! req_sessionId embeddingQuestion)) = false)
    by (vm_compute; reflexivity).
  assert (Hkb : analyzeRequestType (req_message embeddingQuestion)
                = "knowledge_base_query") by (vm_compute; reflexivity).
  specialize (H Hoff Hkb). vm_compute in H. discriminate H.
Qed.

End DisabledKnowledgeBaseExamples.

(** ** Reading session state *)

Section SessionReads.
Import IntegrationService.
Local Open Scope string_scope.

Lemma fold_messagesCount (l : list SessionStatistics) (a : nat) :
  fold_left (fun sum stat => sum + messagesCount stat) l a
  = a + sum_list_with messagesCount l.
Proof.
  revert a. induction l as [|x l IH]; intros a; simpl; [lia|].
  rewrite IH. lia.
Qed.

(** Overwriting a stored record by one with the same [messagesCount]
    changes neither the number of sessions nor the total of requests. *)
Lemma statistics_overwrite (m : gmap string SessionStatistics) (sid : string)
    (s s' : SessionStatistics) :
  m !! sid = Some s -> messagesCount s' = messagesCount s ->
  length (map snd (map_to_list (<[sid := s']> m)))
  = length (map snd (map_to_list m))
  /\ sum_list_with messagesCount (map snd (map_to_list (<[sid := s']> m)))
     = sum_list_with messagesCount (map snd (map_to_list m)).
Proof.
  intros Hs Hcount.
  assert (Hm : map_to_list m ≡ₚ (sid, s) :: map_to_list (delete sid m)).
  { rewrite <- (insert_delete_id m sid s Hs) at 1.
    apply map_to_list_insert, lookup_delete_eq. }
  assert (Hm' : map_to_list (<[sid := s']> m)
                ≡ₚ (sid, s') :: map_to_list (delete sid m)).
  { rewrite <- insert_delete_eq.
    apply map_to_list_insert, lookup_delete_eq. }
  split.
  - rewrite !length_map. rewrite Hm, Hm'. reflexivity.
  - change (map snd) with (fmap (M := list) (@snd string SessionStatistics)).
    rewrite Hm, Hm'. simpl. now rewrite Hcount.
Qed.

Lemma getSessionStatistics_run (sessionId : string) (now : Z) (w : World) :
  getSessionStatistics sessionId now w
  = match sessionStatistics w !! sessionId with
    | Some stats =>
        (Ok (setSessionDuration (now - startTime stats) stats),
         withSessionStatistics
           (<[sessionId := setSessionDuration (now - startTime stats) stats]>) w)
    | None =>
        (Ok (setSessionDuration (now - now) (freshStatistics sessionId now)), w)
    end.
Proof.
  unfold getSessionStatistics, bind, gets, modify, ret.
  destruct (sessionStatistics w !! sessionId); reflexivity.
Qed.

(** C10, as the code has it. [getSessionFeatures] changes nothing.
    [getSessionStatistics] never adds or removes a session and touches
    nothing but the statistics map: for a session without an entry it
    returns the defaults and leaves the whole state as it was (the session
    stays absent); for a session with an entry it overwrites the stored
    [sessionDuration] with [now - startTime] and leaves every other field
    and every other session alone. [getSystemStatistics] reads the same
    before and after. *)
Theorem session_reads_frame (sessionId : string) (now : Z) (w : World) :
  snd (getSessionFeatures sessionId w) = w
  /\ let w' := snd (getSessionStatistics sessionId now w) in
     sessionFeatures w' = sessionFeatures w
     /\ documents w' = documents w
     /\ documentMetadata w' = documentMetadata w
     /\ chatHistory w' = chatHistory w
     /\ moderationHistory w' = moderationHistory w
     /\ dom (sessionStatistics w') = dom (sessionStatistics w)
     /\ (forall other, other <> sessionId ->
           sessionStatistics w' !! other = sessionStatistics w !! other)
     /\ sessionStatistics w' !! sessionId
        = (fun stats => setSessionDuration (now - startTime stats) stats)
            <$> sessionStatistics w !! sessionId
     /\ (sessionStatistics w !! sessionId = None -> w' = w)
     /\ getSystemStatistics w' = getSystemStatistics w.
Proof.
  split; [reflexivity|].
  rewrite getSessionStatistics_run.
  destruct (sessionStatistics w !! sessionId) as [stats|] eqn:Hs.
  - simpl.
    split; [reflexivity|]. split; [reflexivity|]. split; [reflexivity|].
    split; [reflexivity|]. split; [reflexivity|]. split; [|split; [|split; [|split]]].
    + apply dom_insert_lookup_L. rewrite Hs. eauto.
    + intros other Hne. now apply lookup_insert_ne.
    + apply lookup_insert_eq.
    + discriminate.
    + unfold getSystemStatistics. simpl.
      destruct (statistics_overwrite (sessionStatistics w) sessionId stats
                  (setSessionDuration (now - startTime stats) stats) Hs eq_refl)
        as [Hlen Hsum].
      rewrite !fold_messagesCount, Hlen, Hsum. reflexivity.
  - simpl. rewrite Hs. repeat split; reflexivity.
Qed.

(** C10 as stated fails: reading the statistics of a session that has an
    entry writes the recomputed duration into the stored record. *)
Lemma getSessionStatistics_writes_duration :
  ~ (forall sessionId now w,
       sessionStatistics (snd (getSessionStatistics sessionId now w))
       = sessionStatistics w).
Proof.
  intros H. specialize (H "s" 5%Z worldWithOneMessage).
  apply (f_equal (fun m => sessionDuration <$> m !! "s")) in H.
  vm_compute in H. discriminate H.
Qed.

End SessionReads.

(** ** Intent classification *)

Section IntentClassifier.
Import IntegrationService.
Local Open Scope string_scope.

Lemma startsWith_spec (p s : list ascii) :
  JS.startsWith p s = true <-> exists rest, s = (p ++ rest)%list.
Proof.
  revert s. induction p as [|a p IH]; intros s; simpl.
  - split; [intros _; now exists s | reflexivity].
  - destruct s as [|b s].
    + split; [discriminate | intros [rest H]; discriminate].
    + rewrite andb_true_iff, IH, Ascii.eqb_eq. split.
      * intros [-> [rest ->]]. now exists rest.
      * intros [rest [= -> ->]]. split; [reflexivity | now exists rest].
Qed.

Lemma includes_spec (needle hay : list ascii) :
  JS.includes needle hay = true <-> occursIn needle hay.
Proof.
  unfold occursIn. induction hay as [|c hay IH]; simpl.
  - rewrite orb_false_r, startsWith_spec. split.
    + intros [rest H]. exists [], rest. exact H.
    + intros (before & after & H).
      destruct before; [|discriminate]. now exists after.
  - rewrite orb_true_iff, startsWith_spec, IH. split.
    + intros [[rest H]|(before & after & H)].
      * exists [], rest. exact H.
      * exists (c :: before), after. simpl. now rewrite H.
    + intros (before & after & H). destruct before as [|b before].
      * left. now exists after.
      * right. injection H as _ H. now exists before, after.
Qed.

Lemma existsb_includes (keywords : list string) (lower : list ascii) :
  existsb (fun keyword => JS.includes (chars keyword) lower) keywords = true
  <-> exists k, In k keywords /\ occursIn (chars k) lower.
Proof.
  rewrite existsb_exists. split; intros (k & Hk & H); exists k; split;
    try assumption; now apply includes_spec.
Qed.

(** C7. Classification looks for the trigger phrases in the lower-cased
    message: an image trigger gives [image_generation]; otherwise a
    knowledge-base trigger gives [knowledge_base_query]; otherwise the
    result is [general_chat]. Messages that agree after lower-casing are
    classified alike, and the three sample messages fall where the
    specification puts them. *)
Theorem analyzeRequestType_precedence (message : string) :
  let lower := JS.toLowerCase (chars message) in
  let imageTrigger := exists k, In k imageKeywords /\ occursIn (chars k) lower in
  let kbTrigger := exists k, In k kbKeywords /\ occursIn (chars k) lower in
  (imageTrigger -> analyzeRequestType message = "image_generation")
  /\ (~ imageTrigger -> kbTrigger ->
        analyzeRequestType message = "knowledge_base_query")
  /\ (~ imageTrigger -> ~ kbTrigger -> analyzeRequestType message = "general_chat")
  /\ imageKeywords
     = ["generate image"; "create image"; "draw"; "picture of"; "image of";
        "generate a"; "create a"]
  /\ kbKeywords
     = ["what is"; "explain"; "how does"; "tell me about"; "definition of";
        "describe"]
  /\ (forall other, JS.toLowerCase (chars other) = lower ->
        analyzeRequestType other = analyzeRequestType message)
  /\ analyzeRequestType "Generate image of a cat" = "image_generation"
  /\ analyzeRequestType "What is a cat" = "knowledge_base_query"
  /\ analyzeRequestType "Hello there" = "general_chat".
Proof.
  intros lower imageTrigger kbTrigger.
  pose proof (existsb_includes imageKeywords lower) as Himg.
  pose proof (existsb_includes kbKeywords lower) as Hkb.
  fold imageTrigger in Himg. fold kbTrigger in Hkb.
  assert (Hclass :
    analyzeRequestType message
    = if existsb (fun keyword => JS.includes (chars keyword) lower) imageKeywords
      then "image_generation"
      else if existsb (fun keyword => JS.includes (chars keyword) lower) kbKeywords
           then "knowledge_base_query" else "general_chat") by reflexivity.
  split; [|split; [|split; [|split; [|split; [|split]]]]].
  - intros Hi. apply Himg in Hi. now rewrite Hclass, Hi.
  - intros Hni Hk. apply Hkb in Hk. rewrite Hclass, Hk.
    destruct (existsb _ imageKeywords); [|reflexivity].
    exfalso. apply Hni, Himg. reflexivity.
  - intros Hni Hnk. rewrite Hclass.
    destruct (existsb _ imageKeywords); [exfalso; apply Hni, Himg; reflexivity|].
    destruct (existsb _ kbKeywords); [exfalso; apply Hnk, Hkb; reflexivity|].
    reflexivity.
  - reflexivity.
  - reflexivity.
  - intros other Hother. rewrite Hclass. unfold analyzeRequestType.
    now rewrite Hother.
  - vm_compute. repeat split.
Qed.

Lemma analyzeRequestType_upper_case :
  analyzeRequestType "PLEASE DRAW A WHALE" = "image_generation"
  /\ analyzeRequestType "Could you Explain what is a whale" = "knowledge_base_query"
  /\ analyzeRequestType "what is it? draw it" = "image_generation".
Proof. vm_compute. repeat split. Qed.

End IntentClassifier.

(** ** Cosine similarity *)

Section CosineSimilarity.
Import Similarity.

Lemma similarity_throws_iff {T} (N : Number T) (a b : list T) :
  (exists m, calculateCosineSimilarity N a b = Throw m) <-> length a <> length b.
Proof.
  unfold calculateCosineSimilarity.
  destruct (Nat.eqb (length a) (length b)) eqn:E; simpl.
  - apply Nat.eqb_eq in E. split; [|contradiction].
    intros [m H].
    destruct (fold_left _ _ _) as [[d na] nb].
    destruct (isZero N (sqrt N na) || isZero N (sqrt N nb)); discriminate.
  - apply Nat.eqb_neq in E. split; [intros _; exact E | eauto].
Qed.





End CosineSimilarity.


(** ** The chunker *)

Section Trim.
Import JS.

Lemma trimStart_startsTight (s : list ascii) : startsTight (trimStart s).
Proof.
  induction s as [|c s IH]; simpl; [exact I|].
  destruct (isWhiteSpace c) eqn:E; [exact IH | exact E].
Qed.

Lemma trimStart_keeps_last (l : list ascii) (c : ascii) :
  isWhiteSpace c = false -> exists q, trimStart (l ++ [c]) = q ++ [c].
Proof.
  intros Hc. induction l as [|d l IH]; simpl.
  - rewrite Hc. now exists [].
  - destruct (isWhiteSpace d); [exact IH|]. now exists (d :: l).
Qed.

Lemma trim_startsTight (s : list ascii) : startsTight (trim s).
Proof.
  unfold trim, trimEnd.
  pose proof (trimStart_startsTight s) as H.
  destruct (trimStart s) as [|c r]; [exact I|]. simpl in H.
  simpl rev. destruct (trimStart_keeps_last (rev r) c H) as [q ->].
  rewrite rev_app_distr. simpl. exact H.
Qed.

Lemma trim_endsTight (s : list ascii) : startsTight (rev (trim s)).
Proof.
  unfold trim, trimEnd. rewrite rev_involutive. apply trimStart_startsTight.
Qed.

Lemma trimStart_keeps (t : list ascii) :
  t <> [] -> startsTight t ->
  forall before after,
    exists before', trimStart (before ++ t ++ after) = before' ++ t ++ after.
Proof.
  intros Hne Ht before after. induction before as [|c before IH]; simpl.
  - exists []. destruct t as [|c t]; [contradiction|].
    simpl in *. now rewrite Ht.
  - destruct (isWhiteSpace c); [exact IH|]. now exists (c :: before).
Qed.

(** Trimming a buffer does not cut into a sentence it contains. *)
Lemma trim_keeps (t : list ascii) :
  t <> [] -> startsTight t -> startsTight (rev t) ->
  forall before after,
    exists before' after', trim (before ++ t ++ after) = before' ++ t ++ after'.
Proof.
  intros Hne Hs He before after. unfold trim, trimEnd.
  destruct (trimStart_keeps t Hne Hs before after) as [before' ->].
  rewrite !rev_app_distr, <- app_assoc.
  assert (Hrev : rev t <> []).
  { intros H. apply (f_equal (@rev ascii)) in H.
    rewrite rev_involutive in H. contradiction. }
  destruct (trimStart_keeps (rev t) Hrev He (rev after) (rev before'))
    as [after' ->].
  exists before', (rev after').
  rewrite !rev_app_distr, !rev_involutive, <- app_assoc. reflexivity.
Qed.

Lemma In_trimStart (c : ascii) (s : list ascii) :
  In c s -> isWhiteSpace c = false -> In c (trimStart s).
Proof.
  intros Hin Hc. induction s as [|d s IH]; simpl; [contradiction|].
  destruct (isWhiteSpace d) eqn:E; [|exact Hin].
  destruct Hin as [->|Hin]; [congruence | now apply IH].
Qed.

Lemma In_trim (c : ascii) (s : list ascii) :
  In c s -> isWhiteSpace c = false -> In c (trim s).
Proof.
  intros Hin Hc. unfold trim, trimEnd.
  apply in_rev. rewrite rev_involutive.
  apply In_trimStart; [|exact Hc].
  apply -> in_rev. now apply In_trimStart.
Qed.

Lemma splitRuns_covers (inRun : bool) (acc s : list ascii) (c : ascii) :
  In c acc \/ In c s -> isTerminator c = false ->
  exists fragment, In fragment (splitRuns inRun acc s) /\ In c fragment.
Proof.
  intros Hin Hc. revert inRun acc Hin.
  induction s as [|d s IH]; intros inRun acc Hin; simpl.
  - exists (rev acc). split; [now left|].
    destruct Hin as [Hin|[]]. now apply -> in_rev.
  - destruct (isTerminator d) eqn:Hd.
    + assert (Hcd : c <> d) by congruence.
      destruct inRun.
      * apply IH. destruct Hin as [Hin|[Hin|Hin]]; auto. congruence.
      * destruct Hin as [Hin|[Hin|Hin]].
        -- exists (rev acc). split; [now left | now apply -> in_rev].
        -- congruence.
        -- destruct (IH true [] (or_intror Hin)) as (f & Hf & Hcf).
           exists f. split; [now right | exact Hcf].
    + apply IH. destruct Hin as [Hin|[Hin|Hin]]; simpl; auto.
Qed.

Lemma joinSpaces_snoc (g : list (list ascii)) (t : list ascii) :
  joinSpaces (g ++ [t])
  = match g with
    | [] => t
    | _ :: _ => joinSpaces g ++ " "%char :: t
    end.
Proof.
  induction g as [|w g IH]; [reflexivity|].
  destruct g as [|w' g]; [reflexivity|].
  change (joinSpaces ((w :: w' :: g) ++ [t]))
    with (w ++ " "%char :: joinSpaces ((w' :: g) ++ [t])).
  rewrite IH. simpl. now rewrite <- app_assoc.
Qed.

Lemma joinSpaces_In (g : list (list ascii)) (s : list ascii) :
  In s g -> exists before after, joinSpaces g = before ++ s ++ after.
Proof.
  induction g as [|w g IH]; intros Hin; [contradiction|].
  destruct g as [|w' g].
  - destruct Hin as [->|[]]. exists [], []. simpl. now rewrite app_nil_r.
  - change (joinSpaces (w :: w' :: g)) with (w ++ " "%char :: joinSpaces (w' :: g)).
    destruct Hin as [->|Hin].
    + exists [], (" "%char :: joinSpaces (w' :: g)). reflexivity.
    + destruct (IH Hin) as (before & after & ->).
      exists (w ++ " "%char :: before), after. now rewrite <- app_assoc.
Qed.

End Trim.

Section Chunker.
Import JS EmbeddingService.

Lemma joinSpaces_nonempty (g : list (list ascii)) :
  g <> [] -> Forall (fun t => t <> []) g -> joinSpaces g <> [].
Proof.
  intros Hg Hall. destruct g as [|w g]; [contradiction|].
  apply Forall_cons in Hall as [Hw _].
  destruct g as [|w' g]; [exact Hw|].
  change (joinSpaces (w :: w' :: g)) with (w ++ " "%char :: joinSpaces (w' :: g)).
  destruct w; [contradiction | discriminate].
Qed.

Lemma chunkLoop_cons (maxChunkSize overlapSize : nat) (sentence : list ascii)
    (rest chunks : list (list ascii)) (currentChunk : list ascii) :
  chunkLoop maxChunkSize overlapSize (sentence :: rest) chunks currentChunk
  = if Nat.ltb maxChunkSize (length currentChunk + length (trim sentence))
       && Nat.ltb 0 (length currentChunk)
    then chunkLoop maxChunkSize overlapSize rest (chunks ++ [trim currentChunk])
           (joinSpaces (sliceLast (overlapSize / 5) (splitSpaces currentChunk))
              ++ " "%char :: trim sentence)
    else chunkLoop maxChunkSize overlapSize rest chunks
           (currentChunk
              ++ (match currentChunk with [] => [] | _ :: _ => [" "%char] end)
              ++ trim sentence).
Proof. reflexivity. Qed.

(** The loop keeps the buffer in the form [seed ++ joinSpaces group],
    where [group] holds the sentences read since the last cut, and every
    chunk it pushes is the trimmed buffer of a completed group. *)
Lemma chunkLoop_groups (maxChunkSize overlapSize : nat)
    (sentences : list (list ascii)) :
  Forall (fun s => trim s <> []) sentences ->
  forall (chunks : list (list ascii)) (seed : list ascii) (group : list (list ascii)),
    (group = [] -> seed = []) ->
    Forall (fun t => t <> []) group ->
    exists (done : list (list ascii * list (list ascii)))
           (seed' : list ascii) (group' : list (list ascii)),
      chunkLoop maxChunkSize overlapSize sentences chunks (seed ++ joinSpaces group)
      = (chunks ++ map (fun sg => chunkOf (fst sg) (snd sg)) done,
         seed' ++ joinSpaces group')
      /\ concat (map snd done) ++ group' = group ++ map trim sentences
      /\ Forall (fun sg => snd sg <> []) done
      /\ (group' = [] -> seed' = [])
      /\ Forall (fun t => t <> []) group'
      /\ (group' = [] -> sentences = [] /\ group = []).
Proof.
  induction sentences as [|s rest IH]; intros Hsent chunks seed group Hseed Hgroup.
  - exists [], seed, group. simpl. rewrite !app_nil_r.
    repeat split; auto.
  - apply Forall_cons in Hsent as [Hs Hrest]. specialize (IH Hrest).
    rewrite chunkLoop_cons.
    set (current := seed ++ joinSpaces group).
    set (t := trim s) in *.
    destruct (Nat.ltb maxChunkSize (length current + length t)
              && Nat.ltb 0 (length current)) eqn:Hcut.
    + (* cut: emit the buffer, reseed with the overlap *)
      apply andb_true_iff in Hcut as [_ Hlen]. apply Nat.ltb_lt in Hlen.
      assert (Hg : group <> []).
      { intros ->. unfold current in Hlen.
        rewrite (Hseed eq_refl) in Hlen. simpl in Hlen. lia. }
      set (overlap := joinSpaces (sliceLast (overlapSize / 5) (splitSpaces current))).
      destruct (IH (chunks ++ [trim current]) (overlap ++ [" "%char]) [t])
        as (done & seed' & group' & Hrun & Hcat & Hdone & Hs' & Hg' & Hnil).
      { discriminate. }
      { constructor; [exact Hs | constructor]. }
      exists ((seed, group) :: done), seed', group'.
      split; [|split; [|split; [|split; [|split]]]].
      * simpl joinSpaces in Hrun. rewrite <- app_assoc in Hrun. simpl in Hrun.
        rewrite Hrun. rewrite <- app_assoc. reflexivity.
      * simpl. rewrite <- app_assoc, Hcat. reflexivity.
      * constructor; [exact Hg | exact Hdone].
      * exact Hs'.
      * exact Hg'.
      * intros H. destruct (Hnil H) as [_ Habs]. discriminate.
    + (* append the sentence to the buffer *)
      destruct group as [|g0 group].
      * assert (Hcur : current = []) by (unfold current; now rewrite Hseed).
        rewrite Hcur. simpl app.
        destruct (IH chunks [] [t])
          as (done & seed' & group' & Hrun & Hcat & Hdone & Hs' & Hg' & Hnil).
        { reflexivity. }
        { constructor; [exact Hs | constructor]. }
        exists done, seed', group'. simpl in Hrun.
        split; [exact Hrun|]. split; [exact Hcat|]. split; [exact Hdone|].
        split; [exact Hs'|]. split; [exact Hg'|].
        intros H. destruct (Hnil H) as [_ Habs]. discriminate.
      * assert (Hne : current <> []).
        { unfold current. intros H. apply app_eq_nil in H as [_ H].
          revert H. now apply joinSpaces_nonempty. }
        destruct (IH chunks seed ((g0 :: group) ++ [t]))
          as (done & seed' & group' & Hrun & Hcat & Hdone & Hs' & Hg' & Hnil).
        { intros H. destruct group; discriminate. }
        { apply Forall_app. split; [exact Hgroup|].
          constructor; [exact Hs | constructor]. }
        exists done, seed', group'.
        rewrite joinSpaces_snoc in Hrun.
        split; [|split; [|split; [|split; [|split]]]]; auto.
        -- rewrite <- Hrun. f_equal. unfold current.
           destruct (seed ++ joinSpaces (g0 :: group)) eqn:E;
             [contradiction|].
           rewrite <- E, <- app_assoc. reflexivity.
        -- rewrite Hcat, <- app_assoc. reflexivity.
        -- intros H. destruct (Hnil H) as [_ Habs].
           destruct group; discriminate.
Qed.

End Chunker.

Section ChunkerClaim.
Import JS EmbeddingService.

Lemma groupIndex_mono {A} (groups : list (list A)) (i j : nat) :
  i <= j -> groupIndex groups i <= groupIndex groups j.
Proof.
  revert i j. induction groups as [|g rest IH]; intros i j Hij; simpl; [lia|].
  destruct (Nat.ltb i (length g)) eqn:Hi; [lia|].
  apply Nat.ltb_ge in Hi.
  destruct (Nat.ltb j (length g)) eqn:Hj.
  - apply Nat.ltb_lt in Hj. lia.
  - apply le_n_S, IH. lia.
Qed.

Lemma groupIndex_spec {A} (groups : list (list A)) (i : nat) (x : A) :
  concat groups !! i = Some x ->
  exists g, groups !! groupIndex groups i = Some g /\ In x g.
Proof.
  revert i. induction groups as [|g rest IH]; intros i Hi; simpl in *;
    [discriminate|].
  destruct (Nat.ltb i (length g)) eqn:Hlt.
  - apply Nat.ltb_lt in Hlt. rewrite lookup_app_l in Hi by exact Hlt.
    exists g. split; [reflexivity|].
    apply list_elem_of_In, list_elem_of_lookup. eauto.
  - apply Nat.ltb_ge in Hlt. rewrite lookup_app_r in Hi by exact Hlt.
    destruct (IH _ Hi) as (g' & Hg' & Hx). exists g'. split; assumption.
Qed.

Lemma zip_with_fst_snd {A B C} (f : A -> B -> C) (l : list (A * B)) :
  zip_with f (map fst l) (map snd l) = map (fun ab => f (fst ab) (snd ab)) l.
Proof. induction l as [|[a b] l IH]; simpl; [reflexivity | now rewrite IH]. Qed.

(** A chunk contains every sentence of its group. *)
Lemma chunkOf_contains (seed : list ascii) (group : list (list ascii))
    (s : list ascii) :
  In s group -> s <> [] -> startsTight s -> startsTight (rev s) ->
  occursIn s (chunkOf seed group).
Proof.
  intros Hin Hne Hs He. unfold chunkOf, occursIn.
  destruct (joinSpaces_In group s Hin) as (before & after & ->).
  rewrite app_assoc.
  apply (trim_keeps s Hne Hs He).
Qed.

Lemma sentencesOf_sentence (text s : list ascii) :
  In s (sentencesOf text) -> s <> [] /\ startsTight s /\ startsTight (rev s).
Proof.
  unfold sentencesOf. intros Hin. apply in_map_iff in Hin as (s0 & <- & Hs0).
  apply filter_In in Hs0 as [_ Hnb]. unfold nonBlank in Hnb.
  apply Nat.ltb_lt in Hnb. split; [|split].
  - intros H. rewrite H in Hnb. simpl in Hnb. lia.
  - apply trim_startsTight.
  - apply trim_endsTight.
Qed.

(** The chunks are the trimmed buffers of consecutive groups of
    sentences. *)
Lemma splitTextIntoChunks_groups (text : list ascii) (maxChunkSize overlapSize : nat) :
  exists done : list (list ascii * list (list ascii)),
    splitTextIntoChunks text maxChunkSize overlapSize
    = map (fun sg => chunkOf (fst sg) (snd sg)) done
    /\ concat (map snd done) = sentencesOf text
    /\ Forall (fun sg => snd sg <> []) done.
Proof.
  unfold splitTextIntoChunks.
  set (sentences := List.filter nonBlank (splitSentences text)).
  assert (Hsent : Forall (fun s => trim s <> []) sentences).
  { apply List.Forall_forall. intros s Hs. apply filter_In in Hs as [_ Hnb].
    unfold nonBlank in Hnb. apply Nat.ltb_lt in Hnb.
    intros H. rewrite H in Hnb. simpl in Hnb. lia. }
  destruct (chunkLoop_groups maxChunkSize overlapSize sentences Hsent [] [] [])
    as (done & seed' & group' & Hrun & Hcat & Hdone & Hs' & Hg' & Hnil);
    [reflexivity | constructor |].
  simpl in Hrun, Hcat. rewrite Hrun.
  change (map trim sentences) with (sentencesOf text) in Hcat.
  destruct group' as [|s group'].
  - rewrite (Hs' eq_refl). simpl. exists done.
    rewrite app_nil_r in Hcat. auto.
  - assert (Hin : In s (sentencesOf text)).
    { rewrite <- Hcat. apply in_or_app. right. now left. }
    destruct (sentencesOf_sentence text s Hin) as (Hne & Hst & Het).
    destruct (chunkOf_contains seed' (s :: group') s (or_introl eq_refl) Hne Hst Het)
      as (before & after & Hchunk).
    unfold chunkOf in Hchunk.
    assert (Hpos : Nat.ltb 0 (length (trim (seed' ++ joinSpaces (s :: group')))) = true).
    { apply Nat.ltb_lt. rewrite Hchunk, !length_app.
      destruct s; [contradiction | simpl; lia]. }
    rewrite Hpos. exists (done ++ [(seed', s :: group')]).
    rewrite !map_app, concat_app. simpl. rewrite app_nil_r.
    split; [reflexivity|]. split; [exact Hcat|].
    apply Forall_app. split; [exact Hdone|]. constructor; [discriminate | constructor].
Qed.

Lemma sentence_in_chunk (text : list ascii) (maxChunkSize overlapSize : nat)
    (done : list (list ascii * list (list ascii))) :
  splitTextIntoChunks text maxChunkSize overlapSize
  = map (fun sg => chunkOf (fst sg) (snd sg)) done ->
  concat (map snd done) = sentencesOf text ->
  forall i s, sentencesOf text !! i = Some s ->
    exists chunk,
      splitTextIntoChunks text maxChunkSize overlapSize
        !! groupIndex (map snd done) i = Some chunk
      /\ occursIn s chunk.
Proof.
  intros Hchunks Hcat i s Hi.
  assert (Hin : In s (sentencesOf text)).
  { apply list_elem_of_In, list_elem_of_lookup. eauto. }
  destruct (sentencesOf_sentence text s Hin) as (Hne & Hst & Het).
  rewrite <- Hcat in Hi.
  destruct (groupIndex_spec _ _ _ Hi) as (g & Hg & Hsg).
  rewrite list_lookup_fmap in Hg.
  destruct (done !! groupIndex (map snd done) i) as [[seed g']|] eqn:Hd;
    [|discriminate].
  simpl in Hg. injection Hg as ->.
  exists (chunkOf seed g). split.
  - rewrite Hchunks, list_lookup_fmap, Hd. reflexivity.
  - now apply chunkOf_contains.
Qed.

(** Every character of the text that is neither white space nor a
    terminator belongs to a sentence, hence to a chunk. *)
Lemma character_in_chunk (text : list ascii) (maxChunkSize overlapSize : nat)
    (c : ascii) :
  In c text -> isWhiteSpace c = false -> isTerminator c = false ->
  exists chunk,
    In chunk (splitTextIntoChunks text maxChunkSize overlapSize) /\ In c chunk.
Proof.
  intros Hc Hws Hterm.
  destruct (splitTextIntoChunks_groups text maxChunkSize overlapSize)
    as (done & Hchunks & Hcat & _).
  destruct (splitRuns_covers false [] text c (or_intror Hc) Hterm)
    as (fragment & Hfrag & Hcf).
  pose proof (In_trim c fragment Hcf Hws) as Hct.
  assert (Hs : In (trim fragment) (sentencesOf text)).
  { unfold sentencesOf. apply in_map. apply filter_In.
    split; [exact Hfrag|]. unfold nonBlank. apply Nat.ltb_lt.
    destruct (trim fragment); [contradiction | simpl; lia]. }
  apply list_elem_of_In, list_elem_of_lookup in Hs as [i Hi].
  destruct (sentence_in_chunk text maxChunkSize overlapSize done Hchunks Hcat i _ Hi)
    as (chunk & Hchunk & before & after & ->).
  exists (before ++ trim fragment ++ after). split.
  - apply list_elem_of_In, list_elem_of_lookup. eauto.
  - apply in_or_app. right. apply in_or_app. now left.
Qed.

(** C9. The chunks are, in order, the trimmed buffers of consecutive
    non-empty groups of the sentences of the text, each buffer being an
    overlap seed followed by the sentences of its group joined by spaces.
    So the sentence at index [i] occurs as a whole in the chunk at index
    [groupIndex groups i], which grows with [i]: no sentence is dropped
    and none is reordered. In particular every character of the text that
    is neither white space nor a terminator appears in some chunk. *)
Theorem chunker_covers_sentences_in_order (text : list ascii)
    (maxChunkSize overlapSize : nat) :
  let chunks := splitTextIntoChunks text maxChunkSize overlapSize in
  let sentences := sentencesOf text in
  exists (seeds : list (list ascii)) (groups : list (list (list ascii))),
    concat groups = sentences
    /\ Forall (fun g => g <> []) groups
    /\ length seeds = length groups
    /\ chunks = zip_with chunkOf seeds groups
    /\ (forall i s, sentences !! i = Some s ->
          exists chunk,
            chunks !! groupIndex groups i = Some chunk /\ occursIn s chunk)
    /\ (forall i j, i <= j -> groupIndex groups i <= groupIndex groups j)
    /\ (forall c, In c text -> isWhiteSpace c = false -> isTerminator c = false ->
          exists chunk, In chunk chunks /\ In c chunk).
Proof.
  intros chunks sentences.
  destruct (splitTextIntoChunks_groups text maxChunkSize overlapSize)
    as (done & Hchunks & Hcat & Hdone).
  exists (map fst done), (map snd done).
  split; [exact Hcat|]. split.
  { apply Forall_fmap. exact Hdone. }
  split; [now rewrite !length_map|]. split.
  { rewrite zip_with_fst_snd. exact Hchunks. }
  split.
  { now apply sentence_in_chunk. }
  split.
  { intros i j. apply groupIndex_mono. }
  apply character_in_chunk.
Qed.

Lemma splitRuns_fragments (inRun : bool) (acc s fragment : list ascii) (c : ascii) :
  In fragment (splitRuns inRun acc s) -> In c fragment ->
  In c acc \/ (In c s /\ isTerminator c = false).
Proof.
  revert inRun acc. induction s as [|d s IH]; intros inRun acc Hf Hc; simpl in Hf.
  - destruct Hf as [<-|[]]. left. now apply in_rev.
  - destruct (isTerminator d) eqn:Hd.
    + destruct inRun.
      * destruct (IH _ _ Hf Hc) as [H|[H Ht]]; [now left | right; split; auto].
        now right.
      * destruct Hf as [<-|Hf]; [left; now apply in_rev|].
        destruct (IH _ _ Hf Hc) as [[]|[H Ht]]. right. split; [now right | exact Ht].
    + destruct (IH _ _ Hf Hc) as [[<-|H]|[H Ht]].
      * right. split; [now left | exact Hd].
      * now left.
      * right. split; [now right | exact Ht].
Qed.

Lemma filter_none {A} (f : A -> bool) (l : list A) :
  (forall x, In x l -> f x = false) -> List.filter f l = [].
Proof.
  induction l as [|x l IH]; intros H; simpl; [reflexivity|].
  rewrite (H x (or_introl eq_refl)). apply IH. intros y Hy. apply H. now right.
Qed.

Lemma trim_blank (s : list ascii) :
  Forall (fun c => isWhiteSpace c = true) s -> trim s = [].
Proof.
  intros Hall. unfold trim, trimEnd.
  assert (Hstart : trimStart s = []).
  { induction Hall as [|c s Hc _ IH]; simpl; [reflexivity | now rewrite Hc]. }
  rewrite Hstart. reflexivity.
Qed.

(** Chunking yields no chunk exactly for texts made of white space and
    sentence terminators only. *)
Lemma zero_chunks_iff_blank (text : list ascii) (maxChunkSize overlapSize : nat) :
  splitTextIntoChunks text maxChunkSize overlapSize = []
  <-> Forall (fun c => isWhiteSpace c || isTerminator c = true) text.
Proof.
  split.
  - intros Hnil. apply List.Forall_forall. intros c Hc.
    destruct (isWhiteSpace c) eqn:Hws; [reflexivity|].
    destruct (isTerminator c) eqn:Ht; [reflexivity|]. exfalso.
    destruct (character_in_chunk text maxChunkSize overlapSize c Hc Hws Ht)
      as (chunk & Hin & _).
    rewrite Hnil in Hin. exact Hin.
  - intros Hblank.
    destruct (splitTextIntoChunks_groups text maxChunkSize overlapSize)
      as (done & -> & Hcat & Hdone).
    assert (Hnone : sentencesOf text = []).
    { unfold sentencesOf.
      replace (List.filter nonBlank (splitSentences text)) with (@nil (list ascii));
        [reflexivity|].
      symmetry. apply filter_none. intros fragment Hf.
      unfold nonBlank. rewrite trim_blank; [reflexivity|].
      apply List.Forall_forall. intros c Hc.
      destruct (splitRuns_fragments false [] text fragment c Hf Hc)
        as [[]|[Hct Hterm]].
      rewrite List.Forall_forall in Hblank. specialize (Hblank c Hct).
      rewrite Hterm, orb_false_r in Hblank. exact Hblank. }
    rewrite Hnone in Hcat.
    destruct done as [|[seed g] done]; [reflexivity|].
    apply Forall_cons in Hdone as [Hg _]. simpl in Hg, Hcat.
    destruct g; [contradiction | discriminate].
Qed.

Example splitTextIntoChunks_sample :
  splitTextIntoChunks (chars "Hello world. How are you?  Fine!") 20 10
  = [chars "Hello world"; chars "Hello world How are you"; chars "are you Fine"].
Proof. vm_compute. reflexivity. Qed.

Example splitTextIntoChunks_long_sentence :
  splitTextIntoChunks (chars "A sentence longer than the limit. Short.") 10 10
  = [chars "A sentence longer than the limit"; chars "the limit Short"].
Proof. vm_compute. reflexivity. Qed.

End ChunkerClaim.

(** Content made of white space and terminators only, such as ["..."],
    is stored as a document without chunks. *)
Lemma addDocument_blank_content (api : Capabilities) (newId : string) (now : Z)
    (filename content : string) (w : World) :
  Forall (fun c => JS.isWhiteSpace c || JS.isTerminator c = true) (chars content) ->
  fst (KnowledgeBaseService.addDocument api newId now filename content w)
  = Ok {| KnowledgeBaseService.documentId := newId;
          KnowledgeBaseService.chunkCount := 0;
          KnowledgeBaseService.tokenCount := 0 |}.
Proof.
  intros Hblank. rewrite addDocument_run. cbv zeta.
  rewrite (proj2 (zero_chunks_iff_blank (chars content) 800 80) Hblank).
  reflexivity.
Qed.

Example addDocument_failed_embedding :
  KnowledgeBaseService.addDocument offlineApi "doc_1" 0 "notes.txt"
    "Embeddings map text to vectors." emptyWorld
  = (Throw "Document processing failed: Batch embedding generation failed: Embedding generation failed: service unavailable",
     emptyWorld).
Proof. vm_compute. reflexivity. Qed.

(** Ranking is by decreasing similarity, ties in insertion order. *)
Example findSimilarDocuments_sample :
  match EmbeddingGateway.findSimilarDocuments [1%float; 0%float]
          [ storedChunk 0 [0%float; 1%float];
            storedChunk 1 [1%float; 0%float];
            storedChunk 2 [1%float; 1%float];
            storedChunk 3 [2%float; 0%float] ] 3 with
  | Ok ranked => map (fun d => md_chunkIndex (de_metadata (fst d))) ranked = [1; 3; 2]
  | Throw _ => False
  end.
Proof. vm_compute. reflexivity. Qed.

Example isContentSafe_offline :
  fst (ModerationService.isContentSafe offlineApi "hello" "s" emptyWorld) = Ok false.
Proof. reflexivity. Qed.

(* ===================================================================== *)
(** * Further properties of the chunker *)
(* ===================================================================== *)

Section ChunkShape.
Import JS EmbeddingService.

Lemma trimStart_subset (c : ascii) (s : list ascii) : In c (trimStart s) -> In c s.
Proof.
  induction s as [|d s IH]; simpl; [tauto|].
  destruct (isWhiteSpace d); [intros H; right; now apply IH | tauto].
Qed.

Lemma trim_subset (c : ascii) (s : list ascii) : In c (trim s) -> In c s.
Proof.
  unfold trim, trimEnd. intros H.
  apply in_rev in H. apply trimStart_subset in H.
  apply in_rev in H. now apply trimStart_subset.
Qed.

Lemma trim_tight_id (s : list ascii) :
  startsTight s -> startsTight (rev s) -> trim s = s.
Proof.
  intros Hs He. unfold trim, trimEnd.
  assert (Hid : forall t, startsTight t -> trimStart t = t).
  { intros [|c t] Ht; simpl in *; [reflexivity | now rewrite Ht]. }
  rewrite (Hid s Hs), (Hid (rev s) He). apply rev_involutive.
Qed.

Lemma concat_length_groups {A} (groups : list (list A)) :
  Forall (fun g => g <> []) groups -> length groups <= length (concat groups).
Proof.
  induction 1 as [|g groups Hg _ IH]; simpl; [lia|].
  rewrite length_app. destruct g; [contradiction | simpl; lia].
Qed.

(** X1. Every chunk is non-empty and trimmed, and there are at most as many
    chunks as sentences. *)
Theorem chunks_trimmed_and_few (text : list ascii) (maxChunkSize overlapSize : nat) :
  let chunks := splitTextIntoChunks text maxChunkSize overlapSize in
  Forall (fun chunk =>
            chunk <> [] /\ startsTight chunk /\ startsTight (rev chunk)
            /\ trim chunk = chunk) chunks
  /\ length chunks <= length (sentencesOf text).
Proof.
  intros chunks.
  destruct (splitTextIntoChunks_groups text maxChunkSize overlapSize)
    as (done & Hchunks & Hcat & Hdone).
  fold chunks in Hchunks. split.
  - rewrite Hchunks. apply List.Forall_forall. intros chunk Hin.
    apply in_map_iff in Hin as ([seed g] & <- & Hsg). simpl.
    rewrite List.Forall_forall in Hdone. specialize (Hdone _ Hsg). simpl in Hdone.
    destruct g as [|s g]; [contradiction|].
    assert (Hs : In s (sentencesOf text)).
    { rewrite <- Hcat. apply in_concat. exists (s :: g). split; [|now left].
      apply in_map_iff. exists (seed, s :: g). split; [reflexivity | exact Hsg]. }
    destruct (sentencesOf_sentence text s Hs) as (Hne & Hst & Het).
    destruct (chunkOf_contains seed (s :: g) s (or_introl eq_refl) Hne Hst Het)
      as (before & after & Hc).
    assert (Hts : startsTight (chunkOf seed (s :: g))) by apply trim_startsTight.
    assert (Hte : startsTight (rev (chunkOf seed (s :: g)))) by apply trim_endsTight.
    split; [|split; [exact Hts | split; [exact Hte | now apply trim_tight_id]]].
    rewrite Hc. intros H. apply app_eq_nil in H as [_ H].
    apply app_eq_nil in H as [H _]. contradiction.
  - rewrite Hchunks, length_map, <- Hcat.
    rewrite <- (length_map snd done) at 1.
    apply concat_length_groups. apply Forall_fmap. exact Hdone.
Qed.

End ChunkShape.

Section ChunkCharacters.
Import JS EmbeddingService.

Lemma splitOn_chars (sep : ascii) (acc s w : list ascii) (c : ascii) :
  In w (splitOn sep acc s) -> In c w -> In c acc \/ In c s.
Proof.
  revert acc. induction s as [|d s IH]; intros acc Hw Hc; simpl in Hw.
  - destruct Hw as [<-|[]]. left. now apply in_rev.
  - destruct (Ascii.eqb d sep).
    + destruct Hw as [<-|Hw]; [left; now apply in_rev|].
      destruct (IH _ Hw Hc) as [[]|H]. right. now right.
    + destruct (IH _ Hw Hc) as [[<-|H]|H]; [right; now left | now left | right; now right].
Qed.

Lemma sliceLast_subset {A} (n : nat) (l : list A) (x : A) :
  In x (sliceLast n l) -> In x l.
Proof.
  unfold sliceLast. destruct (Nat.eqb n 0); [tauto|].
  intros H. rewrite <- (take_drop (length l - n) l). apply in_or_app. now right.
Qed.

Lemma joinSpaces_chars (ws : list (list ascii)) (c : ascii) :
  In c (joinSpaces ws) -> c = " "%char \/ exists w, In w ws /\ In c w.
Proof.
  induction ws as [|w ws IH]; intros Hc; [contradiction|].
  destruct ws as [|w' ws].
  - right. exists w. split; [now left | exact Hc].
  - change (joinSpaces (w :: w' :: ws)) with (w ++ " "%char :: joinSpaces (w' :: ws)) in Hc.
    apply in_app_or in Hc as [Hc|[Hc|Hc]].
    + right. exists w. split; [now left | exact Hc].
    + now left.
    + destruct (IH Hc) as [->|(x & Hx & Hcx)]; [now left|].
      right. exists x. split; [now right | exact Hcx].
Qed.

Lemma trim_Forall (P : ascii -> Prop) (s : list ascii) :
  Forall P s -> Forall P (trim s).
Proof.
  rewrite !List.Forall_forall. intros H c Hc. apply H. now apply trim_subset.
Qed.

(** Whatever holds of the space and of every character of the sentences
    holds of every character the loop puts into a chunk. *)
Lemma chunkLoop_chars (P : ascii -> Prop) (maxChunkSize overlapSize : nat) :
  P " "%char ->
  forall (sentences chunks : list (list ascii)) (currentChunk : list ascii),
    Forall (Forall P) sentences -> Forall (Forall P) chunks -> Forall P currentChunk ->
    Forall (Forall P) (fst (chunkLoop maxChunkSize overlapSize sentences chunks currentChunk))
    /\ Forall P (snd (chunkLoop maxChunkSize overlapSize sentences chunks currentChunk)).
Proof.
  intros Hsp. induction sentences as [|s rest IH]; intros chunks cur Hs Hchunks Hcur.
  - simpl. auto.
  - apply Forall_cons in Hs as [Hs Hrest]. rewrite chunkLoop_cons.
    assert (Ht : Forall P (trim s)) by now apply trim_Forall.
    destruct (_ && _).
    + apply IH; [exact Hrest | |].
      * apply Forall_app. split; [exact Hchunks|].
        constructor; [now apply trim_Forall | constructor].
      * apply Forall_app. split; [|constructor; assumption].
        apply List.Forall_forall. intros c Hc.
        apply joinSpaces_chars in Hc as [->|(w & Hw & Hc)]; [exact Hsp|].
        apply sliceLast_subset in Hw. unfold splitSpaces in Hw.
        destruct (splitOn_chars _ _ _ _ _ Hw Hc) as [[]|H].
        rewrite List.Forall_forall in Hcur. now apply Hcur.
    + apply IH; [exact Hrest | exact Hchunks |].
      apply Forall_app. split; [exact Hcur|].
      apply Forall_app. split; [|exact Ht].
      destruct cur; constructor; [exact Hsp | constructor].
Qed.

(** X2. A chunk holds characters of the text and single spaces only, and
    never a sentence terminator: the punctuation that ends a sentence is
    lost. *)
Theorem chunks_drop_terminators (text : list ascii) (maxChunkSize overlapSize : nat) :
  Forall (Forall (fun c => isTerminator c = false /\ (In c text \/ c = " "%char)))
    (splitTextIntoChunks text maxChunkSize overlapSize).
Proof.
  set (P := fun c => isTerminator c = false /\ (In c text \/ c = " "%char)).
  unfold splitTextIntoChunks.
  set (sentences := List.filter nonBlank (splitSentences text)).
  assert (Hsent : Forall (Forall P) sentences).
  { apply List.Forall_forall. intros s Hs. apply filter_In in Hs as [Hs _].
    apply List.Forall_forall. intros c Hc.
    destruct (splitRuns_fragments false [] text s c Hs Hc) as [[]|[Hct Hterm]].
    split; [exact Hterm | now left]. }
  assert (Hsp : P " "%char) by (split; [reflexivity | now right]).
  destruct (chunkLoop_chars P maxChunkSize overlapSize Hsp sentences [] []
              Hsent (List.Forall_nil _) (List.Forall_nil _)) as [Hchunks Hcur].
  destruct (chunkLoop maxChunkSize overlapSize sentences [] []) as [chunks cur].
  simpl in Hchunks, Hcur.
  destruct (Nat.ltb 0 (length (trim cur))); [|exact Hchunks].
  apply Forall_app. split; [exact Hchunks|].
  constructor; [now apply trim_Forall | constructor].
Qed.

(** X3. No chunk at all exactly for a text made of white space and terminators. *)
Theorem chunker_empty_iff_blank (text : list ascii) (maxChunkSize overlapSize : nat) :
  splitTextIntoChunks text maxChunkSize overlapSize = []
  <-> forall c, In c text -> isWhiteSpace c = true \/ isTerminator c = true.
Proof.
  rewrite zero_chunks_iff_blank, List.Forall_forall.
  split; intros H c Hc; specialize (H c Hc).
  - now apply orb_true_iff.
  - now apply orb_true_iff.
Qed.

End ChunkCharacters.

Section ChunkAccumulation.
Import JS EmbeddingService.

Lemma splitOn_nonempty (sep : ascii) (acc s : list ascii) : splitOn sep acc s <> [].
Proof.
  revert acc. induction s as [|c s IH]; intros acc; simpl; [discriminate|].
  destruct (Ascii.eqb c sep); [discriminate | apply IH].
Qed.

(** [s.split(" ").join(" ")] is [s]. *)
Lemma joinSpaces_splitOn (acc s : list ascii) :
  joinSpaces (splitOn " "%char acc s) = rev acc ++ s.
Proof.
  revert acc. induction s as [|c s IH]; intros acc.
  - simpl. now rewrite app_nil_r.
  - simpl splitOn. destruct (Ascii.eqb c " "%char) eqn:Hc.
    + apply Ascii.eqb_eq in Hc as ->.
      pose proof (splitOn_nonempty " "%char [] s) as Hne.
      specialize (IH []). destruct (splitOn " "%char [] s) as [|w ws]; [contradiction|].
      change (joinSpaces (rev acc :: w :: ws))
        with (rev acc ++ " "%char :: joinSpaces (w :: ws)).
      now rewrite IH.
    + rewrite IH. simpl. now rewrite <- app_assoc.
Qed.

Lemma joinSpaces_app_length (a b : list (list ascii)) :
  length (joinSpaces a) <= length (joinSpaces (a ++ b)).
Proof.
  induction a as [|w a IH]; [simpl; lia|].
  destruct a as [|w' a].
  - destruct b as [|w' b]; [simpl; lia|].
    change (joinSpaces ([w] ++ w' :: b)) with (w ++ " "%char :: joinSpaces (w' :: b)).
    rewrite length_app. simpl. lia.
  - change (joinSpaces ((w :: w' :: a) ++ b))
      with (w ++ " "%char :: joinSpaces ((w' :: a) ++ b)).
    change (joinSpaces (w :: w' :: a)) with (w ++ " "%char :: joinSpaces (w' :: a)).
    rewrite !length_app. cbn [length]. lia.
Qed.

Lemma joinSpaces_tight (g : list (list ascii)) :
  g <> [] -> Forall tightWord g -> tightWord (joinSpaces g).
Proof.
  induction g as [|w g IH]; intros Hg Hall; [contradiction|].
  apply Forall_cons in Hall as [(Hne & Hs & He) Hall].
  destruct g as [|w' g]; [now repeat split|].
  change (joinSpaces (w :: w' :: g)) with (w ++ " "%char :: joinSpaces (w' :: g)).
  destruct (IH ltac:(discriminate) Hall) as (Hne' & Hs' & He').
  split; [|split].
  - destruct w; [contradiction | discriminate].
  - destruct w; [contradiction | exact Hs].
  - rewrite rev_app_distr. cbn [rev].
    destruct (rev (joinSpaces (w' :: g))) as [|c r] eqn:Hr.
    + exfalso. apply Hne'. apply (f_equal (@rev ascii)) in Hr.
      now rewrite rev_involutive in Hr.
    + exact He'.
Qed.

Lemma trim_joinSpaces (g : list (list ascii)) :
  Forall tightWord g -> trim (joinSpaces g) = joinSpaces g.
Proof.
  intros Hall. destruct g as [|w g]; [reflexivity|].
  destruct (joinSpaces_tight (w :: g) ltac:(discriminate) Hall) as (_ & Hs & He).
  now apply trim_tight_id.
Qed.

(** Appending a sentence to a buffer that holds the sentences [pre]. *)
Lemma buffer_append (pre : list (list ascii)) (t : list ascii) :
  Forall tightWord pre ->
  (joinSpaces pre
     ++ (match joinSpaces pre with [] => [] | _ :: _ => [" "%char] end) ++ t)
  = joinSpaces (pre ++ [t]).
Proof.
  intros Hall. rewrite joinSpaces_snoc. destruct pre as [|w pre]; [reflexivity|].
  destruct (joinSpaces_tight (w :: pre) ltac:(discriminate) Hall) as (Hne & _).
  destruct (joinSpaces (w :: pre)); [contradiction | reflexivity].
Qed.

(** With a text that fits the limit the buffer is never flushed. *)
Lemma chunkLoop_fits (maxChunkSize overlapSize : nat) (sentences : list (list ascii)) :
  forall (pre chunks : list (list ascii)),
    Forall tightWord pre -> Forall tightWord (map trim sentences) ->
    length (joinSpaces (pre ++ map trim sentences)) <= maxChunkSize ->
    chunkLoop maxChunkSize overlapSize sentences chunks (joinSpaces pre)
    = (chunks, joinSpaces (pre ++ map trim sentences)).
Proof.
  induction sentences as [|s rest IH]; intros pre chunks Hpre Hall Hfit.
  - simpl. now rewrite app_nil_r.
  - rewrite chunkLoop_cons. simpl map in *.
    apply Forall_cons in Hall as [Hs Hrest].
    assert (Hpre' : Forall tightWord (pre ++ [trim s])).
    { apply Forall_app. split; [exact Hpre | constructor; [exact Hs | constructor]]. }
    replace (pre ++ trim s :: map trim rest)
      with ((pre ++ [trim s]) ++ map trim rest) in * by now rewrite <- app_assoc.
    assert (Hno : Nat.ltb maxChunkSize (length (joinSpaces pre) + length (trim s))
                  && Nat.ltb 0 (length (joinSpaces pre)) = false).
    { destruct pre as [|w pre]; [simpl; apply andb_false_r|].
      pose proof (joinSpaces_app_length ((w :: pre) ++ [trim s]) (map trim rest)) as Hlen.
      rewrite (joinSpaces_snoc (w :: pre)) in Hlen. cbv iota in Hlen.
      rewrite length_app in Hlen. cbn [length] in Hlen.
      apply andb_false_iff. left. apply Nat.ltb_ge. lia. }
    rewrite Hno, (buffer_append pre (trim s) Hpre). now apply IH.
Qed.

(** With an overlap of fewer than five characters [slice(-0)] keeps the
    whole buffer, so the buffer always holds every sentence read so far. *)
Lemma chunkLoop_keeps_everything (maxChunkSize overlapSize : nat)
    (sentences : list (list ascii)) :
  overlapSize / 5 = 0 ->
  forall (pre chunks : list (list ascii)),
    Forall tightWord pre -> Forall tightWord (map trim sentences) ->
    exists ks : list nat,
      chunkLoop maxChunkSize overlapSize sentences chunks (joinSpaces pre)
      = (chunks ++ map (fun k => joinSpaces (firstn k (pre ++ map trim sentences))) ks,
         joinSpaces (pre ++ map trim sentences))
      /\ Forall (fun k => 0 < k <= length (pre ++ map trim sentences)) ks.
Proof.
  intros Hzero. induction sentences as [|s rest IH]; intros pre chunks Hpre Hall.
  - exists []. simpl. now rewrite !app_nil_r.
  - rewrite chunkLoop_cons. simpl map in *.
    apply Forall_cons in Hall as [Hs Hrest].
    assert (Hpre' : Forall tightWord (pre ++ [trim s])).
    { apply Forall_app. split; [exact Hpre | constructor; [exact Hs | constructor]]. }
    replace (pre ++ trim s :: map trim rest)
      with ((pre ++ [trim s]) ++ map trim rest) by now rewrite <- app_assoc.
    destruct (_ && _) eqn:Hflush.
    + apply andb_true_iff in Hflush as [_ Hpos]. apply Nat.ltb_lt in Hpos.
      assert (Hne : pre <> []) by (intros ->; simpl in Hpos; lia).
      rewrite Hzero. unfold sliceLast, splitSpaces. simpl Nat.eqb. cbv iota.
      rewrite joinSpaces_splitOn. simpl rev. rewrite app_nil_l.
      replace (joinSpaces pre ++ " "%char :: trim s) with (joinSpaces (pre ++ [trim s]))
        by (rewrite joinSpaces_snoc; destruct pre; [contradiction | reflexivity]).
      rewrite (trim_joinSpaces pre Hpre).
      destruct (IH (pre ++ [trim s]) (chunks ++ [joinSpaces pre]) Hpre' Hrest)
        as (ks & -> & Hks).
      exists (length pre :: ks). split.
      * assert (Htake : firstn (length pre) ((pre ++ [trim s]) ++ map trim rest) = pre)
          by (rewrite <- app_assoc; apply take_app_length).
        cbn [map]. rewrite Htake, <- (app_assoc chunks). reflexivity.
      * constructor; [|exact Hks].
        rewrite !length_app. simpl. destruct pre; [contradiction | simpl; lia].
    + rewrite (buffer_append pre (trim s) Hpre). now apply IH.
Qed.

Lemma sentencesOf_tight (text : list ascii) : Forall tightWord (sentencesOf text).
Proof.
  apply List.Forall_forall. intros s Hs. exact (sentencesOf_sentence text s Hs).
Qed.

(** X4. A text whose sentences, joined by single spaces, fit [maxChunkSize]
    gives exactly one chunk: those sentences joined by single spaces. *)
Theorem short_text_is_one_chunk (text : list ascii) (maxChunkSize overlapSize : nat) :
  sentencesOf text <> [] ->
  length (joinSpaces (sentencesOf text)) <= maxChunkSize ->
  splitTextIntoChunks text maxChunkSize overlapSize = [joinSpaces (sentencesOf text)].
Proof.
  intros Hne Hfit. unfold splitTextIntoChunks.
  pose proof (sentencesOf_tight text) as Htight. unfold sentencesOf in *.
  set (sentences := List.filter nonBlank (splitSentences text)) in *.
  pose proof (chunkLoop_fits maxChunkSize overlapSize sentences [] []
                (List.Forall_nil _) Htight Hfit) as Hrun.
  change (joinSpaces []) with (@nil ascii) in Hrun. rewrite Hrun.
  simpl app. rewrite (trim_joinSpaces _ Htight).
  destruct (joinSpaces_tight _ Hne Htight) as (Hjoin & _).
  destruct (joinSpaces (map trim sentences)); [contradiction | reflexivity].
Qed.

Lemma short_text_is_one_chunk_witness :
  splitTextIntoChunks (chars "One.  Two!  Three?") 800 80 = [chars "One Two Three"].
Proof.
  apply (short_text_is_one_chunk (chars "One.  Two!  Three?") 800 80).
  - vm_compute. discriminate.
  - vm_compute. lia.
Defined.

(** X5. With [overlapSize] below five the overlap is the whole buffer: every
    chunk is a prefix of the sentence list joined by spaces, and the last
    chunk is the whole text again, whatever [maxChunkSize] is. *)
Theorem small_overlap_keeps_whole_buffer (text : list ascii)
    (maxChunkSize overlapSize : nat) :
  overlapSize < 5 ->
  let sentences := sentencesOf text in
  let chunks := splitTextIntoChunks text maxChunkSize overlapSize in
  (exists ks : list nat,
     chunks = map (fun k => joinSpaces (firstn k sentences)) ks
     /\ Forall (fun k => 0 < k <= length sentences) ks)
  /\ (sentences <> [] -> last chunks = Some (joinSpaces sentences)).
Proof.
  intros Hlt sentences chunks.
  assert (Hzero : overlapSize / 5 = 0) by now apply Nat.div_small.
  pose proof (sentencesOf_tight text) as Htight. fold sentences in Htight.
  unfold chunks, splitTextIntoChunks. unfold sentences, sentencesOf in *.
  set (raw := List.filter nonBlank (splitSentences text)) in *.
  destruct (chunkLoop_keeps_everything maxChunkSize overlapSize raw Hzero [] []
              (List.Forall_nil _) Htight) as (ks & Hrun & Hks).
  change (joinSpaces []) with (@nil ascii) in Hrun. rewrite Hrun.
  simpl app in *. rewrite (trim_joinSpaces _ Htight).
  destruct (map trim raw) as [|s rest] eqn:Hsent.
  - simpl. split; [|congruence]. exists ks. split; [reflexivity | exact Hks].
  - destruct (joinSpaces_tight (s :: rest) ltac:(discriminate) Htight) as (Hjoin & _).
    assert (Hpos : Nat.ltb 0 (length (joinSpaces (s :: rest))) = true).
    { apply Nat.ltb_lt. destruct (joinSpaces (s :: rest)); [contradiction | simpl; lia]. }
    rewrite Hpos. split.
    + exists (ks ++ [length (s :: rest)]). split.
      * rewrite map_app. simpl map. now rewrite firstn_all.
      * apply Forall_app. split; [exact Hks|]. constructor; [simpl; lia | constructor].
    + intros _. apply last_snoc.
Qed.

Lemma small_overlap_keeps_whole_buffer_witness :
  last (splitTextIntoChunks (chars "Alpha beta. Gamma delta. Epsilon.") 12 4)
  = Some (chars "Alpha beta Gamma delta Epsilon").
Proof.
  apply (small_overlap_keeps_whole_buffer
           (chars "Alpha beta. Gamma delta. Epsilon.") 12 4).
  - lia.
  - vm_compute. discriminate.
Defined.

End ChunkAccumulation.

(* ===================================================================== *)
(** * Further properties of the embedding gateway *)
(* ===================================================================== *)

Section Gateway.
Import EmbeddingGateway.
Local Open Scope string_scope.

Lemma promiseAll_Throw_at {A} (ps : list (Outcome A)) (m : string) :
  promiseAll ps = Throw m -> exists i, ps !! i = Some (Throw m).
Proof.
  induction ps as [|[a|m'] ps IH]; simpl; [discriminate | |].
  - destruct (promiseAll ps) as [l|m0]; [discriminate|].
    intros [= <-]. destruct (IH eq_refl) as [i Hi]. now exists (S i).
  - intros [= <-]. now exists 0.
Qed.

Lemma generateEmbedding_Ok (api : Capabilities) (request : EmbeddingRequest)
    (e : DocumentEmbedding) :
  generateEmbedding api request = Ok e ->
  exists response vector rest,
    embeddings_create api (er_text request) = Ok response
    /\ data response = vector :: rest
    /\ e = {| de_text := er_text request;
              de_embedding := vector;
              de_metadata :=
                {| md_filename := JS.orElse (er_filename request) "unknown";
                   md_source := JS.orElse (er_source request) "text_input";
                   md_chunkIndex := default 0 (er_chunkIndex request);
                   md_tokenCount := default 0 (usage_total_tokens response) |} |}.
Proof.
  unfold generateEmbedding.
  destruct (embeddings_create api (er_text request)) as [response|m]; [|discriminate].
  destruct (data response) as [|vector rest] eqn:Hdata; [discriminate|].
  intros [= <-]. now exists response, vector, rest.
Qed.

Lemma generateEmbedding_Throw (api : Capabilities) (request : EmbeddingRequest)
    (m : string) :
  generateEmbedding api request = Throw m ->
  exists m', m = "Embedding generation failed: " ++ m'.
Proof.
  unfold generateEmbedding.
  destruct (embeddings_create api (er_text request)) as [response|m0].
  - destruct (data response); [|discriminate]. intros [= <-]. eauto.
  - intros [= <-]. eauto.
Qed.

(** X6. [generateMultipleEmbeddings] returns one embedding per text, in the
    order of the texts, numbered from zero and labelled with the file name
    and source (or their defaults); it fails as soon as one text cannot be
    embedded, and then reports that text's failure under two prefixes. *)
Theorem generateMultipleEmbeddings_shape (api : Capabilities) (texts : list string)
    (filename source : option string) :
  match generateMultipleEmbeddings api texts filename source with
  | Ok embeddings =>
      length embeddings = length texts
      /\ forall i text, texts !! i = Some text ->
           exists response vector rest,
             embeddings_create api text = Ok response
             /\ data response = vector :: rest
             /\ embeddings !! i
                = Some {| de_text := text;
                          de_embedding := vector;
                          de_metadata :=
                            {| md_filename := JS.orElse filename "unknown";
                               md_source := JS.orElse source "text_input";
                               md_chunkIndex := i;
                               md_tokenCount :=
                                 default 0 (usage_total_tokens response) |} |}
  | Throw m =>
      exists i text m',
        texts !! i = Some text
        /\ embedChunk api filename source i text
           = Throw ("Embedding generation failed: " ++ m')
        /\ m = "Batch embedding generation failed: "
                 ++ ("Embedding generation failed: " ++ m')
  end.
Proof.
  rewrite generateMultipleEmbeddings_spec.
  destruct (promiseAll _) as [embeddings|m] eqn:Hall.
  - apply promiseAll_Ok in Hall.
    assert (Hlen : length embeddings = length texts).
    { apply (f_equal (@length _)) in Hall.
      rewrite length_imap, length_map in Hall. congruence. }
    split; [exact Hlen|]. intros i text Hi.
    apply (f_equal (fun l => l !! i)) in Hall.
    rewrite list_lookup_imap, Hi in Hall. simpl in Hall.
    change (map Ok embeddings) with (Ok <$> embeddings) in Hall.
    rewrite list_lookup_fmap in Hall.
    destruct (embeddings !! i) as [e|] eqn:He; [|discriminate].
    simpl in Hall. injection Hall as Hrun.
    apply generateEmbedding_Ok in Hrun as (response & vector & rest & Hc & Hd & ->).
    exists response, vector, rest. simpl. auto.
  - apply promiseAll_Throw_at in Hall as [i Hi].
    rewrite list_lookup_imap in Hi.
    destruct (texts !! i) as [text|] eqn:Ht; [|discriminate].
    simpl in Hi. injection Hi as Hrun.
    destruct (generateEmbedding_Throw _ _ _ Hrun) as [m' ->].
    exists i, text, m'. auto.
Qed.

Lemma insertBySimilarity_Permutation (x : DocumentEmbedding * float)
    (sorted : list (DocumentEmbedding * float)) :
  Permutation (insertBySimilarity x sorted) (x :: sorted).
Proof.
  induction sorted as [|y rest IH]; simpl; [reflexivity|].
  destruct (PrimFloat.ltb _ _); [reflexivity|].
  rewrite IH. apply perm_swap.
Qed.

Lemma sortBySimilarity_Permutation (l : list (DocumentEmbedding * float)) :
  Permutation (sortBySimilarity l) l.
Proof.
  unfold sortBySimilarity.
  assert (H : forall acc, Permutation
                (fold_left (fun sorted x => insertBySimilarity x sorted) l acc)
                (acc ++ l)).
  { induction l as [|x l IH]; intros acc; simpl.
    - now rewrite app_nil_r.
    - rewrite IH, insertBySimilarity_Permutation.
      change (x :: acc ++ l) with ((x :: acc) ++ l).
      rewrite (Permutation_middle acc l x). reflexivity. }
  apply (H []).
Qed.

(** X7. [findSimilarDocuments] fails exactly when a stored vector has another
    length than the query vector, always with the same message; otherwise
    it scores every document and returns the first [topK] of a
    rearrangement of the scored documents. *)
Theorem findSimilarDocuments_shape (queryEmbedding : list float)
    (documentEmbeddings : list DocumentEmbedding) (topK : nat) :
  let score doc :=
    Similarity.calculateCosineSimilarity doubleNumber queryEmbedding (de_embedding doc) in
  match findSimilarDocuments queryEmbedding documentEmbeddings topK with
  | Throw m =>
      m = "Vectors must have the same length for cosine similarity calculation"
      /\ exists doc, In doc documentEmbeddings
                     /\ length (de_embedding doc) <> length queryEmbedding
  | Ok ranked =>
      Forall (fun doc => length (de_embedding doc) = length queryEmbedding)
        documentEmbeddings
      /\ length ranked = Nat.min topK (length documentEmbeddings)
      /\ exists scored sorted,
           Forall2 (fun doc ds => fst ds = doc /\ score doc = Ok (snd ds))
             documentEmbeddings scored
           /\ Permutation sorted scored
           /\ ranked = firstn topK sorted
  end.
Proof.
  intros score. unfold findSimilarDocuments.
  set (scoreOne := fun doc =>
         match Similarity.calculateCosineSimilarity doubleNumber queryEmbedding
                 (de_embedding doc) with
         | Ok similarity => Ok (doc, similarity)
         | Throw m => Throw m
         end).
  destruct (promiseAll (map scoreOne documentEmbeddings)) as [scored|m] eqn:Hall.
  - apply promiseAll_Ok in Hall.
    assert (Hscored : Forall2 (fun doc ds => fst ds = doc /\ score doc = Ok (snd ds))
                        documentEmbeddings scored).
    { clear -Hall. revert scored Hall.
      induction documentEmbeddings as [|doc docs IH]; intros [|ds scored] Hall;
        try discriminate; constructor.
      - simpl in Hall. injection Hall as Hone _. unfold scoreOne in Hone.
        unfold score. destruct (Similarity.calculateCosineSimilarity _ _ _);
          [|discriminate]. injection Hone as <-. auto.
      - apply IH. simpl in Hall. now injection Hall. }
    split; [|split].
    + apply List.Forall_forall. intros doc Hdoc.
      destruct (Nat.eq_dec (length (de_embedding doc)) (length queryEmbedding))
        as [Heq|Hne]; [exact Heq | exfalso].
      apply list_elem_of_In, list_elem_of_lookup in Hdoc as [i Hi].
      destruct (Forall2_lookup_l _ _ _ _ _ Hscored Hi) as (ds & _ & _ & Hs).
      unfold score in Hs.
      assert (Hthrow : exists m, Similarity.calculateCosineSimilarity doubleNumber
                                   queryEmbedding (de_embedding doc) = Throw m).
      { apply similarity_throws_iff. congruence. }
      destruct Hthrow as [m Hm]. congruence.
    + rewrite length_take, (Permutation_length (sortBySimilarity_Permutation scored)).
      now rewrite <- (Forall2_length _ _ _ Hscored).
    + exists scored, (sortBySimilarity scored).
      split; [exact Hscored|]. split; [apply sortBySimilarity_Permutation | reflexivity].
  - apply promiseAll_Throw_at in Hall as [i Hi].
    change (map scoreOne documentEmbeddings) with (scoreOne <$> documentEmbeddings) in Hi.
    rewrite list_lookup_fmap in Hi.
    destruct (documentEmbeddings !! i) as [doc|] eqn:Hdoc; [|discriminate].
    simpl in Hi. injection Hi as Hone. unfold scoreOne in Hone.
    destruct (Similarity.calculateCosineSimilarity doubleNumber queryEmbedding
                (de_embedding doc)) as [s|m0] eqn:Hs; [discriminate|].
    injection Hone as ->.
    assert (Hne : length queryEmbedding <> length (de_embedding doc)).
    { apply similarity_throws_iff with (N := doubleNumber). eauto. }
    split.
    + unfold Similarity.calculateCosineSimilarity in Hs.
      destruct (negb _); [congruence|].
      destruct (fold_left _ _ _) as [[d na] nb].
      destruct (_ || _); discriminate.
    + exists doc. split; [|congruence].
      apply list_elem_of_In, list_elem_of_lookup. eauto.
Qed.

End Gateway.

(* ===================================================================== *)
(** * Further properties of the knowledge base *)
(* ===================================================================== *)

Section JSMapUpdates.
Context {V : Type}.

Lemma JSMap_get_None (k : string) (m : JSMap.t V) :
  JSMap.get k m = None <-> ~ In k (map fst m).
Proof.
  induction m as [|[k' v] m IH]; simpl; [tauto|].
  destruct (String.eqb k' k) eqn:E.
  - apply String.eqb_eq in E. split; [discriminate | intros H; exfalso; auto].
  - apply String.eqb_neq in E. rewrite IH. tauto.
Qed.

Lemma JSMap_keys_set (k : string) (v : V) (m : JSMap.t V) :
  map fst (JSMap.set k v m)
  = if JSMap.has k m then map fst m else (map fst m ++ [k])%list.
Proof.
  unfold JSMap.has. induction m as [|[k' v'] m IH]; simpl; [reflexivity|].
  destruct (String.eqb k' k) eqn:E.
  - apply String.eqb_eq in E as ->. reflexivity.
  - simpl. rewrite IH. destruct (JSMap.get k m); reflexivity.
Qed.

Lemma JSMap_keys_delete (k k' : string) (m : JSMap.t V) :
  In k' (map fst (JSMap.delete k m)) -> In k' (map fst m).
Proof.
  induction m as [|[k0 v] m IH]; simpl; [tauto|].
  destruct (String.eqb k0 k); simpl; tauto.
Qed.

Lemma JSMap_NoDup_set (k : string) (v : V) (m : JSMap.t V) :
  NoDup (map fst m) -> NoDup (map fst (JSMap.set k v m)).
Proof.
  intros Hnd. rewrite JSMap_keys_set. unfold JSMap.has.
  destruct (JSMap.get k m) eqn:E; [exact Hnd|].
  apply NoDup_app. split; [exact Hnd|]. split; [|apply NoDup_singleton].
  intros x Hx Hk. apply list_elem_of_In in Hx. apply list_elem_of_In in Hk.
  destruct Hk as [<-|[]]. now apply JSMap_get_None in E.
Qed.

Lemma JSMap_NoDup_delete (k : string) (m : JSMap.t V) :
  NoDup (map fst m) -> NoDup (map fst (JSMap.delete k m)).
Proof.
  induction m as [|[k' v] m IH]; simpl; [auto|].
  intros Hnd. apply NoDup_cons in Hnd as [Hk' Hnd].
  destruct (String.eqb k' k); [exact Hnd|]. simpl.
  apply NoDup_cons. split; [|now apply IH].
  intros H. apply Hk'. apply list_elem_of_In. apply list_elem_of_In in H.
  now apply JSMap_keys_delete in H.
Qed.

Lemma JSMap_get_delete_eq (k : string) (m : JSMap.t V) :
  NoDup (map fst m) -> JSMap.get k (JSMap.delete k m) = None.
Proof.
  induction m as [|[k' v] m IH]; simpl; [reflexivity|].
  intros Hnd. apply NoDup_cons in Hnd as [Hk' Hnd].
  destruct (String.eqb k' k) eqn:E.
  - apply String.eqb_eq in E as ->. apply JSMap_get_None.
    intros H. apply Hk'. now apply list_elem_of_In.
  - simpl. rewrite E. now apply IH.
Qed.

Lemma JSMap_get_delete_ne (k k' : string) (m : JSMap.t V) :
  k <> k' -> JSMap.get k' (JSMap.delete k m) = JSMap.get k' m.
Proof.
  intros Hne. induction m as [|[k0 v] m IH]; simpl; [reflexivity|].
  destruct (String.eqb k0 k) eqn:E.
  - apply String.eqb_eq in E as ->.
    destruct (String.eqb k k') eqn:E'; [|reflexivity].
    apply String.eqb_eq in E'. contradiction.
  - simpl. destruct (String.eqb k0 k'); [reflexivity | exact IH].
Qed.

Lemma JSMap_delete_absent (k : string) (m : JSMap.t V) :
  JSMap.get k m = None -> JSMap.delete k m = m.
Proof.
  induction m as [|[k' v] m IH]; simpl; [reflexivity|].
  destruct (String.eqb k' k); [discriminate|]. intros H. now rewrite IH.
Qed.

Lemma JSMap_delete_set_fresh (k : string) (v : V) (m : JSMap.t V) :
  JSMap.get k m = None -> JSMap.delete k (JSMap.set k v m) = m.
Proof.
  induction m as [|[k' v'] m IH]; simpl.
  - now rewrite String.eqb_refl.
  - destruct (String.eqb k' k) eqn:E; [discriminate|].
    intros H. simpl. rewrite E. now rewrite IH.
Qed.

End JSMapUpdates.

Section JSMapPairs.
Context {V1 V2 : Type} (R : string * V1 -> string * V2 -> Prop).
Hypothesis sameKey : forall d m, R d m -> fst d = fst m.

Lemma Forall2_JSMap_set (k : string) (v1 : V1) (v2 : V2)
    (m1 : JSMap.t V1) (m2 : JSMap.t V2) :
  R (k, v1) (k, v2) -> Forall2 R m1 m2 ->
  Forall2 R (JSMap.set k v1 m1) (JSMap.set k v2 m2).
Proof using sameKey.
  intros Hk. induction 1 as [|[k1 a] [k2 b] m1 m2 Hab Hrest IH]; simpl.
  - constructor; [exact Hk | constructor].
  - pose proof (sameKey _ _ Hab) as Heq. simpl in Heq. subst k2.
    destruct (String.eqb k1 k); constructor; auto.
Qed.

Lemma Forall2_JSMap_delete (k : string) (m1 : JSMap.t V1) (m2 : JSMap.t V2) :
  Forall2 R m1 m2 -> Forall2 R (JSMap.delete k m1) (JSMap.delete k m2).
Proof using sameKey.
  induction 1 as [|[k1 a] [k2 b] m1 m2 Hab Hrest IH]; simpl; [constructor|].
  pose proof (sameKey _ _ Hab) as Heq. simpl in Heq. subst k2.
  destruct (String.eqb k1 k); [exact Hrest | constructor; auto].
Qed.

Lemma Forall2_JSMap_get (k : string) (m1 : JSMap.t V1) (m2 : JSMap.t V2) :
  Forall2 R m1 m2 ->
  match JSMap.get k m1, JSMap.get k m2 with
  | Some v1, Some v2 => R (k, v1) (k, v2)
  | None, None => True
  | _, _ => False
  end.
Proof using sameKey.
  induction 1 as [|[k1 a] [k2 b] m1 m2 Hab Hrest IH]; simpl; [exact I|].
  pose proof (sameKey _ _ Hab) as Heq. simpl in Heq. subst k2.
  destruct (String.eqb k1 k) eqn:E; [|exact IH].
  apply String.eqb_eq in E as ->. exact Hab.
Qed.

End JSMapPairs.

Section KnowledgeBase.
Import EmbeddingGateway KnowledgeBaseService KnowledgeBaseListing.
Local Open Scope string_scope.

Lemma query_frame (api : Capabilities) (q : KnowledgeBaseQuery) (w : World) :
  snd (query api q w) = w.
Proof.
  unfold query. unfold_eff.
  destruct (generateQueryEmbedding api (kq_question q)); simpl; [|reflexivity].
  destruct (Nat.eqb _ 0); [reflexivity|].
  destruct (findSimilarDocuments _ _ _); simpl; [|reflexivity].
  destruct (Nat.eqb _ 0); [reflexivity|].
  destruct (answerFromContext _ _ _); reflexivity.
Qed.

Lemma removeDocument_run (documentId : string) (w : World) :
  removeDocument documentId w
  = if JSMap.has documentId (documents w)
    then (Ok true,
          withDocumentMetadata (JSMap.delete documentId)
            (withDocuments (JSMap.delete documentId) w))
    else (Ok false, w).
Proof.
  unfold removeDocument. unfold_eff.
  destruct (JSMap.has documentId (documents w)); reflexivity.
Qed.

Lemma chunk_counts_keyed (d : string * list DocumentEmbedding) (m : string * DocumentInfo) :
  fst d = fst m /\ di_chunkCount (snd m) = length (snd d) -> fst d = fst m.
Proof. tauto. Qed.

(** X8. Uploading, removing and querying keep the two maps of the knowledge
    base in step: the same identifiers in the same order, none twice, and
    every recorded chunk count equal to the number of stored embeddings. *)
Theorem knowledge_base_stays_consistent (api : Capabilities) (w : World) :
  consistentKnowledgeBase w ->
  (forall newId now filename content,
     consistentKnowledgeBase (snd (addDocument api newId now filename content w)))
  /\ (forall documentId, consistentKnowledgeBase (snd (removeDocument documentId w)))
  /\ (forall q, consistentKnowledgeBase (snd (query api q w))).
Proof.
  intros [Hnd Hall]. split; [|split].
  - intros newId now filename content.
    pose proof (addDocument_run api newId now filename content w) as Hrun.
    cbv zeta in Hrun. rewrite Hrun.
    destruct (promiseAll _) as [embeddings|m] eqn:E; [|now split].
    apply promiseAll_Ok in E. apply (f_equal (@length _)) in E.
    rewrite length_imap, !length_map in E.
    split; simpl.
    + now apply JSMap_NoDup_set.
    + apply Forall2_JSMap_set; [exact chunk_counts_keyed | | exact Hall].
      simpl. rewrite length_map. split; [reflexivity | exact E].
  - intros documentId. rewrite removeDocument_run.
    destruct (JSMap.has _ _); [|now split].
    split; simpl.
    + now apply JSMap_NoDup_delete.
    + apply Forall2_JSMap_delete; [exact chunk_counts_keyed | exact Hall].
  - intros q. rewrite query_frame. now split.
Qed.

Lemma knowledge_base_stays_consistent_witness :
  consistentKnowledgeBase
    (snd (addDocument offlineApi "doc_1" 0 "empty.txt" "   " emptyWorld)).
Proof.
  apply (knowledge_base_stays_consistent offlineApi emptyWorld).
  split; [apply NoDup_nil_2 | constructor].
Defined.

(** X9. [removeDocument] reports whether the document was stored; afterwards
    neither map knows the identifier, every other document is as before,
    and nothing else in the services changes. Removing an unknown
    identifier changes nothing at all. *)
Theorem removeDocument_forgets (documentId : string) (w : World) :
  consistentKnowledgeBase w ->
  let w' := snd (removeDocument documentId w) in
  fst (removeDocument documentId w) = Ok (JSMap.has documentId (documents w))
  /\ JSMap.get documentId (documents w') = None
  /\ JSMap.get documentId (documentMetadata w') = None
  /\ (forall other, other <> documentId ->
        JSMap.get other (documents w') = JSMap.get other (documents w)
        /\ JSMap.get other (documentMetadata w')
           = JSMap.get other (documentMetadata w))
  /\ (JSMap.has documentId (documents w) = false -> w' = w)
  /\ chatHistory w' = chatHistory w
  /\ moderationHistory w' = moderationHistory w
  /\ sessionFeatures w' = sessionFeatures w
  /\ sessionStatistics w' = sessionStatistics w.
Proof.
  intros [Hnd Hall] w'. unfold w'. rewrite removeDocument_run.
  assert (Hkeys : map fst (documentMetadata w) = map fst (documents w)).
  { clear Hnd. induction Hall as [|d m ds ms [Hk _] _ IH]; simpl; congruence. }
  pose proof (Forall2_JSMap_get _ chunk_counts_keyed documentId _ _ Hall) as Hget.
  unfold JSMap.has. destruct (JSMap.get documentId (documents w)) eqn:Hdoc; simpl.
  - split; [reflexivity|]. split; [now apply JSMap_get_delete_eq|].
    split; [apply JSMap_get_delete_eq; now rewrite Hkeys|].
    split; [|split; [discriminate | auto]].
    intros other Hne. split; apply JSMap_get_delete_ne; congruence.
  - destruct (JSMap.get documentId (documentMetadata w)) eqn:Hmeta; [contradiction|].
    auto 10.
Qed.

Lemma removeDocument_forgets_witness :
  JSMap.get "doc_1"
    (documents
       (snd (removeDocument "doc_1"
               (snd (addDocument offlineApi "doc_1" 0 "empty.txt" "   " emptyWorld)))))
  = None.
Proof.
  apply (removeDocument_forgets "doc_1"
           (snd (addDocument offlineApi "doc_1" 0 "empty.txt" "   " emptyWorld))).
  vm_compute. split; [|repeat constructor].
  apply NoDup_singleton.
Defined.

(** X10. Uploading a document under an identifier the knowledge base does not
    know and removing it again restores the state exactly. *)
Theorem addDocument_then_removeDocument (api : Capabilities) (newId : string)
    (now : Z) (filename content : string) (w w' : World) (result : AddResult) :
  JSMap.get newId (documents w) = None ->
  JSMap.get newId (documentMetadata w) = None ->
  addDocument api newId now filename content w = (Ok result, w') ->
  removeDocument newId w' = (Ok true, w).
Proof.
  intros Hdoc Hmeta Hadd.
  pose proof (addDocument_run api newId now filename content w) as Hrun.
  cbv zeta in Hrun. rewrite Hrun in Hadd.
  destruct (promiseAll _) as [embeddings|m]; [|discriminate].
  injection Hadd as _ <-. rewrite removeDocument_run. simpl.
  unfold JSMap.has. rewrite JSMap_get_set_eq.
  unfold withDocumentMetadata, withDocuments. simpl.
  rewrite !JSMap_delete_set_fresh by assumption.
  destruct w; reflexivity.
Qed.

Lemma addDocument_then_removeDocument_witness :
  removeDocument "doc_1"
    (snd (addDocument offlineApi "doc_1" 0 "empty.txt" "   " emptyWorld))
  = (Ok true, emptyWorld).
Proof.
  apply (addDocument_then_removeDocument offlineApi "doc_1" 0 "empty.txt" "   "
           emptyWorld _
           {| documentId := "doc_1"; chunkCount := 0; tokenCount := 0 |});
    reflexivity.
Defined.

(** X11. A query only reads: the state after it is the state before it. It
    asks for the embedding of the question first, so it answers only if
    that succeeded, and every failure is reported under one prefix. *)
Theorem query_reads_only (api : Capabilities) (q : KnowledgeBaseQuery) (w : World) :
  snd (query api q w) = w
  /\ (forall m, fst (query api q w) = Throw m ->
        exists m', m = "Knowledge base query failed: " ++ m')
  /\ (forall r, fst (query api q w) = Ok r ->
        exists v, generateQueryEmbedding api (kq_question q) = Ok v)
  /\ (forall m, generateQueryEmbedding api (kq_question q) = Throw m ->
        fst (query api q w) = Throw ("Knowledge base query failed: " ++ m)).
Proof.
  split; [apply query_frame|].
  unfold query. unfold_eff.
  destruct (generateQueryEmbedding api (kq_question q)) as [v|m0]; simpl.
  - destruct (Nat.eqb _ 0).
    + split; [discriminate|]. split; [eauto | discriminate].
    + destruct (findSimilarDocuments _ _ _); simpl.
      * destruct (Nat.eqb _ 0).
        -- split; [discriminate|]. split; [eauto | discriminate].
        -- destruct (answerFromContext _ _ _); simpl.
           ++ split; [discriminate|]. split; [eauto | discriminate].
           ++ split; [intros m' [= <-]; eauto|]. split; [discriminate | discriminate].
      * split; [intros m' [= <-]; eauto|]. split; [discriminate | discriminate].
  - split; [intros m' [= <-]; eauto|]. split; [discriminate|].
    intros m [= <-]. reflexivity.
Qed.

End KnowledgeBase.

Section Listing.
Import KnowledgeBaseService KnowledgeBaseListing.
Local Open Scope string_scope.

Lemma insertByUploadDate_Permutation (x : ListedDocument) (sorted : list ListedDocument) :
  Permutation (insertByUploadDate x sorted) (x :: sorted).
Proof.
  induction sorted as [|y rest IH]; simpl; [reflexivity|].
  destruct (Z.ltb _ _); [reflexivity|].
  rewrite IH. apply perm_swap.
Qed.

Lemma insertByUploadDate_sorted (x : ListedDocument) (sorted : list ListedDocument) :
  StronglySorted newerFirst sorted ->
  StronglySorted newerFirst (insertByUploadDate x sorted).
Proof.
  induction 1 as [|y rest Hrest IH Hy]; simpl.
  - constructor; [constructor | constructor].
  - destruct (Z.ltb _ _) eqn:E.
    + apply Z.ltb_lt in E.
      constructor; [constructor; assumption|].
      constructor; [unfold newerFirst; lia|].
      eapply List.Forall_impl; [|exact Hy]. unfold newerFirst. intros; lia.
    + apply Z.ltb_ge in E. constructor; [exact IH|].
      rewrite (insertByUploadDate_Permutation x rest).
      constructor; [unfold newerFirst; lia | exact Hy].
Qed.

(** Entries of one date keep their relative order when another entry is
    inserted: the sort is stable. *)
Lemma insertByUploadDate_stable (date : Z) (x : ListedDocument)
    (sorted : list ListedDocument) :
  StronglySorted newerFirst sorted ->
  List.filter (fun y => Z.eqb (ld_uploadDate y) date) (insertByUploadDate x sorted)
  = (List.filter (fun y => Z.eqb (ld_uploadDate y) date) sorted
       ++ List.filter (fun y => Z.eqb (ld_uploadDate y) date) [x])%list.
Proof.
  induction 1 as [|y rest Hrest IH Hy]; [reflexivity|].
  cbn [insertByUploadDate]. destruct (Z.ltb _ _) eqn:E.
  - apply Z.ltb_lt in E. cbn [List.filter].
    destruct (Z.eqb (ld_uploadDate x) date) eqn:Ex; [|now rewrite app_nil_r].
    apply Z.eqb_eq in Ex.
    assert (Hy' : Z.eqb (ld_uploadDate y) date = false) by (apply Z.eqb_neq; lia).
    rewrite Hy'.
    rewrite (filter_none _ rest); [reflexivity|].
    intros z Hz. rewrite List.Forall_forall in Hy. specialize (Hy z Hz).
    unfold newerFirst in Hy. apply Z.eqb_neq. lia.
  - cbn [List.filter] in *. rewrite IH.
    destruct (Z.eqb (ld_uploadDate y) date); reflexivity.
Qed.

Lemma sortByUploadDate_spec (l acc : list ListedDocument) :
  StronglySorted newerFirst acc ->
  let sorted := fold_left (fun sorted x => insertByUploadDate x sorted) l acc in
  Permutation sorted (acc ++ l)
  /\ StronglySorted newerFirst sorted
  /\ forall date,
       List.filter (fun y => Z.eqb (ld_uploadDate y) date) sorted
       = List.filter (fun y => Z.eqb (ld_uploadDate y) date) (acc ++ l).
Proof.
  revert acc. induction l as [|x l IH]; intros acc Hacc; simpl.
  - rewrite app_nil_r. auto.
  - destruct (IH (insertByUploadDate x acc) (insertByUploadDate_sorted x acc Hacc))
      as (Hperm & Hsorted & Hstable).
    split; [|split; [exact Hsorted|]].
    + rewrite Hperm, insertByUploadDate_Permutation.
      change (x :: acc ++ l) with ((x :: acc) ++ l).
      now rewrite (Permutation_middle acc l x).
    + intros date. rewrite Hstable, !List.filter_app.
      rewrite (insertByUploadDate_stable date x acc Hacc).
      rewrite <- app_assoc. cbn [List.filter app].
      destruct (Z.eqb (ld_uploadDate x) date); reflexivity.
Qed.

Lemma getDocumentList_listed (w : World) :
  getDocumentList w
  = fold_left (fun sorted x => insertByUploadDate x sorted)
      (map listed (documentMetadata w)) [].
Proof.
  unfold getDocumentList. f_equal. apply map_ext. intros [k m]. reflexivity.
Qed.

(** X12. [getDocumentList] lists every document of the metadata map once,
    newest upload first, and documents uploaded at the same instant in the
    order in which they were added. *)
Theorem getDocumentList_newest_first (w : World) :
  Permutation (getDocumentList w) (map listed (documentMetadata w))
  /\ StronglySorted newerFirst (getDocumentList w)
  /\ forall date,
       List.filter (fun y => Z.eqb (ld_uploadDate y) date) (getDocumentList w)
       = List.filter (fun y => Z.eqb (ld_uploadDate y) date)
           (map listed (documentMetadata w)).
Proof.
  rewrite getDocumentList_listed.
  apply (sortByUploadDate_spec (map listed (documentMetadata w)) []). constructor.
Qed.

Lemma fold_left_lengths {A} (l : list (list A)) (a : nat) :
  fold_left (fun sum x => sum + length x) l a = a + sum_list_with length l.
Proof.
  revert a. induction l as [|x l IH]; intros a; simpl; [lia|].
  rewrite IH. lia.
Qed.

Lemma roundDiv_bounds (a b : nat) :
  0 < b ->
  2 * b * IntegrationService.roundDiv a b <= 2 * a + b
  /\ 2 * a + b < 2 * b * (IntegrationService.roundDiv a b + 1).
Proof.
  intros Hb. unfold IntegrationService.roundDiv.
  pose proof (Nat.div_mod_eq (2 * a + b) (2 * b)) as Hdiv.
  pose proof (Nat.mod_upper_bound (2 * a + b) (2 * b)) as Hmod.
  nia.
Qed.

(** X13. In a consistent knowledge base the statistics and the listing agree:
    as many documents, as many chunks in total; and the reported average
    is the exact average rounded to the nearest integer, halves upwards. *)
Theorem getStatistics_agrees_with_listing (w : World) :
  consistentKnowledgeBase w ->
  let statistics := getStatistics w in
  documentCount statistics = length (getDocumentList w)
  /\ totalChunks statistics = sum_list_with ld_chunkCount (getDocumentList w)
  /\ (documentCount statistics = 0 -> averageChunksPerDocument statistics = 0)
  /\ (0 < documentCount statistics ->
        2 * documentCount statistics * averageChunksPerDocument statistics
        <= 2 * totalChunks statistics + documentCount statistics
        /\ 2 * totalChunks statistics + documentCount statistics
           < 2 * documentCount statistics * (averageChunksPerDocument statistics + 1)).
Proof.
  intros [_ Hall] statistics.
  destruct (sortByUploadDate_spec (map listed (documentMetadata w)) []
              (SSorted_nil _)) as (Hperm & _ & _).
  cbv zeta in Hperm. rewrite <- getDocumentList_listed in Hperm. simpl in Hperm.
  split; [|split; [|split]].
  - rewrite (Permutation_length Hperm), length_map.
    simpl. unfold JSMap.size. now apply Forall2_length in Hall.
  - rewrite (sum_list_with_Permutation_proper _ _ _ Hperm).
    simpl. unfold JSMap.values. rewrite fold_left_lengths. simpl.
    clear Hperm. induction Hall as [|d m ds ms [_ Hc] _ IH]; simpl; [reflexivity|].
    rewrite IH, Hc. reflexivity.
  - simpl. intros ->. reflexivity.
  - simpl. intros Hpos.
    destruct (Nat.ltb 0 (JSMap.size (documents w))) eqn:E.
    + now apply roundDiv_bounds.
    + apply Nat.ltb_ge in E. lia.
Qed.

Lemma getStatistics_agrees_with_listing_witness :
  documentCount
    (getStatistics (snd (addDocument offlineApi "doc_1" 0 "empty.txt" "   " emptyWorld)))
  = length
      (getDocumentList (snd (addDocument offlineApi "doc_1" 0 "empty.txt" "   " emptyWorld))).
Proof.
  apply (getStatistics_agrees_with_listing
           (snd (addDocument offlineApi "doc_1" 0 "empty.txt" "   " emptyWorld))).
  vm_compute. split; [apply NoDup_singleton | repeat constructor].
Defined.

(** X14. A document without any sentence is stored and counted as a document,
    yet a knowledge base that holds only such documents still answers
    that it has no documents. *)
Theorem blank_document_is_counted_but_not_answered (api : Capabilities)
    (newId : string) (now : Z) (filename content : string)
    (q : KnowledgeBaseQuery) (v : list float) :
  Forall (fun c => JS.isWhiteSpace c || JS.isTerminator c = true) (chars content) ->
  EmbeddingGateway.generateQueryEmbedding api (kq_question q) = Ok v ->
  let w' := snd (addDocument api newId now filename content emptyWorld) in
  documentCount (getStatistics w') = 1
  /\ map ld_chunkCount (getDocumentList w') = [0]
  /\ query api q w' = (Ok noDocumentsResponse, w').
Proof.
  intros Hblank Hv w'. unfold w'.
  pose proof (addDocument_run api newId now filename content emptyWorld) as Hrun.
  cbv zeta in Hrun.
  rewrite (proj2 (zero_chunks_iff_blank (chars content) 800 80) Hblank) in Hrun.
  simpl in Hrun. rewrite Hrun. simpl.
  split; [reflexivity|]. split; [reflexivity|].
  unfold query. unfold_eff. rewrite Hv. reflexivity.
Qed.

Lemma blank_document_is_counted_but_not_answered_witness :
  let api := scriptedApi (Throw unavailable) (Throw unavailable)
               (Ok {| data := [[1%float; 0%float]]; usage_total_tokens := Some 3 |}) in
  let q := {| kq_question := "What is an embedding?"; kq_sessionId := "s";
              kq_maxResults := None; kq_minSimilarity := None |} in
  let w' := snd (addDocument api "doc_1" 0 "empty.txt" " . " emptyWorld) in
  documentCount (getStatistics w') = 1
  /\ map ld_chunkCount (getDocumentList w') = [0]
  /\ query api q w' = (Ok noDocumentsResponse, w').
Proof.
  intros api q.
  apply (blank_document_is_counted_but_not_answered api "doc_1" 0 "empty.txt" " . " q
           [1%float; 0%float]).
  - repeat constructor.
  - reflexivity.
Defined.

End Listing.

(* ===================================================================== *)
(** * Further properties of the moderation and chat services *)
(* ===================================================================== *)

Section SafeReplies.
Import ModerationService.
Local Open Scope string_scope.

(** X15. The reply to flagged content is chosen by the first family with a
    flagged category, in the order hate, harassment, violence, sexual,
    self-harm; with no category flagged it is the apology. The families
    cover all eleven categories, so the closing general reply is never
    given. *)
Theorem generateSafeResponse_by_family (moderationResult : ModerationResponse) :
  let c := mod_categories moderationResult in
  let isHate := hate c || hateThreatening c in
  let isHarassment := harassment c || harassmentThreatening c in
  let isViolence := violence c || violenceGraphic c in
  let isSexual := sexual c || sexualMinors c in
  let isSelfHarm := selfHarm c || selfHarmIntent c || selfHarmInstructions c in
  generateSafeResponse moderationResult
  = (if isHate then safeReplyHate
     else if isHarassment then safeReplyHarassment
     else if isViolence then safeReplyViolence
     else if isSexual then safeReplySexual
     else if isSelfHarm then safeReplySelfHarm
     else safeReplyNothingFlagged)
  /\ generateSafeResponse moderationResult <> safeReplyOther.
Proof.
  destruct moderationResult as [content flagged c scores sid action risk].
  destruct c as [h ht ha hat sh shi shn sx sxm v vg].
  unfold generateSafeResponse. cbn [mod_categories hate hateThreatening harassment
    harassmentThreatening selfHarm selfHarmIntent selfHarmInstructions sexual
    sexualMinors violence violenceGraphic].
  destruct h, ht, ha, hat, v, vg, sx, sxm, sh, shi, shn;
    (split; [reflexivity | discriminate]).
Qed.

End SafeReplies.

Section ModerationHistory.
Import ModerationService.
Local Open Scope string_scope.

Lemma moderateContent_appends (api : Capabilities) (request : ModerationRequest)
    (w : World) :
  let sid := mr_sessionId request in
  match moderateContent api request w with
  | (Ok r, w') =>
      getModerationHistory sid w' = (getModerationHistory sid w ++ [r])%list
      /\ (forall other, other <> sid ->
            getModerationHistory other w' = getModerationHistory other w)
      /\ mod_content r = mr_content request
      /\ mod_sessionId r = sid
  | (Throw m, w') =>
      w' = w /\ exists m', m = "Content moderation failed: " ++ m'
  end.
Proof.
  intros sid. unfold moderateContent. unfold_eff.
  destruct (moderations_create api (mr_content request)) as [[|result rest]|m]; simpl.
  - split; [reflexivity | eauto].
  - unfold getModerationHistory. simpl. fold sid.
    split; [now rewrite lookup_insert_eq|].
    split; [|split; reflexivity].
    intros other Hne. now rewrite lookup_insert_ne by congruence.
  - split; [reflexivity | eauto].
Qed.

(** X16. A moderation check that succeeds appends its result to the history of
    its session and to no other; a check that fails leaves every history
    as it was. [isContentSafe] records its check in the same way. *)
Theorem moderateContent_history (api : Capabilities) (request : ModerationRequest)
    (w : World) :
  let sid := mr_sessionId request in
  match moderateContent api request w with
  | (Ok r, w') =>
      getModerationHistory sid w' = (getModerationHistory sid w ++ [r])%list
      /\ (forall other, other <> sid ->
            getModerationHistory other w' = getModerationHistory other w)
      /\ mod_content r = mr_content request
      /\ mod_sessionId r = sid
  | (Throw m, w') =>
      w' = w /\ exists m', m = "Content moderation failed: " ++ m'
  end
  /\ snd (isContentSafe api (mr_content request) sid w)
     = snd (moderateContent api request w).
Proof.
  intros sid. split; [apply moderateContent_appends|].
  unfold isContentSafe. destruct request as [content sid']. simpl in *.
  rewrite tryCatch_run, bind_run.
  destruct (moderateContent api _ w) as [[r|m] w']; reflexivity.
Qed.

End ModerationHistory.

Section ChatHistory.
Import ChatService.
Local Open Scope string_scope.

Lemma sendMessage_run (api : Capabilities) (request : ChatCompletionRequest) (w : World) :
  let sid := ccr_sessionId request in
  let history := (getChatHistory sid w ++ [userSays request])%list in
  let w1 := withChatHistory (alter (fun h => (h ++ [userSays request])%list) sid) w in
  sendMessage api request w
  = match chat_completions_create api (formatMessagesForAPI history) with
    | Throw m => (Throw ("Chat completion failed: " ++ m), w1)
    | Ok completion =>
        match choices completion with
        | [] => (Throw ("Chat completion failed: " ++ TypeError_message), w1)
        | content :: _ =>
            let assistantMessage :=
              {| msg_role := assistant;
                 msg_content :=
                   JS.orElse content
                     "I apologize, but I couldn't generate a response. Please try again.";
                 msg_sessionId := sid;
                 msg_tokenUsage :=
                   Some (default {| promptTokens := 0; completionTokens := 0;
                                    totalTokens := 0 |} (usage completion)) |} in
            (Ok assistantMessage,
             withChatHistory (<[sid := (history ++ [assistantMessage])%list]>) w1)
        end
    end.
Proof.
  intros sid history w1. unfold sendMessage. unfold_eff. simpl.
  fold (userSays request). fold sid. fold history.
  destruct (chat_completions_create api _) as [completion|m]; [|reflexivity].
  destruct (choices completion); reflexivity.
Qed.

Lemma orElse_nonempty (x : option string) (fallback : string) :
  fallback <> "" -> JS.orElse x fallback <> "".
Proof.
  intros Hf. unfold JS.orElse. destruct x as [s|]; [|exact Hf].
  destruct (String.eqb s "") eqn:E; [exact Hf|]. now apply String.eqb_neq.
Qed.

(** X17. A completed exchange extends the history of its session by the user's
    message and the reply, in this order, and the reply is never empty.
    A failed exchange is reported under one prefix and is not rolled back:
    a session that already had a history keeps the user's message in it,
    a session without one still has none. Other sessions are untouched. *)
Theorem sendMessage_history (api : Capabilities) (request : ChatCompletionRequest)
    (w : World) :
  let sid := ccr_sessionId request in
  match sendMessage api request w with
  | (Ok reply, w') =>
      getChatHistory sid w' = (getChatHistory sid w ++ [userSays request; reply])%list
      /\ msg_role reply = assistant
      /\ msg_content reply <> ""
      /\ (forall other, other <> sid -> chatHistory w' !! other = chatHistory w !! other)
  | (Throw m, w') =>
      (exists m', m = "Chat completion failed: " ++ m')
      /\ chatHistory w' !! sid
         = (fun h => (h ++ [userSays request])%list) <$> chatHistory w !! sid
      /\ (forall other, other <> sid -> chatHistory w' !! other = chatHistory w !! other)
  end.
Proof.
  intros sid. pose proof (sendMessage_run api request w) as Hrun.
  cbv zeta in Hrun. fold sid in Hrun. rewrite Hrun.
  assert (Hfail : forall m,
    (exists m', "Chat completion failed: " ++ m = "Chat completion failed: " ++ m')
    /\ chatHistory (withChatHistory
                      (alter (fun h => (h ++ [userSays request])%list) sid) w) !! sid
       = (fun h => (h ++ [userSays request])%list) <$> chatHistory w !! sid
    /\ (forall other, other <> sid ->
          chatHistory (withChatHistory
                         (alter (fun h => (h ++ [userSays request])%list) sid) w) !! other
          = chatHistory w !! other)).
  { intros m. split; [eauto|]. simpl. split; [apply lookup_alter_eq|].
    intros other Hne. apply lookup_alter_ne. congruence. }
  destruct (chat_completions_create api _) as [completion|m]; [|apply Hfail].
  destruct (choices completion) as [|content rest]; [apply Hfail|].
  unfold getChatHistory. simpl. rewrite lookup_insert_eq. simpl.
  split; [now rewrite <- app_assoc|]. split; [reflexivity|].
  split; [apply orElse_nonempty; discriminate|].
  intros other Hne. rewrite lookup_insert_ne by congruence.
  apply lookup_alter_ne. congruence.
Qed.

(** X18. [initializeChat] starts the session over: whatever was said before,
    the history is the welcome message alone, and the next exchange sends
    the system prompt, the welcome and the new message to the model. *)
Theorem initializeChat_starts_over (api : Capabilities) (sessionId message : string)
    (w : World) :
  let w1 := snd (initializeChat sessionId w) in
  let request := {| ccr_message := message; ccr_sessionId := sessionId |} in
  (exists welcome,
     fst (initializeChat sessionId w) = Ok welcome
     /\ getChatHistory sessionId w1 = [welcome]
     /\ msg_role welcome = assistant
     /\ msg_content welcome = welcomeContent)
  /\ (forall other, other <> sessionId -> chatHistory w1 !! other = chatHistory w !! other)
  /\ match chat_completions_create api
             [(system, SYSTEM_PROMPTS_GENERAL); (assistant, welcomeContent);
              (user, message)] with
     | Throw m => fst (sendMessage api request w1) = Throw ("Chat completion failed: " ++ m)
     | Ok completion =>
         match choices completion with
         | [] => exists m, fst (sendMessage api request w1) = Throw m
         | content :: _ =>
             exists reply, fst (sendMessage api request w1) = Ok reply
         end
     end.
Proof.
  intros w1 request. split; [|split].
  - eexists. split; [reflexivity|]. unfold w1, getChatHistory. simpl.
    rewrite lookup_insert_eq. auto.
  - intros other Hne. unfold w1. simpl. apply lookup_insert_ne. congruence.
  - subst w1 request.
    rewrite (sendMessage_run api _ (snd (initializeChat sessionId w))).
    unfold getChatHistory, initializeChat. unfold_eff. simpl.
    rewrite lookup_insert_eq. simpl.
    destruct (chat_completions_create api _) as [completion|m]; [|reflexivity].
    destruct (choices completion); simpl; eauto.
Qed.

End ChatHistory.

(* ===================================================================== *)
(** * Further properties of the orchestrator *)
(* ===================================================================== *)

Section Requests.
Import IntegrationService.
Local Open Scope string_scope.

Lemma dispatch_frame (api : Capabilities) (request : IntegratedChatRequest)
    (features : ChatFeatures) (requestType : string)
    (response : IntegratedChatResponse) (w : World) :
  let w' := snd (dispatch api request features requestType response w) in
  sessionStatistics w' = sessionStatistics w
  /\ sessionFeatures w' = sessionFeatures w
  /\ documents w' = documents w
  /\ documentMetadata w' = documentMetadata w
  /\ moderationHistory w' = moderationHistory w
  /\ match fst (dispatch api request features requestType response w) with
     | Ok r =>
         res_requestType r = res_requestType response
         /\ res_error r = res_error response
         /\ res_moderation r = res_moderation response
         /\ res_sessionId r = res_sessionId response
         /\ res_features r = res_features response
         /\ (exists c, res_chat r = Some c)
         /\ (f_imageGeneration features = false -> res_image r = res_image response)
         /\ (f_knowledgeBase features = false ->
               res_knowledgeBase r = res_knowledgeBase response)
         /\ (requestType <> "image_generation" -> res_image r = res_image response)
         /\ (requestType <> "knowledge_base_query" ->
               res_knowledgeBase r = res_knowledgeBase response)
     | Throw _ => True
     end.
Proof.
  assert (Hchat : forall message,
    let run := bind (ChatService.sendMessage api
                       {| ccr_message := message; ccr_sessionId := req_sessionId request |})
                 (fun chat => ret (setChat chat response)) w in
    sessionStatistics (snd run) = sessionStatistics w
    /\ sessionFeatures (snd run) = sessionFeatures w
    /\ documents (snd run) = documents w
    /\ documentMetadata (snd run) = documentMetadata w
    /\ moderationHistory (snd run) = moderationHistory w
    /\ match fst run with
       | Ok r =>
           res_requestType r = res_requestType response
           /\ res_error r = res_error response
           /\ res_moderation r = res_moderation response
           /\ res_sessionId r = res_sessionId response
           /\ res_features r = res_features response
           /\ (exists c, res_chat r = Some c)
           /\ res_image r = res_image response
           /\ res_knowledgeBase r = res_knowledgeBase response
       | Throw _ => True
       end).
  { intros message. cbv zeta. rewrite bind_run.
    pose proof (sendMessage_frame api
                  {| ccr_message := message; ccr_sessionId := req_sessionId request |} w)
      as Hframe.
    destruct (ChatService.sendMessage api _ w) as [[chat|m] w1]; simpl in *;
      destruct Hframe as (Hd & Hdm & Hm & Hf & Hs); repeat split; eauto. }
  cbv zeta. unfold dispatch.
  destruct (String.eqb requestType "image_generation") eqn:Eimg.
  - apply String.eqb_eq in Eimg as ->.
    destruct (f_imageGeneration features) eqn:Fimg.
    + rewrite bind_run. unfold await.
      destruct (handleImageGeneration api request) as [image|m]; simpl;
        repeat split; eauto; try discriminate;
        intros Hne; exfalso; now apply Hne.
    + destruct (Hchat imageDisabledMessage) as (Hs & Hf & Hd & Hdm & Hm & Hr).
      repeat (split; [assumption|]).
      destruct (fst _); [|exact I].
      destruct Hr as (H1 & H2 & H3 & H4 & H5 & H6 & H7 & H8). repeat split; auto.
  - apply String.eqb_neq in Eimg.
    destruct (String.eqb requestType "knowledge_base_query") eqn:Ekb.
    + apply String.eqb_eq in Ekb as ->.
      destruct (f_knowledgeBase features) eqn:Fkb.
      * rewrite bind_run.
        pose proof (query_frame api
                      {| kq_question := req_message request;
                         kq_sessionId := req_sessionId request;
                         kq_maxResults := Some 3;
                         kq_minSimilarity := Some 0x1.6666666666666p-1%float |} w)
          as Hframe.
        destruct (KnowledgeBaseService.query api _ w) as [[kb|m] w1]; simpl in *;
          subst w1; repeat split; eauto; try discriminate;
          intros Hne; exfalso; now apply Hne.
      * destruct (Hchat knowledgeBaseDisabledMessage) as (Hs & Hf & Hd & Hdm & Hm & Hr).
        repeat (split; [assumption|]).
        destruct (fst _); [|exact I].
        destruct Hr as (H1 & H2 & H3 & H4 & H5 & H6 & H7 & H8). repeat split; auto.
    + destruct (Hchat (req_message request)) as (Hs & Hf & Hd & Hdm & Hm & Hr).
      repeat (split; [assumption|]).
      destruct (fst _); [|exact I].
      destruct Hr as (H1 & H2 & H3 & H4 & H5 & H6 & H7 & H8). repeat split; auto.
Qed.

Lemma speech_keeps (api : Capabilities) (request : IntegratedChatRequest)
    (features : ChatFeatures) (response : IntegratedChatResponse) (w : World) :
  exists response',
    speech api request features response w = (Ok response', w)
    /\ res_chat response' = res_chat response
    /\ res_knowledgeBase response' = res_knowledgeBase response
    /\ res_image response' = res_image response
    /\ res_requestType response' = res_requestType response
    /\ res_error response' = res_error response
    /\ res_moderation response' = res_moderation response
    /\ res_sessionId response' = res_sessionId response
    /\ res_features response' = res_features response.
Proof.
  unfold speech. unfold_eff.
  destruct (res_chat response) as [chat|] eqn:Hchat;
    [|exists response; rewrite Hchat; repeat split; reflexivity].
  destruct (f_textToSpeech features && default false (req_enableTTS request));
    [|exists response; rewrite Hchat; repeat split; reflexivity].
  destruct (textToSpeech api _ _ _) as [audio|m]; simpl.
  - exists (setAudio audio response). simpl. rewrite Hchat.
    repeat split; reflexivity.
  - exists response. rewrite Hchat. repeat split; reflexivity.
Qed.

Lemma route_outcome (api : Capabilities) (request : IntegratedChatRequest)
    (features : ChatFeatures) (now : Z) (response : IntegratedChatResponse) (w : World) :
  let sid := req_sessionId request in
  let requestType := analyzeRequestType (req_message request) in
  let w' := snd (route api request features now response w) in
  sessionFeatures w' = sessionFeatures w
  /\ documents w' = documents w
  /\ documentMetadata w' = documentMetadata w
  /\ moderationHistory w' = moderationHistory w
  /\ match fst (route api request features now response w) with
     | Ok r =>
         sessionStatistics w'
         = <[sid := accounted w sid requestType now]> (sessionStatistics w)
         /\ res_requestType r = Some requestType
         /\ res_error r = res_error response
         /\ res_moderation r = res_moderation response
         /\ res_sessionId r = res_sessionId response
         /\ res_features r = res_features response
         /\ (exists c, res_chat r = Some c)
         /\ (f_imageGeneration features = false -> res_image r = res_image response)
         /\ (f_knowledgeBase features = false ->
               res_knowledgeBase r = res_knowledgeBase response)
         /\ (requestType <> "image_generation" -> res_image r = res_image response)
         /\ (requestType <> "knowledge_base_query" ->
               res_knowledgeBase r = res_knowledgeBase response)
     | Throw _ => sessionStatistics w' = sessionStatistics w
     end.
Proof.
  intros sid requestType. cbv zeta. unfold route. fold requestType.
  pose proof (dispatch_frame api request features requestType
                (setRequestType requestType response) w) as Hd.
  cbv zeta in Hd. rewrite bind_run.
  destruct (dispatch api request features requestType
              (setRequestType requestType response) w) as [[r1|m] w1]; simpl in Hd.
  - destruct Hd as (Hs & Hf & Hdoc & Hdm & Hm & Ht & He & Hmod & Hsid & Hfeat
                    & [c Hc] & Hi & Hk & Hi' & Hk').
    destruct (speech_keeps api request features r1 w1)
      as (r2 & Hspeech & Hchat & Hkb & Himg & Htype & Herr & Hmod2 & Hsid2 & Hfeat2).
    rewrite bind_run, Hspeech, bind_run, updateStatistics_run. simpl.
    repeat (split; [assumption|]).
    unfold accounted. fold sid. rewrite Hs.
    split; [reflexivity|]. split; [congruence|]. split; [congruence|].
    split; [congruence|]. split; [congruence|]. split; [congruence|].
    split; [exists c; congruence|].
    repeat split; intros H; try rewrite Himg; try rewrite Hkb; auto.
  - destruct Hd as (Hs & Hf & Hdoc & Hdm & Hm & _). simpl. auto.
Qed.

(** How a request ends, with the response and the statistics that go with
    each ending. *)
Lemma processRequest_outcomes (api : Capabilities) (request : IntegratedChatRequest)
    (now : Z) (w : World) :
  let sid := req_sessionId request in
  let features := default defaultFeatures (sessionFeatures w !! sid) in
  exists response w' ending,
    processRequest api request now w = (Ok response, w')
    /\ sessionFeatures w' = sessionFeatures w
    /\ documents w' = documents w
    /\ documentMetadata w' = documentMetadata w
    /\ res_sessionId response = sid
    /\ res_features response = features
    /\ match ending with
       | Failed m =>
           response = errorResponse sid features m
           /\ sessionStatistics w' = sessionStatistics w
       | Blocked r =>
           f_moderation features = true
           /\ mod_flagged r = true
           /\ (exists w1,
                 ModerationService.moderateContent api
                   {| mr_content := req_message request; mr_sessionId := sid |} w
                 = (Ok r, w1)
                 /\ w' = snd (updateStatistics sid "moderation_blocked" now w1))
           /\ response
              = setChat (assistantSays sid (ModerationService.generateSafeResponse r))
                  (setModeration r (newResponse sid features))
           /\ sessionStatistics w'
              = <[sid := accounted w sid "moderation_blocked" now]> (sessionStatistics w)
       | Served requestType =>
           requestType = analyzeRequestType (req_message request)
           /\ res_requestType response = Some requestType
           /\ res_error response = None
           /\ (exists c, res_chat response = Some c)
           /\ (f_imageGeneration features = false -> res_image response = None)
           /\ (f_knowledgeBase features = false -> res_knowledgeBase response = None)
           /\ (requestType <> "image_generation" -> res_image response = None)
           /\ (requestType <> "knowledge_base_query" -> res_knowledgeBase response = None)
           /\ (f_moderation features = false -> res_moderation response = None)
           /\ (forall r, res_moderation response = Some r -> mod_flagged r = false)
           /\ sessionStatistics w'
              = <[sid := accounted w sid requestType now]> (sessionStatistics w)
       end.
Proof.
  intros sid features.
  (* the tail of the request, from a state [w1] reached by screening *)
  assert (Htail : forall response0 w1,
    res_error response0 = None -> res_image response0 = None ->
    res_knowledgeBase response0 = None ->
    res_sessionId response0 = sid -> res_features response0 = features ->
    documents w1 = documents w -> documentMetadata w1 = documentMetadata w ->
    sessionStatistics w1 = sessionStatistics w ->
    sessionFeatures w1 = sessionFeatures w ->
    exists response w' ending,
      match route api request features now response0 w1 with
      | (Ok a, w') => (Ok a, w')
      | (Throw m, w') =>
          (let* features := getSessionFeatures sid in
           ret (errorResponse sid features m))%eff w'
      end = (Ok response, w')
      /\ sessionFeatures w' = sessionFeatures w
      /\ documents w' = documents w
      /\ documentMetadata w' = documentMetadata w
      /\ res_sessionId response = sid
      /\ res_features response = features
      /\ match ending with
         | Failed m =>
             response = errorResponse sid features m
             /\ sessionStatistics w' = sessionStatistics w
         | Blocked r => False
         | Served requestType =>
             requestType = analyzeRequestType (req_message request)
             /\ res_requestType response = Some requestType
             /\ res_error response = None
             /\ (exists c, res_chat response = Some c)
             /\ (f_imageGeneration features = false -> res_image response = None)
             /\ (f_knowledgeBase features = false -> res_knowledgeBase response = None)
             /\ (requestType <> "image_generation" -> res_image response = None)
             /\ (requestType <> "knowledge_base_query" ->
                   res_knowledgeBase response = None)
             /\ res_moderation response = res_moderation response0
             /\ sessionStatistics w'
                = <[sid := accounted w sid requestType now]> (sessionStatistics w)
         end).
  { intros response0 w1 Herr0 Himg0 Hkb0 Hsid0 Hfeat0 Hd Hdm Hs Hf.
    pose proof (route_outcome api request features now response0 w1) as Hroute.
    cbv zeta in Hroute. fold sid in Hroute.
    destruct (route api request features now response0 w1) as [[r|m] w2];
      simpl in Hroute.
    - destruct Hroute as (Hf2 & Hd2 & Hdm2 & _ & Hst & Ht & He & Hmod & Hsid & Hfeat
                          & Hc & Hi & Hk & Hi' & Hk').
      exists r, w2, (Served (analyzeRequestType (req_message request))).
      split; [reflexivity|]. split; [congruence|]. split; [congruence|].
      split; [congruence|]. split; [congruence|]. split; [congruence|].
      split; [reflexivity|]. split; [exact Ht|]. split; [congruence|].
      split; [exact Hc|].
      split; [intros H; rewrite (Hi H); exact Himg0|].
      split; [intros H; rewrite (Hk H); exact Hkb0|].
      split; [intros H; rewrite (Hi' H); exact Himg0|].
      split; [intros H; rewrite (Hk' H); exact Hkb0|].
      split; [exact Hmod|].
      rewrite Hst. unfold accounted. now rewrite Hs.
    - destruct Hroute as (Hf2 & Hd2 & Hdm2 & _ & Hst).
      exists (errorResponse sid features m), w2, (Failed m).
      unfold getSessionFeatures. unfold_eff. simpl. rewrite Hf2, Hf. fold features.
      split; [reflexivity|]. split; [reflexivity|]. split; [congruence|].
      split; [congruence|].
      split; [reflexivity|]. split; [reflexivity|]. split; [reflexivity | congruence]. }
  unfold processRequest. rewrite tryCatch_run, bind_run.
  unfold getSessionFeatures at 1. unfold gets at 1. fold sid features.
  rewrite bind_run.
  destruct (f_moderation features) eqn:Hmod.
  - rewrite bind_run.
    pose proof (moderateContent_cases api
                  {| mr_content := req_message request; mr_sessionId := sid |} w)
      as Hcases.
    cbn [mr_content] in Hcases.
    assert (Hfailed : forall m,
      exists response w' ending,
        (let* features := getSessionFeatures sid in
         ret (errorResponse sid features m))%eff w = (Ok response, w')
        /\ sessionFeatures w' = sessionFeatures w
        /\ documents w' = documents w
        /\ documentMetadata w' = documentMetadata w
        /\ res_sessionId response = sid
        /\ res_features response = features
        /\ match ending with
           | Failed m =>
               response = errorResponse sid features m
               /\ sessionStatistics w' = sessionStatistics w
           | _ => False
           end).
    { intros m. exists (errorResponse sid features m), w, (Failed m).
      unfold getSessionFeatures. unfold_eff. simpl. fold features.
      repeat split; reflexivity. }
    destruct (moderations_create api (req_message request))
      as [[|result rest]|m] eqn:Hcreate.
    + rewrite Hcases.
      destruct (Hfailed "Content moderation failed: No moderation results returned")
        as (response & w' & [m'|r|t] & H1 & H2 & H3 & H4 & H5 & H6 & H7);
        try contradiction.
      exists response, w', (Failed m'). auto 10.
    + destruct Hcases as (r & w1 & Hrun & Hflag & _ & _ & Hd & Hdm & _ & Hf & Hs).
      rewrite Hrun. destruct (mod_flagged r) eqn:Hflagged.
      * rewrite bind_run, updateStatistics_run. unfold ret.
        eexists _, _, (Blocked r). split; [reflexivity|]. simpl.
        split; [exact Hf|]. split; [exact Hd|]. split; [exact Hdm|].
        split; [reflexivity|]. split; [reflexivity|].
        split; [reflexivity|]. split; [exact Hflagged|].
        split; [exists w1; split; reflexivity|].
        split; [reflexivity|]. unfold accounted. now rewrite Hs.
      * unfold ret at 1.
        destruct (Htail (setModeration r (newResponse sid features)) w1
                    eq_refl eq_refl eq_refl eq_refl eq_refl Hd Hdm Hs Hf)
          as (response & w' & [m'|r'|t] & H1 & H2 & H3 & H4 & H5 & H6 & H7);
          try contradiction.
        -- exists response, w', (Failed m'). auto 10.
        -- exists response, w', (Served t).
           destruct H7 as (G1 & G2 & G3 & G4 & G5 & G6 & G7 & G8 & G9 & G10).
           split; [exact H1|]. repeat (split; [assumption|]).
           split; [discriminate|]. split; [|exact G10].
           intros r0 Hr0. rewrite G9 in Hr0. simpl in Hr0. congruence.
    + rewrite Hcases.
      destruct (Hfailed ("Content moderation failed: " ++ m))
        as (response & w' & [m'|r|t] & H1 & H2 & H3 & H4 & H5 & H6 & H7);
        try contradiction.
      exists response, w', (Failed m'). auto 10.
  - unfold ret at 1.
    destruct (Htail (newResponse sid features) w
                eq_refl eq_refl eq_refl eq_refl eq_refl eq_refl eq_refl eq_refl eq_refl)
      as (response & w' & [m'|r'|t] & H1 & H2 & H3 & H4 & H5 & H6 & H7);
      try contradiction.
    + exists response, w', (Failed m'). auto 10.
    + exists response, w', (Served t).
      destruct H7 as (G1 & G2 & G3 & G4 & G5 & G6 & G7 & G8 & G9 & G10).
      split; [exact H1|]. repeat (split; [assumption|]).
      split; [intros _; rewrite G9; reflexivity|]. split; [|exact G10].
      intros r0 Hr0. rewrite G9 in Hr0. discriminate.
Qed.

Lemma analyzeRequestType_range (message : string) :
  analyzeRequestType message = "image_generation"
  \/ analyzeRequestType message = "knowledge_base_query"
  \/ analyzeRequestType message = "general_chat".
Proof.
  unfold analyzeRequestType.
  destruct (existsb _ imageKeywords); [now left|].
  destruct (existsb _ kbKeywords); [right; now left | right; now right].
Qed.

Lemma counter_accounted (field : SessionStatistics -> nat) (w w' : World)
    (sid action : string) (now : Z) :
  sessionStatistics w' = <[sid := accounted w sid action now]> (sessionStatistics w) ->
  counter field w' sid = field (accounted w sid action now)
  /\ forall other, other <> sid -> counter field w' other = counter field w other.
Proof.
  intros Hs. unfold counter. rewrite Hs, lookup_insert_eq. split; [reflexivity|].
  intros other Hne. now rewrite lookup_insert_ne by congruence.
Qed.

(** X19. Every request is answered. [processRequest] never throws: it returns
    a response for the session that carries a chat message. A failure is
    reported inside the response, which then is the error response (no
    request type, an apology that quotes the failure), and a failed
    request leaves the statistics as they were. *)
Theorem processRequest_always_answers (api : Capabilities)
    (request : IntegratedChatRequest) (now : Z) (w : World) :
  let sid := req_sessionId request in
  let features := default defaultFeatures (sessionFeatures w !! sid) in
  exists response w',
    processRequest api request now w = (Ok response, w')
    /\ res_sessionId response = sid
    /\ res_features response = features
    /\ (exists c, res_chat response = Some c
                  /\ msg_role c = assistant /\ msg_sessionId c = sid)
    /\ (forall m, res_error response = Some m ->
          response = errorResponse sid features m
          /\ sessionStatistics w' = sessionStatistics w).
Proof.
  intros sid features.
  destruct (processRequest_outcomes api request now w)
    as (response & w' & ending & Hrun & _ & _ & _ & Hsid & Hfeat & Hend).
  fold sid features in Hsid, Hfeat, Hend.
  exists response, w'. split; [exact Hrun|]. split; [exact Hsid|]. split; [exact Hfeat|].
  assert (Hchat : forall c, res_chat response = Some c ->
                    msg_role c = assistant /\ msg_sessionId c = sid).
  { (* every chat message a response carries is an assistant message of
       the session: by the shape of the three endings *)
    intros c Hc. clear Hend Hsid Hfeat.
    unfold processRequest in Hrun. rewrite tryCatch_run, bind_run in Hrun.
    unfold getSessionFeatures at 1 in Hrun. unfold gets at 1 in Hrun.
    fold sid features in Hrun.
    assert (Hsend : forall message w0 chat w1,
      ChatService.sendMessage api
        {| ccr_message := message; ccr_sessionId := sid |} w0 = (Ok chat, w1) ->
      msg_role chat = assistant /\ msg_sessionId chat = sid).
    { intros message w0 chat w1 H. rewrite sendMessage_run in H. cbv zeta in H.
      destruct (chat_completions_create api _) as [completion|]; [|discriminate].
      destruct (choices completion); [discriminate|].
      injection H as <- _. split; reflexivity. }
    assert (Hdispatch : forall t response0 w0 r w1,
      dispatch api request features t response0 w0 = (Ok r, w1) ->
      forall c, res_chat r = Some c -> msg_role c = assistant /\ msg_sessionId c = sid).
    { intros t response0 w0 r w1 H c0 Hc0. unfold dispatch in H.
      destruct (String.eqb t "image_generation").
      - destruct (f_imageGeneration features).
        + rewrite bind_run in H. unfold await in H.
          destruct (handleImageGeneration api request); [|discriminate].
          injection H as <- _. simpl in Hc0. injection Hc0 as <-. split; reflexivity.
        + rewrite bind_run in H.
          destruct (ChatService.sendMessage api _ w0) as [[chat|] w2] eqn:E;
            [|discriminate].
          injection H as <- _. simpl in Hc0. injection Hc0 as <-.
          exact (Hsend _ _ _ _ E).
      - destruct (String.eqb t "knowledge_base_query").
        + destruct (f_knowledgeBase features).
          * rewrite bind_run in H.
            destruct (KnowledgeBaseService.query api _ w0) as [[kb|] w2];
              [|discriminate].
            injection H as <- _. simpl in Hc0. injection Hc0 as <-. split; reflexivity.
          * rewrite bind_run in H.
            destruct (ChatService.sendMessage api _ w0) as [[chat|] w2] eqn:E;
              [|discriminate].
            injection H as <- _. simpl in Hc0. injection Hc0 as <-.
            exact (Hsend _ _ _ _ E).
        + rewrite bind_run in H.
          destruct (ChatService.sendMessage api _ w0) as [[chat|] w2] eqn:E;
            [|discriminate].
          injection H as <- _. simpl in Hc0. injection Hc0 as <-.
          exact (Hsend _ _ _ _ E). }
    assert (Hroute : forall response0 w0 r w1,
      route api request features now response0 w0 = (Ok r, w1) ->
      forall c, res_chat r = Some c -> msg_role c = assistant /\ msg_sessionId c = sid).
    { intros response0 w0 r w1 H c0 Hc0. unfold route in H. rewrite bind_run in H.
      destruct (dispatch api request features _ _ w0) as [[r1|] w2] eqn:E;
        [|discriminate].
      destruct (speech_keeps api request features r1 w2)
        as (r2 & Hspeech & Hchat2 & _).
      rewrite bind_run, Hspeech, bind_run, updateStatistics_run in H.
      injection H as <- _. rewrite Hchat2 in Hc0.
      exact (Hdispatch _ _ _ _ _ E c0 Hc0). }
    assert (Herror : forall m w0 r w1,
      (let* features := getSessionFeatures sid in
       ret (errorResponse sid features m))%eff w0 = (Ok r, w1) ->
      forall c, res_chat r = Some c -> msg_role c = assistant /\ msg_sessionId c = sid).
    { intros m w0 r w1 H c0 Hc0. unfold getSessionFeatures in H. unfold_eff.
      injection H as <- _. simpl in Hc0. injection Hc0 as <-. split; reflexivity. }
    rewrite bind_run in Hrun.
    destruct (f_moderation features).
    - rewrite bind_run in Hrun.
      destruct (ModerationService.moderateContent api _ w) as [[r|m] w1].
      + destruct (mod_flagged r).
        * rewrite bind_run, updateStatistics_run in Hrun. unfold ret in Hrun.
          injection Hrun as <- _. simpl in Hc. injection Hc as <-. split; reflexivity.
        * unfold ret at 1 in Hrun.
          destruct (route api request features now _ w1) as [[r1|m] w2] eqn:E.
          -- injection Hrun as <- _. exact (Hroute _ _ _ _ E c Hc).
          -- exact (Herror _ _ _ _ Hrun c Hc).
      + exact (Herror _ _ _ _ Hrun c Hc).
    - unfold ret at 1 in Hrun.
      destruct (route api request features now _ w) as [[r1|m] w2] eqn:E.
      + injection Hrun as <- _. exact (Hroute _ _ _ _ E c Hc).
      + exact (Herror _ _ _ _ Hrun c Hc). }
  destruct ending as [m|r|t].
  - destruct Hend as [-> Hs]. split.
    + eexists. split; [reflexivity|]. split; reflexivity.
    + intros m' [= <-]. split; [reflexivity | exact Hs].
  - destruct Hend as (_ & _ & _ & -> & _). split.
    + eexists. split; [reflexivity|]. split; reflexivity.
    + intros m'. discriminate.
  - destruct Hend as (_ & _ & Herr & [c Hc] & _). split.
    + exists c. split; [exact Hc | exact (Hchat c Hc)].
    + intros m' Hm'. congruence.
Qed.

(** X20. What is counted can be read off the response. A response with a
    request type counts one message, and one image or one knowledge base
    query when that is its type; a response with neither request type nor
    error is a blocked one and counts one block. *)
Theorem processRequest_accounting (api : Capabilities)
    (request : IntegratedChatRequest) (now : Z) (w w' : World)
    (response : IntegratedChatResponse) :
  processRequest api request now w = (Ok response, w') ->
  let sid := req_sessionId request in
  let type := res_requestType response in
  counter messagesCount w' sid
  = counter messagesCount w sid + bump (bool_decide (type <> None))
  /\ counter imagesGenerated w' sid
     = counter imagesGenerated w sid + bump (bool_decide (type = Some "image_generation"))
  /\ counter knowledgeBaseQueries w' sid
     = counter knowledgeBaseQueries w sid
       + bump (bool_decide (type = Some "knowledge_base_query"))
  /\ counter moderationBlocked w' sid
     = counter moderationBlocked w sid
       + bump (bool_decide (type = None /\ res_error response = None)).
Proof.
  intros Hrun sid type.
  destruct (processRequest_outcomes api request now w)
    as (response0 & w0 & ending & Hrun0 & _ & _ & _ & _ & _ & Hend).
  rewrite Hrun in Hrun0. injection Hrun0 as <- <-. fold sid in Hend.
  destruct ending as [m|r|t].
  - destruct Hend as [Hresp Hs]. unfold type, counter. rewrite Hresp, Hs. simpl.
    destruct (sessionStatistics w !! sid); simpl; repeat split; lia.
  - destruct Hend as (_ & _ & _ & Hresp & Hs).
    unfold type. rewrite Hresp. simpl.
    rewrite !(proj1 (counter_accounted _ w w' sid _ now Hs)).
    unfold accounted, counter.
    destruct (sessionStatistics w !! sid); simpl; repeat split; lia.
  - destruct Hend as (Ht & Htype & Herr & _ & _ & _ & _ & _ & _ & _ & Hs).
    unfold type. rewrite Htype, Herr.
    rewrite !(proj1 (counter_accounted _ w w' sid _ now Hs)).
    unfold accounted, counter.
    destruct (analyzeRequestType_range (req_message request)) as [E|[E|E]];
      rewrite Ht, E;
      destruct (sessionStatistics w !! sid); simpl; repeat split; lia.
Qed.

Lemma processRequest_accounting_witness :
  counter messagesCount
    (snd (processRequest chattyApi embeddingQuestion 0 worldWithKnowledgeBaseOff)) "s"
  = 0 + bump (bool_decide
                (Some "knowledge_base_query" <> (None : option string))).
Proof.
  apply (processRequest_accounting chattyApi embeddingQuestion 0
           worldWithKnowledgeBaseOff
           (snd (processRequest chattyApi embeddingQuestion 0 worldWithKnowledgeBaseOff))
           (setChat
              {| msg_role := assistant;
                 msg_content := "Please enable the knowledge base.";
                 msg_sessionId := "s";
                 msg_tokenUsage :=
                   Some {| promptTokens := 0; completionTokens := 0; totalTokens := 0 |} |}
              (setRequestType "knowledge_base_query"
                 (setModeration
                    {| mod_content := "What is an embedding?";
                       mod_flagged := false;
                       mod_categories :=
                         {| hate := false; hateThreatening := false;
                            harassment := false; harassmentThreatening := false;
                            selfHarm := false; selfHarmIntent := false;
                            selfHarmInstructions := false; sexual := false;
                            sexualMinors := false; violence := false;
                            violenceGraphic := false |};
                       mod_categoryScores :=
                         {| s_hate := 0; s_hateThreatening := 0; s_harassment := 0;
                            s_harassmentThreatening := 0; s_selfHarm := 0;
                            s_selfHarmIntent := 0; s_selfHarmInstructions := 0;
                            s_sexual := 0; s_sexualMinors := 0; s_violence := 0;
                            s_violenceGraphic := 0 |};
                       mod_sessionId := "s";
                       mod_action := allow;
                       mod_riskLevel := low |}
                    (newResponse "s" knowledgeBaseOff))))).
  vm_compute. reflexivity.
Defined.

(** X21. What a request never touches: the session's features, the knowledge
    base, the statistics of every other session, and, in every session,
    the counters of moderation checks, tokens and transcriptions, which
    no request ever moves. *)
Theorem processRequest_untouched (api : Capabilities)
    (request : IntegratedChatRequest) (now : Z) (w : World) :
  let sid := req_sessionId request in
  let w' := snd (processRequest api request now w) in
  sessionFeatures w' = sessionFeatures w
  /\ documents w' = documents w
  /\ documentMetadata w' = documentMetadata w
  /\ (forall other, other <> sid ->
        sessionStatistics w' !! other = sessionStatistics w !! other)
  /\ (forall s, counter moderationChecks w' s = counter moderationChecks w s
                /\ counter tokensUsed w' s = counter tokensUsed w s
                /\ counter audioTranscriptions w' s = counter audioTranscriptions w s).
Proof.
  intros sid w'.
  destruct (processRequest_outcomes api request now w)
    as (response & w0 & ending & Hrun & Hf & Hd & Hdm & _ & _ & Hend).
  unfold w'. rewrite Hrun. simpl. fold sid in Hend.
  split; [exact Hf|]. split; [exact Hd|]. split; [exact Hdm|].
  assert (Hstats : sessionStatistics w0 = sessionStatistics w
                   \/ exists action,
                        In action ["moderation_blocked"; "image_generation";
                                   "knowledge_base_query"; "general_chat"]
                        /\ sessionStatistics w0
                           = <[sid := accounted w sid action now]> (sessionStatistics w)).
  { destruct ending as [m|r|t].
    - left. apply Hend.
    - right. exists "moderation_blocked". split; [now left | apply Hend].
    - right. exists t. split; [|apply Hend].
      destruct Hend as [-> _].
      destruct (analyzeRequestType_range (req_message request)) as [-> | [-> | ->]];
        simpl; auto. }
  destruct Hstats as [Hs|(action & Haction & Hs)].
  - unfold counter. rewrite Hs. auto.
  - split.
    + intros other Hne. rewrite Hs. apply lookup_insert_ne. congruence.
    + intros s. destruct (decide (s = sid)) as [->|Hne].
      * rewrite !(proj1 (counter_accounted _ w w0 sid action now Hs)).
        unfold accounted, counter.
        destruct Haction as [<- | [<- | [<- | [<- | []]]]];
          destruct (sessionStatistics w !! sid); simpl; repeat split; lia.
      * rewrite !(proj2 (counter_accounted _ w w0 sid action now Hs) s Hne). auto.
Qed.

(** X22. A flagged message goes no further than the moderation step. The
    reply is the safe response for the verdict, the verdict is recorded,
    one block is counted and no message; the chat history and the
    knowledge base are untouched, and no other endpoint is consulted. *)
Theorem processRequest_blocks_flagged (api : Capabilities)
    (request : IntegratedChatRequest) (now : Z) (w w1 : World)
    (verdict : ModerationResponse) :
  let sid := req_sessionId request in
  let features := default defaultFeatures (sessionFeatures w !! sid) in
  f_moderation features = true ->
  ModerationService.moderateContent api
    {| mr_content := req_message request; mr_sessionId := sid |} w = (Ok verdict, w1) ->
  mod_flagged verdict = true ->
  exists w',
    processRequest api request now w
    = (Ok (setChat (assistantSays sid (ModerationService.generateSafeResponse verdict))
             (setModeration verdict (newResponse sid features))), w')
    /\ chatHistory w' = chatHistory w
    /\ documents w' = documents w
    /\ ModerationService.getModerationHistory sid w'
       = (ModerationService.getModerationHistory sid w ++ [verdict])%list
    /\ counter moderationBlocked w' sid = counter moderationBlocked w sid + 1
    /\ counter messagesCount w' sid = counter messagesCount w sid
    /\ (forall api2, moderations_create api2 = moderations_create api ->
          processRequest api2 request now w = processRequest api request now w).
Proof.
  intros sid features Hmod Hrun Hflag.
  assert (Hstep : forall api0,
    ModerationService.moderateContent api0
      {| mr_content := req_message request; mr_sessionId := sid |} w = (Ok verdict, w1) ->
    processRequest api0 request now w
    = (Ok (setChat (assistantSays sid (ModerationService.generateSafeResponse verdict))
             (setModeration verdict (newResponse sid features))),
       snd (updateStatistics sid "moderation_blocked" now w1))).
  { intros api0 Hrun0. unfold processRequest. rewrite tryCatch_run, bind_run.
    unfold getSessionFeatures at 1. unfold gets at 1. fold sid features.
    rewrite bind_run, Hmod, bind_run, Hrun0, Hflag, bind_run, updateStatistics_run.
    reflexivity. }
  exists (snd (updateStatistics sid "moderation_blocked" now w1)).
  split; [now apply Hstep|].
  pose proof (moderateContent_appends api
                {| mr_content := req_message request; mr_sessionId := sid |} w) as Hhist.
  pose proof (moderateContent_cases api
                {| mr_content := req_message request; mr_sessionId := sid |} w) as Hcases.
  cbn [mr_content mr_sessionId] in Hhist, Hcases. cbv zeta in Hhist.
  rewrite Hrun in Hhist. destruct Hhist as (Hh & _).
  assert (Hframe : chatHistory w1 = chatHistory w /\ documents w1 = documents w
                   /\ sessionStatistics w1 = sessionStatistics w).
  { destruct (moderations_create api (req_message request)) as [[|result rest]|m].
    - rewrite Hcases in Hrun. discriminate.
    - destruct Hcases as (r & w2 & Hrun2 & _ & _ & _ & Hd & _ & Hc & _ & Hs).
      rewrite Hrun in Hrun2. injection Hrun2 as _ <-. auto.
    - rewrite Hcases in Hrun. discriminate. }
  destruct Hframe as (Hc & Hd & Hs).
  rewrite updateStatistics_run. simpl.
  split; [exact Hc|]. split; [exact Hd|]. split; [exact Hh|].
  unfold counter. simpl. rewrite !lookup_insert_eq, Hs.
  split; [destruct (sessionStatistics w !! sid); simpl; lia|].
  split; [destruct (sessionStatistics w !! sid); simpl; lia|].
  intros api2 Hsame. rewrite (Hstep api); [|exact Hrun]. apply Hstep.
  rewrite <- Hrun. unfold ModerationService.moderateContent. unfold_eff.
  simpl. now rewrite Hsame.
Qed.

Lemma processRequest_blocks_flagged_witness :
  let api := scriptedApi (Ok [graphicViolence]) (Throw unavailable) (Throw unavailable) in
  let request := {| req_message := "x"; req_sessionId := "s";
                    req_enableTTS := None; req_ttsVoice := None |} in
  counter moderationBlocked (snd (processRequest api request 0 emptyWorld)) "s" = 1
  /\ counter messagesCount (snd (processRequest api request 0 emptyWorld)) "s" = 0.
Proof.
  intros api request.
  destruct (processRequest_blocks_flagged api request 0 emptyWorld
              (snd (ModerationService.moderateContent api
                      {| mr_content := "x"; mr_sessionId := "s" |} emptyWorld))
              match fst (ModerationService.moderateContent api
                           {| mr_content := "x"; mr_sessionId := "s" |} emptyWorld) with
              | Ok r => r
              | Throw _ =>
                  {| mod_content := "x"; mod_flagged := false;
                     mod_categories :=
                       {| hate := false; hateThreatening := false;
                          harassment := false; harassmentThreatening := false;
                          selfHarm := false; selfHarmIntent := false;
                          selfHarmInstructions := false; sexual := false;
                          sexualMinors := false; violence := false;
                          violenceGraphic := false |};
                     mod_categoryScores :=
                       {| s_hate := 0; s_hateThreatening := 0; s_harassment := 0;
                          s_harassmentThreatening := 0; s_selfHarm := 0;
                          s_selfHarmIntent := 0; s_selfHarmInstructions := 0;
                          s_sexual := 0; s_sexualMinors := 0; s_violence := 0;
                          s_violenceGraphic := 0 |};
                     mod_sessionId := "s"; mod_action := allow; mod_riskLevel := low |}
              end eq_refl eq_refl eq_refl)
    as (w' & Hrun & _ & _ & _ & Hblocked & Hmessages & _).
  rewrite Hrun. split; [exact Hblocked | exact Hmessages].
Defined.

(** X23. A request for an image is counted as a generated image even when
    image generation is switched off for the session (as it is by
    default) and no image is made. *)
Theorem image_request_is_counted_when_disabled (api : Capabilities)
    (request : IntegratedChatRequest) (now : Z) (w : World) :
  let sid := req_sessionId request in
  let features := default defaultFeatures (sessionFeatures w !! sid) in
  f_imageGeneration features = false ->
  analyzeRequestType (req_message request) = "image_generation" ->
  exists response w',
    processRequest api request now w = (Ok response, w')
    /\ res_image response = None
    /\ (res_requestType response = Some "image_generation" ->
          res_error response = None
          /\ counter imagesGenerated w' sid = counter imagesGenerated w sid + 1).
Proof.
  intros sid features Hoff Himg.
  destruct (processRequest_outcomes api request now w)
    as (response & w' & ending & Hrun & _ & _ & _ & _ & _ & Hend).
  fold sid features in Hend. exists response, w'. split; [exact Hrun|].
  destruct ending as [m|r|t].
  - destruct Hend as [-> _]. split; [reflexivity | discriminate].
  - destruct Hend as (_ & _ & _ & -> & _). split; [reflexivity | discriminate].
  - destruct Hend as (Ht & Htype & Herr & _ & Hi & _ & _ & _ & _ & _ & Hs).
    split; [now apply Hi|]. intros _. split; [exact Herr|].
    rewrite (proj1 (counter_accounted _ w w' sid t now Hs)).
    unfold accounted, counter. rewrite Ht, Himg.
    destruct (sessionStatistics w !! sid); simpl; lia.
Qed.

Lemma image_request_is_counted_when_disabled_witness :
  let request := {| req_message := "Draw a whale"; req_sessionId := "s";
                    req_enableTTS := None; req_ttsVoice := None |} in
  exists response w',
    processRequest chattyApi request 0 emptyWorld = (Ok response, w')
    /\ res_image response = None
    /\ (res_requestType response = Some "image_generation" ->
          res_error response = None
          /\ counter imagesGenerated w' "s" = counter imagesGenerated emptyWorld "s" + 1).
Proof.
  intros request.
  apply (image_request_is_counted_when_disabled chattyApi request 0 emptyWorld);
    reflexivity.
Defined.

(** X24. The counters of a session stay in step: images and knowledge base
    queries are messages, so together they never exceed the message
    count; a request keeps this true in every session. *)
Theorem processRequest_keeps_counters_in_step (api : Capabilities)
    (request : IntegratedChatRequest) (now : Z) (w : World) :
  (forall s stats, sessionStatistics w !! s = Some stats ->
     imagesGenerated stats + knowledgeBaseQueries stats <= messagesCount stats) ->
  forall s stats,
    sessionStatistics (snd (processRequest api request now w)) !! s = Some stats ->
    imagesGenerated stats + knowledgeBaseQueries stats <= messagesCount stats.
Proof.
  intros Hinv s stats.
  destruct (processRequest_outcomes api request now w)
    as (response & w' & ending & Hrun & _ & _ & _ & _ & _ & Hend).
  rewrite Hrun. simpl.
  set (sid := req_sessionId request) in *.
  assert (Hstats : sessionStatistics w' = sessionStatistics w
                   \/ exists action,
                        In action ["moderation_blocked"; "image_generation";
                                   "knowledge_base_query"; "general_chat"]
                        /\ sessionStatistics w'
                           = <[sid := accounted w sid action now]> (sessionStatistics w)).
  { destruct ending as [m|r|t].
    - left. apply Hend.
    - right. exists "moderation_blocked". split; [now left | apply Hend].
    - right. exists t. split; [|apply Hend].
      destruct Hend as [-> _].
      destruct (analyzeRequestType_range (req_message request)) as [-> | [-> | ->]];
        simpl; auto. }
  destruct Hstats as [Hs|(action & Haction & Hs)]; rewrite Hs; [apply Hinv|].
  destruct (decide (s = sid)) as [->|Hne].
  - rewrite lookup_insert_eq. intros [= <-]. unfold accounted.
    pose proof (Hinv sid) as Hsid.
    destruct (sessionStatistics w !! sid) as [old|];
      [specialize (Hsid old eq_refl)|];
      destruct Haction as [<- | [<- | [<- | [<- | []]]]]; simpl; lia.
  - rewrite lookup_insert_ne by congruence. apply Hinv.
Qed.

Lemma processRequest_keeps_counters_in_step_witness :
  exists stats,
    sessionStatistics
      (snd (processRequest chattyApi embeddingQuestion 7 worldAfterTwoRequests)) !! "s"
    = Some stats
    /\ messagesCount stats = 3
    /\ imagesGenerated stats = 1
    /\ knowledgeBaseQueries stats = 1
    /\ imagesGenerated stats + knowledgeBaseQueries stats <= messagesCount stats.
Proof.
  eexists. split; [vm_compute; reflexivity|].
  split; [reflexivity|]. split; [reflexivity|]. split; [reflexivity|].
  apply (processRequest_keeps_counters_in_step chattyApi embeddingQuestion 7
           worldAfterTwoRequests) with (s := "s").
  - intros s stats Hs. destruct (decide (s = "s")) as [->|Hne].
    + vm_compute in Hs. injection Hs as <-. vm_compute. lia.
    + unfold worldAfterTwoRequests in Hs. rewrite !updateStatistics_run in Hs.
      simpl in Hs. rewrite !lookup_insert_ne in Hs by congruence.
      rewrite lookup_empty in Hs. discriminate.
  - vm_compute. reflexivity.
Defined.

End Requests.

Section Sessions.
Import IntegrationService.
Local Open Scope string_scope.

(** X25. [clearSession] forgets the session in all four maps: afterwards it
    reads like a session never seen (empty histories, default features,
    counters at zero), every other session is as before, the knowledge
    base, which is shared, is untouched, and clearing again changes
    nothing. *)
Theorem clearSession_forgets (sessionId : string) (w : World) :
  let w' := snd (clearSession sessionId w) in
  fst (clearSession sessionId w) = Ok tt
  /\ ChatService.getChatHistory sessionId w' = []
  /\ ModerationService.getModerationHistory sessionId w' = []
  /\ fst (getSessionFeatures sessionId w') = Ok defaultFeatures
  /\ (forall field, counter field w' sessionId = 0)
  /\ (forall other, other <> sessionId ->
        chatHistory w' !! other = chatHistory w !! other
        /\ moderationHistory w' !! other = moderationHistory w !! other
        /\ sessionFeatures w' !! other = sessionFeatures w !! other
        /\ sessionStatistics w' !! other = sessionStatistics w !! other)
  /\ documents w' = documents w
  /\ documentMetadata w' = documentMetadata w
  /\ snd (clearSession sessionId w') = w'.
Proof.
  unfold clearSession, ChatService.clearChatHistory,
    ModerationService.clearModerationHistory, getSessionFeatures,
    ChatService.getChatHistory, ModerationService.getModerationHistory, counter.
  unfold_eff. simpl. rewrite !lookup_delete_eq. simpl.
  repeat split; try reflexivity;
    try (rewrite lookup_delete_ne by congruence; reflexivity).
  unfold withSessionStatistics, withSessionFeatures, withModerationHistory,
    withChatHistory. simpl.
  rewrite !delete_delete_eq. reflexivity.
Qed.

(** X26. The features configured for a session are the ones read back, the
    last configuration wins, other sessions are not affected, and a
    session that was never configured reads the defaults, in which image
    generation, audio input and speech are off. *)
Theorem session_features_round_trip (sessionId : string) (features earlier : ChatFeatures)
    (w : World) :
  let w' := snd (configureSessionFeatures sessionId features w) in
  fst (getSessionFeatures sessionId w') = Ok features
  /\ snd (configureSessionFeatures sessionId features
            (snd (configureSessionFeatures sessionId earlier w))) = w'
  /\ (forall other, other <> sessionId ->
        fst (getSessionFeatures other w') = fst (getSessionFeatures other w))
  /\ (sessionFeatures w !! sessionId = None ->
        fst (getSessionFeatures sessionId w) = Ok defaultFeatures)
  /\ f_imageGeneration defaultFeatures = false
  /\ f_audioInput defaultFeatures = false
  /\ f_textToSpeech defaultFeatures = false
  /\ chatHistory w' = chatHistory w
  /\ sessionStatistics w' = sessionStatistics w.
Proof.
  unfold configureSessionFeatures, getSessionFeatures. unfold_eff. simpl.
  rewrite lookup_insert_eq. split; [reflexivity|].
  split; [unfold withSessionFeatures; simpl; now rewrite insert_insert_eq|].
  split; [intros other Hne; now rewrite lookup_insert_ne by congruence|].
  split; [intros ->; reflexivity|]. repeat split; reflexivity.
Qed.

Lemma countFeatures_le (counts : FeatureCounts) (f : ChatFeatures) :
  n_chat (countFeatures counts f) <= S (n_chat counts)
  /\ n_knowledgeBase (countFeatures counts f) <= S (n_knowledgeBase counts)
  /\ n_imageGeneration (countFeatures counts f) <= S (n_imageGeneration counts)
  /\ n_audioInput (countFeatures counts f) <= S (n_audioInput counts)
  /\ n_textToSpeech (countFeatures counts f) <= S (n_textToSpeech counts)
  /\ n_moderation (countFeatures counts f) <= S (n_moderation counts).
Proof.
  unfold countFeatures. simpl.
  destruct (f_chat f), (f_knowledgeBase f), (f_imageGeneration f), (f_audioInput f),
    (f_textToSpeech f), (f_moderation f); repeat split; lia.
Qed.

Lemma fold_countFeatures_le (l : list ChatFeatures) (counts : FeatureCounts) :
  let total := fold_left countFeatures l counts in
  n_chat total <= n_chat counts + length l
  /\ n_knowledgeBase total <= n_knowledgeBase counts + length l
  /\ n_imageGeneration total <= n_imageGeneration counts + length l
  /\ n_audioInput total <= n_audioInput counts + length l
  /\ n_textToSpeech total <= n_textToSpeech counts + length l
  /\ n_moderation total <= n_moderation counts + length l.
Proof.
  revert counts. induction l as [|f l IH]; intros counts; cbn [fold_left length];
    [cbv zeta; lia|].
  specialize (IH (countFeatures counts f)). cbv zeta in IH |- *.
  destruct IH as (H1 & H2 & H3 & H4 & H5 & H6).
  destruct (countFeatures_le counts f) as (G1 & G2 & G3 & G4 & G5 & G6).
  repeat split; lia.
Qed.

(** X27. The system statistics count the sessions that have statistics and
    add up their messages; the average is that quotient rounded to the
    nearest integer (halves upwards), and zero, not a division by zero,
    when there is no session. No feature is counted more often than there
    are configured sessions. *)
Theorem getSystemStatistics_totals (w : World) :
  let statistics := getSystemStatistics w in
  let sessions := map snd (map_to_list (sessionStatistics w)) in
  totalSessions statistics = size (sessionStatistics w)
  /\ totalRequests statistics = sum_list_with messagesCount sessions
  /\ (sessionStatistics w = ∅ -> averageRequestsPerSession statistics = 0)
  /\ (sessionStatistics w <> ∅ ->
        2 * totalSessions statistics * averageRequestsPerSession statistics
        <= 2 * totalRequests statistics + totalSessions statistics
        /\ 2 * totalRequests statistics + totalSessions statistics
           < 2 * totalSessions statistics * (averageRequestsPerSession statistics + 1))
  /\ n_chat (activeFeatures statistics) <= size (sessionFeatures w)
  /\ n_knowledgeBase (activeFeatures statistics) <= size (sessionFeatures w)
  /\ n_imageGeneration (activeFeatures statistics) <= size (sessionFeatures w)
  /\ n_audioInput (activeFeatures statistics) <= size (sessionFeatures w)
  /\ n_textToSpeech (activeFeatures statistics) <= size (sessionFeatures w)
  /\ n_moderation (activeFeatures statistics) <= size (sessionFeatures w).
Proof.
  intros statistics sessions. unfold statistics, getSystemStatistics. simpl.
  fold sessions.
  assert (Hsize : length sessions = size (sessionStatistics w)).
  { unfold sessions. rewrite length_map. apply length_map_to_list. }
  split; [exact Hsize|]. split; [now rewrite fold_messagesCount|].
  split; [|split].
  - intros Hempty. unfold sessions. rewrite Hempty, map_to_list_empty. reflexivity.
  - intros Hne.
    assert (Hpos : 0 < length sessions).
    { rewrite Hsize. destruct (size (sessionStatistics w)) eqn:E; [|lia].
      apply map_size_empty_iff in E. contradiction. }
    rewrite (proj2 (Nat.ltb_lt _ _) Hpos). now apply roundDiv_bounds.
  - pose proof (fold_countFeatures_le (map snd (map_to_list (sessionFeatures w)))
                  {| n_chat := 0; n_knowledgeBase := 0; n_imageGeneration := 0;
                     n_audioInput := 0; n_textToSpeech := 0; n_moderation := 0 |}) as H.
    cbv zeta in H. rewrite length_map, length_map_to_list in H. simpl in H.
    destruct H as (H1 & H2 & H3 & H4 & H5 & H6). repeat split; assumption.
Qed.

End Sessions.

(* ===================================================================== *)
(** * Prompt and file validation *)
(* ===================================================================== *)

Section PromptValidation.
Import ImageService.
Local Open Scope string_scope.

Lemma filter_length_pos {A} (f : A -> bool) (l : list A) :
  Nat.ltb 0 (length (List.filter f l)) = existsb f l.
Proof.
  induction l as [|x l IH]; simpl; [reflexivity|].
  destruct (f x); [reflexivity | exact IH].
Qed.

Lemma chars_app (a b : string) : chars (a ++ b) = (chars a ++ chars b)%list.
Proof.
  unfold chars. induction a as [|c a IH]; simpl; [reflexivity|]. now f_equal.
Qed.

Lemma string_length_app (a b : string) :
  String.length (a ++ b) = String.length a + String.length b.
Proof.
  induction a as [|c a IH]; simpl; [reflexivity|]. now rewrite IH.
Qed.

Lemma validatePrompt_issues (prompt : string) :
  issues (validatePrompt prompt)
  = ((if Nat.ltb (String.length prompt) 10 then ["Prompt is too short"] else [])
       ++ (if Nat.ltb 1000 (String.length prompt) then ["Prompt is too long"] else [])
       ++ (if existsb (fun word => JS.includes (chars word) (JS.toLowerCase (chars prompt)))
                problematicWords
           then ["Prompt may contain inappropriate content"] else []))%list.
Proof.
  unfold validatePrompt. rewrite filter_length_pos.
  destruct (Nat.ltb (String.length prompt) 10), (Nat.ltb 1000 (String.length prompt)),
    (existsb _ problematicWords); reflexivity.
Qed.

Lemma validatePrompt_suggestions (prompt : string) :
  suggestions (validatePrompt prompt)
  = ((if Nat.ltb (String.length prompt) 10
      then ["Add more descriptive details to your prompt"] else [])
       ++ (if Nat.ltb 1000 (String.length prompt)
           then ["Shorten your prompt to under 1000 characters"] else [])
       ++ (if existsb (fun word => JS.includes (chars word) (JS.toLowerCase (chars prompt)))
                problematicWords
           then ["Remove potentially inappropriate terms and try again"] else [])
       ++ (if negb (JS.includes (chars "detailed") (chars prompt))
              && negb (JS.includes (chars "high quality") (chars prompt))
           then [considerDetailed] else []))%list.
Proof.
  unfold validatePrompt. rewrite filter_length_pos.
  destruct (Nat.ltb (String.length prompt) 10), (Nat.ltb 1000 (String.length prompt)),
    (existsb _ problematicWords), (negb _ && negb _); reflexivity.
Qed.

Lemma validatePrompt_isValid (prompt : string) :
  isValid (validatePrompt prompt)
  = Nat.eqb (length (issues (validatePrompt prompt))) 0.
Proof.
  unfold validatePrompt. rewrite filter_length_pos.
  destruct (Nat.ltb (String.length prompt) 10), (Nat.ltb 1000 (String.length prompt)),
    (existsb _ problematicWords); reflexivity.
Qed.

(** X28. A prompt is valid exactly when it has between 10 and 1000 characters
    and none of the five listed words occurs in it, in whatever case.
    There are at most two issues, one suggestion per issue, and one more
    suggestion exactly when neither 'detailed' nor 'high quality' occurs in
    the prompt as written (this test does not fold case). *)
Theorem validatePrompt_verdict (prompt : string) :
  let v := validatePrompt prompt in
  let lower := JS.toLowerCase (chars prompt) in
  (isValid v = true <->
     10 <= String.length prompt <= 1000
     /\ forall word, In word problematicWords -> ~ occursIn (chars word) lower)
  /\ (isValid v = true <-> issues v = [])
  /\ length (issues v) <= 2
  /\ length (issues v) <= length (suggestions v) <= length (issues v) + 1
  /\ (In considerDetailed (suggestions v) <->
        ~ occursIn (chars "detailed") (chars prompt)
        /\ ~ occursIn (chars "high quality") (chars prompt)).
Proof.
  intros v lower. unfold v.
  rewrite validatePrompt_isValid, validatePrompt_issues, validatePrompt_suggestions.
  fold lower.
  pose proof (existsb_includes problematicWords lower) as Hfound.
  pose proof (includes_spec (chars "detailed") (chars prompt)) as Hd.
  pose proof (includes_spec (chars "high quality") (chars prompt)) as Hq.
  assert (Hclean :
    existsb (fun word => JS.includes (chars word) lower) problematicWords = false
    <-> forall word, In word problematicWords -> ~ occursIn (chars word) lower).
  { split.
    - intros Hnone word Hin Hocc.
      assert (Hsome : existsb (fun word => JS.includes (chars word) lower)
                        problematicWords = true) by (apply Hfound; eauto).
      congruence.
    - intros Hnone. apply not_true_is_false. intros E.
      apply Hfound in E as (word & Hin & Hocc). now destruct (Hnone word Hin). }
  destruct (Nat.ltb (String.length prompt) 10) eqn:E1;
    [apply Nat.ltb_lt in E1 | apply Nat.ltb_ge in E1];
    (destruct (Nat.ltb 1000 (String.length prompt)) eqn:E2;
       [apply Nat.ltb_lt in E2 | apply Nat.ltb_ge in E2]); try lia;
    destruct (existsb _ problematicWords) eqn:E3;
    destruct (JS.includes (chars "detailed") (chars prompt)) eqn:E4;
    destruct (JS.includes (chars "high quality") (chars prompt)) eqn:E5;
    cbn [app length Nat.eqb negb andb];
    (split; [split; [first [discriminate | intros _; split; [lia | now apply Hclean]]
                    | intros [Hlen Hnone]; try lia;
                      try (apply Hclean in Hnone; discriminate); reflexivity]|]);
    (split; [split; [try discriminate; reflexivity | try discriminate; reflexivity]|]);
    (split; [lia|]); (split; [lia|]);
    (split;
       [intros Hin; simpl in Hin; unfold considerDetailed in Hin;
        repeat (destruct Hin as [Hin|Hin]; [try discriminate|]);
        first [contradiction
              | split; intros Hocc; [apply Hd in Hocc | apply Hq in Hocc]; discriminate]
       |intros [Hnd Hnq];
        try (exfalso; apply Hnd; apply Hd; reflexivity);
        try (exfalso; apply Hnq; apply Hq; reflexivity);
        repeat first [left; reflexivity | right]]).
Qed.

(** X29. A prompt that went through [enhancePrompt] is never too short and
    never earns the suggestion to add 'detailed' or 'high quality': the
    quality modifiers contain both. *)
Theorem enhancePrompt_then_validatePrompt (userPrompt : string) (style : option Style) :
  let v := validatePrompt (enhancePrompt userPrompt style) in
  ~ In "Prompt is too short" (issues v)
  /\ ~ In considerDetailed (suggestions v)
  /\ length (suggestions v) = length (issues v)
  /\ occursIn (chars "high quality") (chars (enhancePrompt userPrompt style))
  /\ occursIn (chars userPrompt) (chars (enhancePrompt userPrompt style)).
Proof.
  intros v.
  set (prompt := enhancePrompt userPrompt style) in *.
  assert (Hlen : 10 <= String.length prompt).
  { unfold prompt, enhancePrompt. rewrite !string_length_app.
    unfold qualityModifiers. simpl. lia. }
  assert (Hdetailed : occursIn (chars "detailed") (chars prompt)).
  { exists (chars (userPrompt ++ ", " ++ styleModifiers (default realistic style) ++ ", ")
              ++ chars "high quality, ")%list, (chars ", well-composed").
    unfold prompt, enhancePrompt, qualityModifiers.
    rewrite !chars_app, <- !app_assoc. reflexivity. }
  assert (Hquality : occursIn (chars "high quality") (chars prompt)).
  { exists (chars (userPrompt ++ ", " ++ styleModifiers (default realistic style) ++ ", ")),
           (chars ", detailed, well-composed").
    unfold prompt, enhancePrompt, qualityModifiers.
    rewrite !chars_app, <- !app_assoc. reflexivity. }
  assert (Hnot : ~ In considerDetailed (suggestions v)).
  { unfold v. rewrite validatePrompt_suggestions. fold prompt.
    rewrite (proj2 (includes_spec _ _) Hdetailed). cbn [negb andb].
    unfold considerDetailed.
    destruct (Nat.ltb (String.length prompt) 10);
      destruct (Nat.ltb 1000 (String.length prompt));
      destruct (existsb _ problematicWords); cbn [app In];
      intuition discriminate. }
  split; [|split; [exact Hnot|split; [|split; [exact Hquality|]]]].
  - unfold v. rewrite validatePrompt_issues. fold prompt.
    rewrite (proj2 (Nat.ltb_ge _ _) Hlen).
    destruct (Nat.ltb 1000 (String.length prompt));
      destruct (existsb _ problematicWords); cbn [app In];
      intuition discriminate.
  - unfold v. rewrite validatePrompt_issues, validatePrompt_suggestions. fold prompt.
    rewrite (proj2 (includes_spec _ _) Hdetailed). cbn [negb andb].
    destruct (Nat.ltb (String.length prompt) 10);
      destruct (Nat.ltb 1000 (String.length prompt));
      destruct (existsb _ problematicWords); reflexivity.
  - exists [], (chars (", " ++ styleModifiers (default realistic style) ++ ", "
                         ++ qualityModifiers)).
    unfold prompt, enhancePrompt. now rewrite chars_app.
Qed.

End PromptValidation.

Section FileValidation.
Import AudioService.
Local Open Scope string_scope.

Lemma existsb_eqb_In (x : string) (l : list string) :
  existsb (String.eqb x) l = true <-> In x l.
Proof.
  rewrite existsb_exists. split.
  - intros (y & Hin & Heq). apply String.eqb_eq in Heq. now subst.
  - intros Hin. exists x. split; [exact Hin | apply String.eqb_refl].
Qed.

(** X30. An uploaded audio file is accepted exactly when it is not empty, not
    larger than 25 MB (a file of exactly 25 MB passes) and its extension,
    lower-cased, is one of the ten supported ones. There are at most two
    issues, and a file one byte above the limit is reported as a file of
    25MB that exceeds the maximum of 25MB. *)
Theorem validateAudioFile_verdict (extname : string -> string) (filename : string)
    (fileSize : N) :
  let v := validateAudioFile extname filename fileSize in
  let extension := string_of_list_ascii (JS.toLowerCase (chars (extname filename))) in
  (isValid v = true <->
     (0 < fileSize <= 26214400)%N /\ In extension supportedFormats)
  /\ (isValid v = true <-> issues v = [])
  /\ length (issues v) <= 2
  /\ (In "File is empty" (issues v) <-> fileSize = 0%N)
  /\ (In "File has no extension" (issues v) <-> extension = "")
  /\ isValid (validateAudioFile (fun _ => ".MP3") filename 26214400) = true
  /\ exists rest,
       issues (validateAudioFile extname filename 26214401)
       = "File size 25MB exceeds maximum of 25MB" :: rest.
Proof.
  intros v extension.
  assert (Hmain :
    (isValid v = true <->
       (0 < fileSize <= 26214400)%N /\ In extension supportedFormats)
    /\ (isValid v = true <-> issues v = [])
    /\ length (issues v) <= 2
    /\ (In "File is empty" (issues v) <-> fileSize = 0%N)
    /\ (In "File has no extension" (issues v) <-> extension = "")).
  { unfold v, validateAudioFile. fold extension.
    pose proof (existsb_eqb_In extension supportedFormats) as Hin.
    change maxSize with 26214400%N.
    destruct (N.ltb 26214400 fileSize) eqn:E1;
      [apply N.ltb_lt in E1 | apply N.ltb_ge in E1];
      (destruct (N.eqb fileSize 0) eqn:E2;
         [apply N.eqb_eq in E2 | apply N.eqb_neq in E2]); try lia;
      (destruct (String.eqb extension "") eqn:E3;
         [apply String.eqb_eq in E3 | apply String.eqb_neq in E3]);
      destruct (existsb (String.eqb extension) supportedFormats) eqn:E4;
      cbn [app length Nat.eqb negb isValid issues];
      (split; [split; [first [discriminate | intros _; split; [lia | now apply Hin]]
                      | intros [Hlen Hsup]; try lia;
                        try (apply Hin in Hsup; discriminate);
                        try (exfalso; rewrite E3 in Hsup; simpl in Hsup;
                             intuition discriminate);
                        reflexivity]|]);
      (split; [split; [try discriminate; reflexivity | try discriminate; reflexivity]|]);
      (split; [lia|]);
      (split; [split; [intros H; simpl in H;
                       repeat (destruct H as [H|H]; [try discriminate|]);
                       first [contradiction | assumption | lia | reflexivity]
                      | intros H; first [lia | repeat first [left; reflexivity | right]]]|]);
      (split; [intros H; simpl in H;
               repeat (destruct H as [H|H]; [try discriminate|]);
               first [contradiction | assumption | reflexivity]
              | intros H; first [contradiction
                                | repeat first [left; reflexivity | right]]]). }
  destruct Hmain as (H1 & H2 & H3 & H4 & H5).
  repeat (split; [assumption|]). split; [reflexivity|].
  unfold validateAudioFile.
  change (N.ltb maxSize 26214401) with true. change (N.eqb 26214401 0) with false.
  change (show (megabytes 26214401)) with "25". cbv iota.
  destruct (String.eqb _ ""); [|destruct (negb _)]; eexists; reflexivity.
Qed.

End FileValidation.
